(** * SP500 portfolio analysis server: the query and aggregation engine

    A shallow embedding of [SP500MCPServer/sp500_mcp_server_v2.py]: the
    dataset loader [load_portfolio_data] and the four tools
    [query_sp500_portfolio], [get_company_details], [get_sector_analysis]
    and [get_exposure_summary].

    Conventions of the embedding.
    - A record of the dataset is a Python [dict] with string keys: a
      [gmap string value].  Values are dynamically typed ([value]).
    - Python's [float] is IEEE binary64: Rocq's primitive [float].
    - A Python exception is a [Raise] in the [result] monad.
    - The module-level cache [_portfolio_cache] and the CSV file on disk are
      the two fields of [world]; every tool is a function
      [world -> result _ * world].
    - The request id (a random uuid) and the processing time (a clock
      reading) of a response are left out: no function of the inputs
      determines them.  Logging is left out as well.
    - Text is modelled as ASCII text: [lower] and [upper] change the 26
      letters only. *)

From Stdlib Require Import ZArith String Ascii List Bool Uint63 Floats Lia.
From stdpp Require Import gmap strings list.

Local Open Scope string_scope.
Local Open Scope Z_scope.

(** ** Python values, exceptions and the error monad *)

Inductive value : Type :=
| VNone
| VBool (b : bool)
| VFloat (f : float)
| VStr (s : string).

Inductive exn : Type :=
| ValueError
| TypeError
| AttributeError
| ZeroDivisionError.

Inductive result (A : Type) : Type :=
| Ok (a : A)
| Raise (e : exn).

Arguments Ok {A} a.
Arguments Raise {A} e.

Definition bind {A B} (m : result A) (k : A -> result B) : result B :=
  match m with
  | Ok a => k a
  | Raise e => Raise e
  end.

Notation "'try!' x := m 'in' k" := (bind m (fun x => k))
  (at level 10, x name, m at level 100, k at level 200).

Definition is_ok {A} (m : result A) : bool :=
  match m with Ok _ => true | Raise _ => false end.

(** A list comprehension [[c for c in l if p(c)]] whose condition can raise:
    the elements are tested from left to right and the first exception ends
    the comprehension. *)
Fixpoint filterM {A} (p : A -> result bool) (l : list A) : result (list A) :=
  match l with
  | [] => Ok []
  | c :: l' =>
      try! b := p c in
      try! r := filterM p l' in
      Ok (if b then c :: r else r)
  end.

(** [[f(c) for c in l]] with a body that can raise. *)
Fixpoint mapM_result {A B} (f : A -> result B) (l : list A) : result (list B) :=
  match l with
  | [] => Ok []
  | c :: l' =>
      try! y := f c in
      try! r := mapM_result f l' in
      Ok (y :: r)
  end.

(** ** Strings *)

Definition lower_ascii (c : ascii) : ascii :=
  let n := N_of_ascii c in
  if ((65 <=? n) && (n <=? 90))%N then ascii_of_N (n + 32) else c.

Definition upper_ascii (c : ascii) : ascii :=
  let n := N_of_ascii c in
  if ((97 <=? n) && (n <=? 122))%N then ascii_of_N (n - 32) else c.

(** [s.lower()] and [s.upper()]. *)
Fixpoint lower (s : string) : string :=
  match s with
  | EmptyString => EmptyString
  | String c s' => String (lower_ascii c) (lower s')
  end.

Fixpoint upper (s : string) : string :=
  match s with
  | EmptyString => EmptyString
  | String c s' => String (upper_ascii c) (upper s')
  end.

(** [s in t] on strings: [s] occurs in [t] as a contiguous substring. *)
Fixpoint py_in (s t : string) : bool :=
  String.prefix s t ||
  match t with
  | EmptyString => false
  | String _ t' => py_in s t'
  end.

(** Truth value of a string: [bool(s)]. *)
Definition nonempty (s : string) : bool :=
  match s with EmptyString => false | String _ _ => true end.

(** ** Floats *)

(** [x > 0] and [x >= y], as Python compares floats (false on NaN). *)
Definition gt0 (x : float) : bool := PrimFloat.ltb zero x.
Definition ge (x y : float) : bool := PrimFloat.leb y x.

(** [x / y]: Python raises where IEEE division by zero would give an
    infinity or NaN. *)
Definition py_div (x y : float) : result float :=
  if PrimFloat.eqb y zero then Raise ZeroDivisionError else Ok (PrimFloat.div x y).

(** The guard every ratio of the tools is written with:
    [(x / y) if y > 0 else 0]. *)
Definition guarded_ratio (x y : float) : result float :=
  if gt0 y then py_div x y else Ok zero.

(** ** Records of the dataset *)

Abbreviation row := (gmap string value).

(** [bool(v)]. *)
Definition truthy (v : value) : bool :=
  match v with
  | VNone => false
  | VBool b => b
  | VFloat f => negb (PrimFloat.eqb f zero)
  | VStr s => nonempty s
  end.

(** [v.lower()] and [v.upper()]: only a string has the method. *)
Definition py_lower (v : value) : result string :=
  match v with
  | VStr s => Ok (lower s)
  | _ => Raise AttributeError
  end.

Definition py_upper (v : value) : result string :=
  match v with
  | VStr s => Ok (upper s)
  | _ => Raise AttributeError
  end.

(** [c.get(k, '').lower()], [c.get(k, '').upper()] and [bool(c.get(k))]. *)
Definition get_lower (k : string) (c : row) : result string :=
  py_lower (default (VStr "") (c !! k)).

Definition get_upper (k : string) (c : row) : result string :=
  py_upper (default (VStr "") (c !! k)).

Definition get_truthy (k : string) (c : row) : bool :=
  truthy (default VNone (c !! k)).

(** The process state a tool runs in: the module-level [_portfolio_cache]
    and the CSV file, [None] when [PORTFOLIO_CSV_PATH] does not exist and
    otherwise the rows [csv.DictReader] yields (each cell a [VStr], or
    [VNone] where a line is shorter than the header; the surplus cells of a
    longer line, which the reader keeps under the key [None], are left
    out). *)
Record world : Type := {
  portfolio_cache : list row;
  csv_rows : option (list row)
}.

Section Builtins.

(** Two built-ins of Python are parameters of the development.
    [float_of_string s] is [float(s)] on a string: [None] stands for
    [ValueError].  [py_sum] is [sum] over floats (a plain left-to-right
    addition before CPython 3.12, a compensated one since). *)
Variable float_of_string : string -> option float.
Variable py_sum : list float -> float.

(** [float(v)]. *)
Definition py_float (v : value) : result float :=
  match v with
  | VFloat f => Ok f
  | VBool b => Ok (if b then one else zero)
  | VStr s =>
      match float_of_string s with
      | Some f => Ok f
      | None => Raise ValueError
      end
  | VNone => Raise TypeError
  end.

(** [float(c.get(k, 0))]. *)
Definition get_float (k : string) (c : row) : result float :=
  match c !! k with
  | Some v => py_float v
  | None => Ok zero
  end.

(** *** load_portfolio_data *)

Definition numeric_fields : list string :=
  ["investment_usd"; "revenue_usd"; "cogs_usd"; "gross_margin_pct";
   "fiscal_year"; "affected_cogs_pct"; "confidence"].

(** The body of the loop over [numeric_fields]: the conversion is guarded by
    [field in row and row[field]], and [ValueError] and [TypeError] are
    caught. *)
Definition convert_numeric (r : row) (field : string) : result row :=
  match r !! field with
  | Some v =>
      if truthy v then
        match py_float v with
        | Ok f => Ok (<[field := VFloat f]> r)
        | Raise ValueError | Raise TypeError => Ok (<[field := VFloat zero]> r)
        | Raise e => Raise e
        end
      else Ok r
  | None => Ok r
  end.

Fixpoint convert_numerics (fields : list string) (r : row) : result row :=
  match fields with
  | [] => Ok r
  | field :: fields' =>
      try! r' := convert_numeric r field in
      convert_numerics fields' r'
  end.

(** [row['imports_into_us'] = row['imports_into_us'].upper() == 'TRUE']. *)
Definition convert_boolean (r : row) : result row :=
  match r !! "imports_into_us" with
  | Some v =>
      try! u := py_upper v in
      Ok (<["imports_into_us" := VBool (String.eqb u "TRUE")]> r)
  | None => Ok r
  end.

Definition load_row (r : row) : result row :=
  try! r' := convert_numerics numeric_fields r in
  convert_boolean r'.

Definition load_portfolio_data (w : world) : result (list row) * world :=
  match portfolio_cache w with
  | _ :: _ => (Ok (portfolio_cache w), w)
  | [] =>
      match csv_rows w with
      | None => (Ok [], w)
      | Some rows =>
          match mapM_result load_row rows with
          | Ok portfolio_data =>
              (Ok portfolio_data,
               {| portfolio_cache := portfolio_data; csv_rows := csv_rows w |})
          | Raise e => (Raise e, w)
          end
      end
  end.

(** *** query_sp500_portfolio *)

Record query_args : Type := {
  sector : string;
  industry : string;
  exposure_level : string;
  imports_filter : string;
  min_revenue : float;
  max_revenue : float;
  min_affected_cogs_pct : float;
  company_name : string;
  ticker : string;
  limit : Z;
  sort_by : string;
  sort_desc : bool
}.

Record query_response : Type := {
  total_matches : nat;
  returned_count : nat;
  companies : list row
}.

(** One [if criterion: results = [c for c in results if ...]] step. *)
Definition filter_step (supplied : bool) (p : row -> result bool)
    (results : list row) : result (list row) :=
  if supplied then filterM p results else Ok results.

Definition lower_is (k s : string) (c : row) : result bool :=
  try! x := get_lower k c in Ok (String.eqb x (lower s)).

Definition upper_is (k s : string) (c : row) : result bool :=
  try! x := get_upper k c in Ok (String.eqb x (upper s)).

Definition float_at_least (k : string) (bound : float) (c : row) : result bool :=
  try! x := get_float k c in Ok (ge x bound).

Definition float_at_most (k : string) (bound : float) (c : row) : result bool :=
  try! x := get_float k c in Ok (PrimFloat.leb x bound).

Definition name_contains (s : string) (c : row) : result bool :=
  try! x := get_lower "company_name" c in Ok (py_in (lower s) x).

(** The [imports_filter] step: ['yes'] keeps the importers, ['no'] the
    others, and any other text runs neither branch. *)
Definition imports_step (imports_filter : string) (results : list row) : list row :=
  if nonempty imports_filter then
    if String.eqb (lower imports_filter) "yes" then
      List.filter (get_truthy "imports_into_us") results
    else if String.eqb (lower imports_filter) "no" then
      List.filter (fun c => negb (get_truthy "imports_into_us" c)) results
    else results
  else results.

(** The filtering part of the tool, in the order of the source. *)
Definition apply_filters (q : query_args) (data : list row) : result (list row) :=
  let results := data in
  try! results := filter_step (nonempty (sector q)) (lower_is "sector" (sector q)) results in
  try! results := filter_step (nonempty (industry q)) (lower_is "industry" (industry q)) results in
  try! results := filter_step (nonempty (exposure_level q))
                    (lower_is "exposure_level" (exposure_level q)) results in
  let results := imports_step (imports_filter q) results in
  try! results := filter_step (gt0 (min_revenue q))
                    (float_at_least "revenue_usd" (min_revenue q)) results in
  try! results := filter_step (gt0 (max_revenue q))
                    (float_at_most "revenue_usd" (max_revenue q)) results in
  try! results := filter_step (gt0 (min_affected_cogs_pct q))
                    (float_at_least "affected_cogs_pct" (min_affected_cogs_pct q)) results in
  try! results := filter_step (nonempty (company_name q)) (name_contains (company_name q)) results in
  filter_step (nonempty (ticker q)) (upper_is "ticker" (ticker q)) results.

(** [sorted(l, key=..., reverse=...)] on keys already computed: a stable
    sort by [<] on floats.  With [reverse] the order is descending and equal
    keys still keep their original order.  (When a key is NaN the order
    CPython produces depends on its merge strategy; the order of the result
    is used below only where no key is NaN.) *)
Definition goes_before {A} (reverse : bool) (x y : float * A) : bool :=
  if reverse then negb (PrimFloat.ltb (fst x) (fst y))
  else negb (PrimFloat.ltb (fst y) (fst x)).

Fixpoint insert_sorted {A} (reverse : bool) (x : float * A) (l : list (float * A))
    : list (float * A) :=
  match l with
  | [] => [x]
  | y :: l' =>
      if goes_before reverse x y then x :: y :: l'
      else y :: insert_sorted reverse x l'
  end.

Definition sort_keyed {A} (reverse : bool) (l : list (float * A)) : list (float * A) :=
  foldr (insert_sorted reverse) [] l.

(** [sorted(l, key=lambda x: key(x), reverse=reverse)]: the keys are computed
    first, from left to right, and an exception in one of them is raised. *)
Definition sorted {A} (key : A -> result float) (reverse : bool) (l : list A)
    : result (list A) :=
  try! keyed := mapM_result (fun c => try! k := key c in Ok (k, c)) l in
  Ok (map snd (sort_keyed reverse keyed)).

Definition sort_fields : list string :=
  ["revenue_usd"; "affected_cogs_pct"; "confidence"; "investment_usd"].

Definition sort_results (sort_by : string) (sort_desc : bool) (results : list row)
    : result (list row) :=
  if nonempty sort_by && bool_decide (sort_by ∈ sort_fields)
  then sorted (get_float sort_by) sort_desc results
  else Ok results.

(** [l[:limit]]: a negative [limit] counts from the end of the list. *)
Definition slice_to {A} (limit : Z) (l : list A) : list A :=
  if 0 <=? limit then take (Z.to_nat limit) l
  else take (Z.to_nat (Z.of_nat (length l) + limit)) l.

(** The tool's body after [data = load_portfolio_data()]. *)
Definition query_on (q : query_args) (data : list row) : result query_response :=
  try! results := apply_filters q data in
  let total_matches := length results in
  try! results := sort_results (sort_by q) (sort_desc q) results in
  let results := slice_to (limit q) results in
  Ok {| total_matches := total_matches;
        returned_count := length results;
        companies := results |}.

Definition query_sp500_portfolio (q : query_args) (w : world)
    : result query_response * world :=
  let (data, w') := load_portfolio_data w in
  (try! data := data in query_on q data, w').

(** *** get_company_details *)

Record metrics : Type := {
  affected_cogs_usd : float;
  potential_tariff_impact_usd : float;
  revenue_to_cogs_ratio : float;
  exposure_risk_score : float
}.

(** The three shapes of the tool's response, by their [status]. *)
Inductive details_response : Type :=
| details_error (error : string)
| details_not_found (message : string)
| details_success (company : row) (calculated_metrics : metrics).

Definition details_status (r : details_response) : string :=
  match r with
  | details_error _ => "error"
  | details_not_found _ => "not_found"
  | details_success _ _ => "success"
  end.

(** [for c in data: if p(c): company = c; break]: the first record that
    satisfies [p], if any. *)
Fixpoint find_first (p : row -> result bool) (data : list row) : result (option row) :=
  match data with
  | [] => Ok None
  | c :: data' =>
      try! b := p c in
      if b then Ok (Some c) else find_first p data'
  end.

(** [not company] for [company] either [None] or a dict: an empty dict is
    false as well. *)
Definition not_company (company : option row) : bool :=
  match company with
  | None => true
  | Some c => bool_decide (c = ∅)
  end.

Definition tariff_rate : float := 0.25%float.

Definition calculate_metrics (company : row) : result metrics :=
  try! revenue := get_float "revenue_usd" company in
  try! cogs := get_float "cogs_usd" company in
  try! affected_pct := get_float "affected_cogs_pct" company in
  let affected_cogs_usd := PrimFloat.mul cogs affected_pct in
  let potential_impact_usd := PrimFloat.mul affected_cogs_usd tariff_rate in
  try! ratio := guarded_ratio revenue cogs in
  Ok {| affected_cogs_usd := affected_cogs_usd;
        potential_tariff_impact_usd := potential_impact_usd;
        revenue_to_cogs_ratio := ratio;
        exposure_risk_score :=
          PrimFloat.mul affected_pct
            (if get_truthy "imports_into_us" company then one else zero) |}.

Definition not_found_message (ticker company_name : string) : string :=
  "No company found matching ticker='" +:+ ticker +:+ "' or name='" +:+ company_name +:+ "'".

(** The tool's body after [data = load_portfolio_data()]. *)
Definition details_on (ticker company_name : string) (data : list row)
    : result details_response :=
  let company := None in
  try! company :=
    if nonempty ticker then find_first (upper_is "ticker" ticker) data
    else Ok company in
  try! company :=
    if not_company company && nonempty company_name then
      try! found := find_first (name_contains company_name) data in
      Ok (match found with Some c => Some c | None => company end)
    else Ok company in
  match company with
  | Some c =>
      if not_company company then Ok (details_not_found (not_found_message ticker company_name))
      else
        try! m := calculate_metrics c in
        Ok (details_success c m)
  | None => Ok (details_not_found (not_found_message ticker company_name))
  end.

Definition get_company_details (ticker company_name : string) (w : world)
    : result details_response * world :=
  if negb (nonempty ticker) && negb (nonempty company_name) then
    (Ok (details_error "Must provide either ticker or company_name"), w)
  else
    let (data, w') := load_portfolio_data w in
    (try! data := data in details_on ticker company_name data, w').

(** *** Grouping by sector

    [sectors_data] is a dict keyed by [company.get('sector', 'Unknown')]; a
    dict keeps its keys in insertion order, so it is an association list
    here, a key's entry updated in place.  [key_eqb] is the equality a dict
    uses on these values (a NaN key, which Python finds again only as the
    same object, is taken as different from every key). *)

Definition key_eqb (a b : value) : bool :=
  match a, b with
  | VNone, VNone => true
  | VStr s, VStr t => String.eqb s t
  | VBool x, VBool y => Bool.eqb x y
  | VFloat x, VFloat y => PrimFloat.eqb x y
  | VBool x, VFloat y | VFloat y, VBool x => PrimFloat.eqb (if x then one else zero) y
  | _, _ => false
  end.

Definition sector_key (company : row) : value :=
  default (VStr "Unknown") (company !! "sector").

(** [d[k] = f(d[k])] when [k] is a key of [d], and [d[k] = f(init)] appended
    as a new entry otherwise. *)
Fixpoint upsert {V} (k : value) (init : V) (f : V -> V) (d : list (value * V))
    : list (value * V) :=
  match d with
  | [] => [(k, f init)]
  | (k', v) :: d' =>
      if key_eqb k' k then (k', f v) :: d'
      else (k', v) :: upsert k init f d'
  end.

(** *** get_sector_analysis *)

Record sector_data : Type := {
  sd_companies : list row;
  sd_total_investment : float;
  sd_total_revenue : float;
  sd_total_cogs : float;
  sd_total_affected_cogs : float;
  sd_importers_count : nat
}.

Definition empty_sector_data : sector_data :=
  {| sd_companies := [];
     sd_total_investment := zero;
     sd_total_revenue := zero;
     sd_total_cogs := zero;
     sd_total_affected_cogs := zero;
     sd_importers_count := 0%nat |}.

Record sector_summary : Type := {
  ss_sector : value;
  company_count : nat;
  total_investment_usd : float;
  total_revenue_usd : float;
  total_cogs_usd : float;
  total_affected_cogs_usd : float;
  average_exposure_pct : float;
  importers_count : nat;
  top_exposed_companies : list row
}.

Inductive sector_response : Type :=
| sector_not_found (message : string)
| sector_success (sector_count : nat) (sectors : list sector_summary).

(** One turn of the grouping loop. *)
Definition add_company (sectors_data : list (value * sector_data)) (company : row)
    : result (list (value * sector_data)) :=
  let sec := sector_key company in
  try! investment := get_float "investment_usd" company in
  try! revenue := get_float "revenue_usd" company in
  try! cogs := get_float "cogs_usd" company in
  try! affected_pct := get_float "affected_cogs_pct" company in
  Ok (upsert sec empty_sector_data
        (fun d =>
           {| sd_companies := sd_companies d ++ [company];
              sd_total_investment := PrimFloat.add (sd_total_investment d) investment;
              sd_total_revenue := PrimFloat.add (sd_total_revenue d) revenue;
              sd_total_cogs := PrimFloat.add (sd_total_cogs d) cogs;
              sd_total_affected_cogs :=
                PrimFloat.add (sd_total_affected_cogs d) (PrimFloat.mul cogs affected_pct);
              sd_importers_count :=
                if get_truthy "imports_into_us" company
                then S (sd_importers_count d) else sd_importers_count d |})
        sectors_data).

Fixpoint group_by_sector (sectors_data : list (value * sector_data)) (data : list row)
    : result (list (value * sector_data)) :=
  match data with
  | [] => Ok sectors_data
  | company :: data' =>
      try! sectors_data' := add_company sectors_data company in
      group_by_sector sectors_data' data'
  end.

Definition summarize (entry : value * sector_data) : result sector_summary :=
  let (sec_name, sec_data) := entry in
  let total_cogs := sd_total_cogs sec_data in
  try! avg_exposure := guarded_ratio (sd_total_affected_cogs sec_data) total_cogs in
  try! top := sorted (get_float "affected_cogs_pct") true (sd_companies sec_data) in
  Ok {| ss_sector := sec_name;
        company_count := length (sd_companies sec_data);
        total_investment_usd := sd_total_investment sec_data;
        total_revenue_usd := sd_total_revenue sec_data;
        total_cogs_usd := total_cogs;
        total_affected_cogs_usd := sd_total_affected_cogs sec_data;
        average_exposure_pct := avg_exposure;
        importers_count := sd_importers_count sec_data;
        top_exposed_companies := slice_to 5 top |}.

(** Aggregation of an already selected record list. *)
Definition by_sector (data : list row) : result (list sector_summary) :=
  try! sectors_data := group_by_sector [] data in
  try! sector_summaries := mapM_result summarize sectors_data in
  sorted (fun x => Ok (total_investment_usd x)) true sector_summaries.

Definition sector_on (sector : string) (data : list row) : result sector_response :=
  try! data :=
    filter_step (nonempty sector) (lower_is "sector" sector) data in
  if nonempty sector && bool_decide (data = []) then
    Ok (sector_not_found ("No companies found in sector '" +:+ sector +:+ "'"))
  else
    try! sector_summaries := by_sector data in
    Ok (sector_success (length sector_summaries) sector_summaries).

Definition get_sector_analysis (sector : string) (w : world)
    : result sector_response * world :=
  let (data, w') := load_portfolio_data w in
  (try! data := data in sector_on sector data, w').

(** *** get_exposure_summary *)

Record portfolio_overview : Type := {
  total_companies : nat;
  po_total_investment_usd : float;
  po_total_revenue_usd : float;
  po_total_cogs_usd : float;
  po_total_affected_cogs_usd : float;
  overall_exposure_pct : float;
  companies_importing_from_china : nat
}.

Record exposure_breakdown : Type := {
  eb_high : nat;
  eb_medium : nat;
  eb_low : nat;
  eb_none : nat
}.

Record exposure_summary : Type := {
  overview : portfolio_overview;
  exposure_level_breakdown : exposure_breakdown;
  es_top_exposed_companies : list (list (string * value));
  sector_exposure_ranking : list (value * float)
}.

(** [len([c for c in data if c.get('exposure_level', '').lower() == level])]. *)
Definition count_level (level : string) (data : list row) : result nat :=
  try! l := filterM (fun c => try! x := get_lower "exposure_level" c in
                               Ok (String.eqb x level)) data in
  Ok (length l).

Definition affected_cogs_of (c : row) : result float :=
  try! cogs := get_float "cogs_usd" c in
  try! affected_pct := get_float "affected_cogs_pct" c in
  Ok (PrimFloat.mul cogs affected_pct).

(** The second grouping loop keeps two totals per sector. *)
Definition add_exposure (sectors : list (value * (float * float))) (company : row)
    : result (list (value * (float * float))) :=
  let sector := sector_key company in
  try! cogs := get_float "cogs_usd" company in
  try! affected_pct := get_float "affected_cogs_pct" company in
  Ok (upsert sector (zero, zero)
        (fun d => (PrimFloat.add (fst d) cogs,
                   PrimFloat.add (snd d) (PrimFloat.mul cogs affected_pct)))
        sectors).

Fixpoint group_exposure (sectors : list (value * (float * float))) (data : list row)
    : result (list (value * (float * float))) :=
  match data with
  | [] => Ok sectors
  | company :: data' =>
      try! sectors' := add_exposure sectors company in
      group_exposure sectors' data'
  end.

(** The six fields listed for each top exposed company, [c.get(k)] each. *)
Definition top_exposed_entry (c : row) : list (string * value) :=
  map (fun k => (k, default VNone (c !! k)))
    ["ticker"; "company_name"; "sector"; "exposure_level"; "affected_cogs_pct";
     "imports_into_us"].

Definition summary_on (data : list row) : result exposure_summary :=
  let total_companies := length data in
  try! investments := mapM_result (get_float "investment_usd") data in
  let total_investment := py_sum investments in
  try! revenues := mapM_result (get_float "revenue_usd") data in
  let total_revenue := py_sum revenues in
  try! cogs := mapM_result (get_float "cogs_usd") data in
  let total_cogs := py_sum cogs in
  let importers := List.filter (get_truthy "imports_into_us") data in
  try! affected := mapM_result affected_cogs_of data in
  let total_affected_cogs := py_sum affected in
  try! high := count_level "high" data in
  try! medium := count_level "medium" data in
  try! low := count_level "low" data in
  try! none := count_level "none" data in
  try! sectors := group_exposure [] data in
  try! sector_exposure :=
    mapM_result (fun e : value * (float * float) =>
                   try! exposure_pct := guarded_ratio (snd (snd e)) (fst (snd e)) in
                   Ok (fst e, exposure_pct)) sectors in
  try! sector_exposure_sorted := sorted (fun x => Ok (snd x)) true sector_exposure in
  try! top := sorted (get_float "affected_cogs_pct") true data in
  let top_exposed := slice_to 10 top in
  try! overall := guarded_ratio total_affected_cogs total_cogs in
  Ok {| overview :=
          {| total_companies := total_companies;
             po_total_investment_usd := total_investment;
             po_total_revenue_usd := total_revenue;
             po_total_cogs_usd := total_cogs;
             po_total_affected_cogs_usd := total_affected_cogs;
             overall_exposure_pct := overall;
             companies_importing_from_china := length importers |};
        exposure_level_breakdown :=
          {| eb_high := high; eb_medium := medium; eb_low := low; eb_none := none |};
        es_top_exposed_companies := map top_exposed_entry top_exposed;
        sector_exposure_ranking := sector_exposure_sorted |}.

Definition get_exposure_summary (w : world) : result exposure_summary * world :=
  let (data, w') := load_portfolio_data w in
  (try! data := data in summary_on data, w').

(** ** The data model of the specification

    A company record as the specification's data model declares it: text in
    the text fields, a finite float in the numeric fields, a boolean in
    [imports_into_us].  A field may be absent: the tools read every field
    through [get] with a default.  [company_record] is what the tools assume
    of the cached records; [load_row] establishes it for a row whose numeric
    cells are non-empty texts of finite numbers. *)

Definition string_fields : list string :=
  ["ticker"; "company_name"; "sector"; "industry"; "exposure_level"].

Definition holds_string (o : option value) : bool :=
  match o with
  | None | Some (VStr _) => true
  | _ => false
  end.

Definition holds_decimal (o : option value) : bool :=
  match o with
  | None => true
  | Some (VFloat f) => is_finite f
  | _ => false
  end.

Definition holds_flag (o : option value) : bool :=
  match o with
  | None | Some (VBool _) => true
  | _ => false
  end.

Definition company_record (c : row) : bool :=
  forallb (fun k => holds_string (c !! k)) string_fields
  && forallb (fun k => holds_decimal (c !! k)) numeric_fields
  && holds_flag (c !! "imports_into_us").

(** The cached list holds company records only. *)
Definition records (l : list row) : Prop :=
  forall c, In c l -> company_record c = true.



(** Typed readings of a field: the text, the number and the flag a company
    record holds, with the defaults of the tools for an absent field. *)
Definition str_field (k : string) (c : row) : string :=
  match c !! k with
  | Some (VStr s) => s
  | _ => ""
  end.

Definition num_field (k : string) (c : row) : float :=
  match c !! k with
  | Some (VFloat f) => f
  | _ => zero
  end.

Definition imports (c : row) : bool := get_truthy "imports_into_us" c.

(** *** The filter of the specification: one conjunction

    Each criterion constrains a record only when it is supplied: a non-empty
    text, a bound greater than zero. *)

Definition imports_ok (imports_filter : string) (c : row) : bool :=
  if String.eqb (lower imports_filter) "yes" then imports c
  else if String.eqb (lower imports_filter) "no" then negb (imports c)
  else true.

Definition satisfies (q : query_args) (c : row) : bool :=
  implb (nonempty (sector q))
    (String.eqb (lower (str_field "sector" c)) (lower (sector q)))
  && implb (nonempty (industry q))
       (String.eqb (lower (str_field "industry" c)) (lower (industry q)))
  && implb (nonempty (exposure_level q))
       (String.eqb (lower (str_field "exposure_level" c)) (lower (exposure_level q)))
  && implb (nonempty (imports_filter q)) (imports_ok (imports_filter q) c)
  && implb (gt0 (min_revenue q)) (ge (num_field "revenue_usd" c) (min_revenue q))
  && implb (gt0 (max_revenue q)) (PrimFloat.leb (num_field "revenue_usd" c) (max_revenue q))
  && implb (gt0 (min_affected_cogs_pct q))
       (ge (num_field "affected_cogs_pct" c) (min_affected_cogs_pct q))
  && implb (nonempty (company_name q))
       (py_in (lower (company_name q)) (lower (str_field "company_name" c)))
  && implb (nonempty (ticker q))
       (String.eqb (upper (str_field "ticker" c)) (upper (ticker q))).

(** The conjunction on arbitrary cached values: a criterion holds of a
    record when its test returns true (a test that raises does not hold). *)
Definition holds (p : row -> result bool) (c : row) : bool :=
  match p c with
  | Ok b => b
  | Raise _ => false
  end.

Definition accepts (q : query_args) (c : row) : bool :=
  implb (nonempty (sector q)) (holds (lower_is "sector" (sector q)) c)
  && implb (nonempty (industry q)) (holds (lower_is "industry" (industry q)) c)
  && implb (nonempty (exposure_level q))
       (holds (lower_is "exposure_level" (exposure_level q)) c)
  && implb (nonempty (imports_filter q)) (imports_ok (imports_filter q) c)
  && implb (gt0 (min_revenue q)) (holds (float_at_least "revenue_usd" (min_revenue q)) c)
  && implb (gt0 (max_revenue q)) (holds (float_at_most "revenue_usd" (max_revenue q)) c)
  && implb (gt0 (min_affected_cogs_pct q))
       (holds (float_at_least "affected_cogs_pct" (min_affected_cogs_pct q)) c)
  && implb (nonempty (company_name q)) (holds (name_contains (company_name q)) c)
  && implb (nonempty (ticker q)) (holds (upper_is "ticker" (ticker q)) c).

(** The same query with another [imports_filter]. *)
Definition with_imports_filter (x : string) (q : query_args) : query_args :=
  {| sector := sector q; industry := industry q; exposure_level := exposure_level q;
     imports_filter := x;
     min_revenue := min_revenue q; max_revenue := max_revenue q;
     min_affected_cogs_pct := min_affected_cogs_pct q;
     company_name := company_name q; ticker := ticker q;
     limit := limit q; sort_by := sort_by q; sort_desc := sort_desc q |}.

(** The same criteria with another limit and other sort settings. *)
Definition with_limit_and_sort (limit : Z) (sort_by : string) (sort_desc : bool)
    (q : query_args) : query_args :=
  {| sector := sector q; industry := industry q; exposure_level := exposure_level q;
     imports_filter := imports_filter q;
     min_revenue := min_revenue q; max_revenue := max_revenue q;
     min_affected_cogs_pct := min_affected_cogs_pct q;
     company_name := company_name q; ticker := ticker q;
     limit := limit; sort_by := sort_by; sort_desc := sort_desc |}.

(** *** The lookup of the specification *)

Definition ticker_matches (ticker : string) (c : row) : bool :=
  String.eqb (upper (str_field "ticker" c)) (upper ticker).

Definition name_matches (company_name : string) (c : row) : bool :=
  py_in (lower company_name) (lower (str_field "company_name" c)).

(** The record the lookup order designates: the first ticker match, else the
    first name match. *)
Definition lookup (ticker company_name : string) (data : list row) : option row :=
  match (if nonempty ticker then List.find (ticker_matches ticker) data else None) with
  | Some c => Some c
  | None => if nonempty company_name then List.find (name_matches company_name) data else None
  end.

(** A ratio of the specification: zero unless the denominator is positive. *)
Definition ratio_or_zero (x y : float) : float :=
  if gt0 y then PrimFloat.div x y else zero.

(** The derived metrics of a company record, from its typed fields. *)
Definition metrics_of (c : row) : metrics :=
  let cogs := num_field "cogs_usd" c in
  let affected_pct := num_field "affected_cogs_pct" c in
  {| affected_cogs_usd := PrimFloat.mul cogs affected_pct;
     potential_tariff_impact_usd := PrimFloat.mul (PrimFloat.mul cogs affected_pct) tariff_rate;
     revenue_to_cogs_ratio := ratio_or_zero (num_field "revenue_usd" c) cogs;
     exposure_risk_score := PrimFloat.mul affected_pct (if imports c then one else zero) |}.

(** The response the lookup order designates. *)
Definition details_of (ticker company_name : string) (data : list row) : details_response :=
  match lookup ticker company_name data with
  | Some c => details_success c (metrics_of c)
  | None => details_not_found (not_found_message ticker company_name)
  end.

(** *** The exposure buckets *)

Definition level_is (level : string) (c : row) : bool :=
  String.eqb (lower (str_field "exposure_level" c)) level.

Definition count_where {A} (p : A -> bool) (l : list A) : nat :=
  length (List.filter p l).

(** A record falls in a bucket when its exposure level is, up to case, one
    of the four names. *)
Definition recognized (c : row) : bool :=
  level_is "high" c || level_is "medium" c || level_is "low" c || level_is "none" c.

(** The product [cogs * affected_pct] of a company record. *)
Definition affected_cogs (c : row) : float :=
  PrimFloat.mul (num_field "cogs_usd" c) (num_field "affected_cogs_pct" c).

(** *** The coercion of a numeric cell

    What the loader leaves in a numeric field that held [v]: a float when
    [v] is true as a condition (a non-empty text, in a CSV row), and [v]
    itself otherwise. *)

Definition float_or_zero (v : value) : float :=
  match py_float v with
  | Ok f => f
  | Raise _ => zero
  end.

Definition convert_value (v : value) : value :=
  if truthy v then VFloat (float_or_zero v) else v.

(** The rows the loader turns into company records: text in the text
    fields and in [imports_into_us], and in each numeric field a non-empty
    text that denotes a finite number or no number at all. *)
Definition loadable_cell (o : option value) : bool :=
  match o with
  | None => true
  | Some (VStr s) =>
      nonempty s
      && match float_of_string s with
         | Some f => is_finite f
         | None => true
         end
  | _ => false
  end.

Definition loadable_row (r : row) : bool :=
  forallb (fun k => holds_string (r !! k)) string_fields
  && forallb (fun k => loadable_cell (r !! k)) numeric_fields
  && holds_string (r !! "imports_into_us").

(** *** The summary of one sector, from its accumulated totals *)

Definition top_by_affected_pct (n : Z) (l : list row) : list row :=
  slice_to n
    (map snd (sort_keyed true (map (fun c => (num_field "affected_cogs_pct" c, c)) l))).

Definition summary_of (entry : value * sector_data) : sector_summary :=
  {| ss_sector := fst entry;
     company_count := length (sd_companies (snd entry));
     total_investment_usd := sd_total_investment (snd entry);
     total_revenue_usd := sd_total_revenue (snd entry);
     total_cogs_usd := sd_total_cogs (snd entry);
     total_affected_cogs_usd := sd_total_affected_cogs (snd entry);
     average_exposure_pct :=
       ratio_or_zero (sd_total_affected_cogs (snd entry)) (sd_total_cogs (snd entry));
     importers_count := sd_importers_count (snd entry);
     top_exposed_companies := top_by_affected_pct 5 (sd_companies (snd entry)) |}.

(** *** The portfolio summary, from the records and the grouped totals *)

Definition ranking_of (sectors : list (value * (float * float))) : list (value * float) :=
  map snd
    (sort_keyed true
       (map (fun x : value * float => (snd x, x))
          (map (fun e : value * (float * float) =>
                  (fst e, ratio_or_zero (snd (snd e)) (fst (snd e)))) sectors))).

Definition summary_of_data (sectors : list (value * (float * float))) (data : list row)
    : exposure_summary :=
  {| overview :=
       {| total_companies := length data;
          po_total_investment_usd := py_sum (map (num_field "investment_usd") data);
          po_total_revenue_usd := py_sum (map (num_field "revenue_usd") data);
          po_total_cogs_usd := py_sum (map (num_field "cogs_usd") data);
          po_total_affected_cogs_usd := py_sum (map affected_cogs data);
          overall_exposure_pct :=
            ratio_or_zero (py_sum (map affected_cogs data))
              (py_sum (map (num_field "cogs_usd") data));
          companies_importing_from_china := count_where imports data |};
     exposure_level_breakdown :=
       {| eb_high := count_where (level_is "high") data;
          eb_medium := count_where (level_is "medium") data;
          eb_low := count_where (level_is "low") data;
          eb_none := count_where (level_is "none") data |};
     es_top_exposed_companies := map top_exposed_entry (top_by_affected_pct 10 data);
     sector_exposure_ranking := ranking_of sectors |}.

(** * Properties *)

(** ** The error monad and comprehensions *)

Lemma filterM_ok {A} (p : A -> result bool) (b : A -> bool) (l : list A) :
  (forall c, In c l -> p c = Ok (b c)) ->
  filterM p l = Ok (List.filter b l).
Proof.
  induction l as [|c l IH]; intros Hp; [reflexivity|].
  cbn [filterM List.filter].
  rewrite (Hp c) by (left; reflexivity). cbn [bind].
  rewrite IH by (intros c' Hc'; apply Hp; right; exact Hc').
  reflexivity.
Qed.

Lemma mapM_result_ok {A B} (f : A -> result B) (g : A -> B) (l : list A) :
  (forall c, In c l -> f c = Ok (g c)) ->
  mapM_result f l = Ok (map g l).
Proof.
  induction l as [|c l IH]; intros Hf; [reflexivity|].
  cbn [mapM_result map].
  rewrite (Hf c) by (left; reflexivity). cbn [bind].
  rewrite IH by (intros c' Hc'; apply Hf; right; exact Hc').
  reflexivity.
Qed.

Lemma filter_all {A} (l : list A) : List.filter (fun _ => true) l = l.
Proof. induction l as [|c l IH]; cbn; [|rewrite IH]; reflexivity. Qed.

Lemma filter_fuse {A} (f g : A -> bool) (l : list A) :
  List.filter g (List.filter f l) = List.filter (fun c => f c && g c) l.
Proof.
  induction l as [|c l IH]; [reflexivity|].
  cbn [List.filter]. destruct (f c); cbn [List.filter andb]; rewrite IH; reflexivity.
Qed.

(** ** Floats *)

Lemma Prim2SF_zero : Prim2SF zero = S754_zero false.
Proof. reflexivity. Qed.

Lemma Prim2SF_one : Prim2SF one = S754_finite false 4503599627370496 (-52).
Proof. reflexivity. Qed.

Lemma Prim2SF_infinity : Prim2SF infinity = S754_infinity false.
Proof. reflexivity. Qed.

Lemma is_finite_cases (x : float) :
  is_finite x = true ->
  (exists s, Prim2SF x = S754_zero s) \/ (exists s m e, Prim2SF x = S754_finite s m e).
Proof.
  unfold is_finite, is_nan, is_infinity.
  rewrite !FloatAxioms.eqb_spec, FloatAxioms.abs_spec, Prim2SF_infinity.
  destruct (Prim2SF x) as [s|s| |s m e]; cbn; try discriminate; eauto.
  destruct s; cbn; discriminate.
Qed.

(** A finite float times zero is zero (of either sign). *)
Lemma mul_zero_finite (x : float) :
  is_finite x = true -> PrimFloat.eqb (PrimFloat.mul x zero) zero = true.
Proof.
  intros H. rewrite FloatAxioms.eqb_spec, FloatAxioms.mul_spec, Prim2SF_zero.
  destruct (is_finite_cases x H) as [[s ->]|(s & m & e & ->)]; reflexivity.
Qed.

Lemma SFeqb_finite_refl (s : bool) (m : positive) (e : Z) :
  SFeqb (S754_finite s m e) (S754_finite s m e) = true.
Proof.
  unfold SFeqb. cbn [SFcompare].
  destruct s; rewrite Z.compare_refl, Pos.compare_cont_refl; reflexivity.
Qed.

Lemma not_finite_cases (x : float) :
  is_finite x = false ->
  Prim2SF x = S754_nan \/ exists s, Prim2SF x = S754_infinity s.
Proof.
  unfold is_finite, is_nan, is_infinity.
  rewrite !FloatAxioms.eqb_spec, FloatAxioms.abs_spec, Prim2SF_infinity.
  destruct (Prim2SF x) as [s|s| |s m e]; eauto.
  - destruct s; cbn; discriminate.
  - rewrite SFeqb_finite_refl. cbn. discriminate.
Qed.

(** An infinity or NaN times zero is NaN. *)
Lemma mul_zero_not_finite (x : float) :
  is_finite x = false -> is_nan (PrimFloat.mul x zero) = true.
Proof.
  intros H. unfold is_nan. rewrite FloatAxioms.eqb_spec, FloatAxioms.mul_spec, Prim2SF_zero.
  destruct (not_finite_cases x H) as [->|[s ->]]; reflexivity.
Qed.

(** A float equal to zero is not greater than zero. *)
Lemma eq_zero_not_gt0 (b : float) : PrimFloat.eqb b zero = true -> gt0 b = false.
Proof.
  unfold gt0. rewrite FloatAxioms.eqb_spec, FloatAxioms.ltb_spec, Prim2SF_zero.
  destruct (Prim2SF b) as [s|s| |s m e]; cbn; try discriminate; try reflexivity.
  all: destruct s; discriminate.
Qed.

Lemma digits2_pos_shift52 (m : positive) :
  digits2_pos (Pos.mul 4503599627370496 m) = (digits2_pos m + 52)%positive.
Proof.
  cbv beta iota delta [Pos.mul]. cbv beta iota delta [digits2_pos].
  fold digits2_pos. lia.
Qed.

Lemma shr_shift52 (m : positive) :
  SpecFloat.iter_pos shr_1 52
    {| shr_m := Z.pos (Pos.mul 4503599627370496 m); shr_r := false; shr_s := false |}
  = {| shr_m := Z.pos m; shr_r := false; shr_s := false |}.
Proof. reflexivity. Qed.

(** Multiplying by one is exact: the product has the mantissa shifted by 52
    bits, and rounding shifts it back without loss. *)
Lemma mul_one_r (x : float) : PrimFloat.mul x one = x.
Proof.
  apply FloatAxioms.Prim2SF_inj. rewrite FloatAxioms.mul_spec, Prim2SF_one.
  pose proof (FloatAxioms.Prim2SF_valid x) as V.
  destruct (Prim2SF x) as [s|s| |s m e]; try reflexivity.
  - cbn. destruct s; reflexivity.
  - cbn. destruct s; reflexivity.
  - unfold SF64mul, SFmul. rewrite xorb_false_r.
    cbn in V. apply andb_prop in V as [C B].
    unfold canonical_mantissa in C. apply Z.eqb_eq in C.
    rewrite Pos.mul_comm.
    unfold binary_round_aux, shr_fexp.
    unfold Zdigits2 at 1. rewrite digits2_pos_shift52.
    replace (Z.pos (digits2_pos m + 52) + (e + -52)) with (Z.pos (digits2_pos m) + e) by lia.
    rewrite C. replace (e - (e + -52)) with 52 by lia.
    unfold shr_record_of_loc, shr at 1.
    rewrite shr_shift52.
    cbn [shr_m loc_of_shr_record round_nearest_even Zdigits2].
    replace (e + -52 + 52) with e by lia.
    rewrite C, Z.sub_diag. cbn [shr shr_m].
    rewrite B. reflexivity.
Qed.

(** ** Reading the fields of a company record *)

Lemma records_forallb (l : list row) : forallb company_record l = true -> records l.
Proof. intros H c Hc. exact (proj1 (forallb_forall _ _) H c Hc). Qed.

Lemma records_filter (f : row -> bool) (l : list row) :
  records l -> records (List.filter f l).
Proof. intros H c Hc. apply H. apply filter_In in Hc. tauto. Qed.

Ltac in_fields := cbn; repeat ((left; reflexivity) || right).

Lemma record_string (k : string) (c : row) :
  company_record c = true -> In k string_fields ->
  c !! k = None \/ exists s, c !! k = Some (VStr s).
Proof.
  intros H Hk. unfold company_record in H.
  apply andb_prop in H as [H _]. apply andb_prop in H as [H _].
  pose proof (proj1 (forallb_forall _ _) H k Hk) as Hs. cbn beta in Hs.
  destruct (c !! k) as [[]|]; cbn in Hs; try discriminate; eauto.
Qed.

Lemma record_decimal (k : string) (c : row) :
  company_record c = true -> In k numeric_fields ->
  c !! k = None \/ exists f, c !! k = Some (VFloat f) /\ is_finite f = true.
Proof.
  intros H Hk. unfold company_record in H.
  apply andb_prop in H as [H _]. apply andb_prop in H as [_ H].
  pose proof (proj1 (forallb_forall _ _) H k Hk) as Hs. cbn beta in Hs.
  destruct (c !! k) as [[]|]; cbn in Hs; try discriminate; eauto.
Qed.

Lemma record_get_lower (k : string) (c : row) :
  company_record c = true -> In k string_fields ->
  get_lower k c = Ok (lower (str_field k c)).
Proof.
  intros H Hk. unfold get_lower, str_field.
  destruct (record_string k c H Hk) as [->|[s ->]]; reflexivity.
Qed.

Lemma record_get_upper (k : string) (c : row) :
  company_record c = true -> In k string_fields ->
  get_upper k c = Ok (upper (str_field k c)).
Proof.
  intros H Hk. unfold get_upper, str_field.
  destruct (record_string k c H Hk) as [->|[s ->]]; reflexivity.
Qed.

Lemma record_get_float (k : string) (c : row) :
  company_record c = true -> In k numeric_fields ->
  get_float k c = Ok (num_field k c).
Proof.
  intros H Hk. unfold get_float, num_field.
  destruct (record_decimal k c H Hk) as [->|(f & -> & _)]; reflexivity.
Qed.

Lemma record_finite (k : string) (c : row) :
  company_record c = true -> In k numeric_fields ->
  is_finite (num_field k c) = true.
Proof.
  intros H Hk. unfold num_field.
  destruct (record_decimal k c H Hk) as [->|(f & -> & Hf)]; [reflexivity|exact Hf].
Qed.

(** ** The filtering step of query_sp500_portfolio *)

Lemma lower_is_record (k s : string) (c : row) :
  company_record c = true -> In k string_fields ->
  lower_is k s c = Ok (String.eqb (lower (str_field k c)) (lower s)).
Proof. intros H Hk. unfold lower_is. rewrite record_get_lower by assumption. reflexivity. Qed.

Lemma upper_is_record (k s : string) (c : row) :
  company_record c = true -> In k string_fields ->
  upper_is k s c = Ok (String.eqb (upper (str_field k c)) (upper s)).
Proof. intros H Hk. unfold upper_is. rewrite record_get_upper by assumption. reflexivity. Qed.

Lemma float_at_least_record (k : string) (bound : float) (c : row) :
  company_record c = true -> In k numeric_fields ->
  float_at_least k bound c = Ok (ge (num_field k c) bound).
Proof. intros H Hk. unfold float_at_least. rewrite record_get_float by assumption. reflexivity. Qed.

Lemma float_at_most_record (k : string) (bound : float) (c : row) :
  company_record c = true -> In k numeric_fields ->
  float_at_most k bound c = Ok (PrimFloat.leb (num_field k c) bound).
Proof. intros H Hk. unfold float_at_most. rewrite record_get_float by assumption. reflexivity. Qed.

Lemma name_contains_record (s : string) (c : row) :
  company_record c = true ->
  name_contains s c = Ok (name_matches s c).
Proof.
  intros H. unfold name_contains, name_matches.
  rewrite record_get_lower by (assumption || in_fields). reflexivity.
Qed.

Lemma filter_step_records (s : bool) (p : row -> result bool) (b : row -> bool)
    (l : list row) :
  records l -> (forall c, company_record c = true -> p c = Ok (b c)) ->
  filter_step s p l = Ok (List.filter (fun c => implb s (b c)) l).
Proof.
  intros Hl Hp. unfold filter_step. destruct s; cbn [implb].
  - apply filterM_ok. intros c Hc. apply Hp, Hl, Hc.
  - rewrite filter_all. reflexivity.
Qed.

Lemma imports_step_filter (x : string) (l : list row) :
  imports_step x l = List.filter (fun c => implb (nonempty x) (imports_ok x c)) l.
Proof.
  unfold imports_step, imports_ok, imports.
  destruct (nonempty x); cbn [implb]; [|symmetry; apply filter_all].
  destruct (String.eqb (lower x) "yes"); [reflexivity|].
  destruct (String.eqb (lower x) "no"); [reflexivity|].
  symmetry; apply filter_all.
Qed.

(** An [imports_filter] that is neither yes nor no filters nothing. *)
Lemma imports_step_other (x : string) (l : list row) :
  lower x <> "yes" -> lower x <> "no" -> imports_step x l = l.
Proof.
  intros Hy Hn. unfold imports_step.
  apply String.eqb_neq in Hy, Hn. rewrite Hy, Hn.
  destruct (nonempty x); reflexivity.
Qed.

Ltac filter_records :=
  repeat apply records_filter; assumption.

Lemma apply_filters_records (q : query_args) (data : list row) :
  records data ->
  apply_filters q data = Ok (List.filter (satisfies q) data).
Proof.
  intros H. unfold apply_filters.
  rewrite (filter_step_records _ _
             (fun c => String.eqb (lower (str_field "sector" c)) (lower (sector q))))
    by (filter_records || (intros; apply lower_is_record; [assumption|in_fields])).
  cbn [bind].
  rewrite (filter_step_records _ _
             (fun c => String.eqb (lower (str_field "industry" c)) (lower (industry q))))
    by (filter_records || (intros; apply lower_is_record; [assumption|in_fields])).
  cbn [bind].
  rewrite (filter_step_records _ _
             (fun c => String.eqb (lower (str_field "exposure_level" c))
                         (lower (exposure_level q))))
    by (filter_records || (intros; apply lower_is_record; [assumption|in_fields])).
  cbn [bind].
  rewrite imports_step_filter.
  rewrite (filter_step_records _ _
             (fun c => ge (num_field "revenue_usd" c) (min_revenue q)))
    by (filter_records || (intros; apply float_at_least_record; [assumption|in_fields])).
  cbn [bind].
  rewrite (filter_step_records _ _
             (fun c => PrimFloat.leb (num_field "revenue_usd" c) (max_revenue q)))
    by (filter_records || (intros; apply float_at_most_record; [assumption|in_fields])).
  cbn [bind].
  rewrite (filter_step_records _ _
             (fun c => ge (num_field "affected_cogs_pct" c) (min_affected_cogs_pct q)))
    by (filter_records || (intros; apply float_at_least_record; [assumption|in_fields])).
  cbn [bind].
  rewrite (filter_step_records _ _ (name_matches (company_name q)))
    by (filter_records || (intros; apply name_contains_record; assumption)).
  cbn [bind].
  rewrite (filter_step_records _ _ (ticker_matches (ticker q)))
    by (filter_records || (intros; apply upper_is_record; [assumption|in_fields])).
  rewrite !filter_fuse. f_equal.
  apply List.filter_ext. intros c.
  unfold satisfies, name_matches, ticker_matches.
  rewrite !andb_assoc. reflexivity.
Qed.

(** Whatever the cache holds, the filtering step either raises or returns
    the records that pass every supplied test. *)
Lemma filterM_returns {A} (p : A -> result bool) (l l' : list A) :
  filterM p l = Ok l' ->
  l' = List.filter (fun c => match p c with Ok b => b | Raise _ => false end) l.
Proof.
  revert l'. induction l as [|c l IH]; intros l' H; cbn [filterM List.filter] in *.
  - injection H as <-. reflexivity.
  - destruct (p c) as [b|e]; [|discriminate]. cbn [bind] in H.
    destruct (filterM p l) as [r|e]; [|discriminate]. cbn [bind] in H.
    injection H as <-. rewrite (IH r eq_refl). reflexivity.
Qed.

Lemma filter_step_returns (s : bool) (p : row -> result bool) (l l' : list row) :
  filter_step s p l = Ok l' ->
  l' = List.filter (fun c => implb s (holds p c)) l.
Proof.
  unfold filter_step. destruct s; cbn [implb].
  - apply filterM_returns.
  - intros [= <-]. symmetry. apply filter_all.
Qed.

Lemma apply_filters_returns (q : query_args) (data l : list row) :
  apply_filters q data = Ok l -> l = List.filter (accepts q) data.
Proof.
  unfold apply_filters. intros H.
  destruct (filter_step (nonempty (sector q)) _ data) as [l1|] eqn:E1; [|discriminate].
  cbn [bind] in H.
  destruct (filter_step (nonempty (industry q)) _ l1) as [l2|] eqn:E2; [|discriminate].
  cbn [bind] in H.
  destruct (filter_step (nonempty (exposure_level q)) _ l2) as [l3|] eqn:E3; [|discriminate].
  cbn [bind] in H. rewrite imports_step_filter in H.
  destruct (filter_step (gt0 (min_revenue q)) _ _) as [l5|] eqn:E5; [|discriminate].
  cbn [bind] in H.
  destruct (filter_step (gt0 (max_revenue q)) _ l5) as [l6|] eqn:E6; [|discriminate].
  cbn [bind] in H.
  destruct (filter_step (gt0 (min_affected_cogs_pct q)) _ l6) as [l7|] eqn:E7; [|discriminate].
  cbn [bind] in H.
  destruct (filter_step (nonempty (company_name q)) _ l7) as [l8|] eqn:E8; [|discriminate].
  cbn [bind] in H.
  apply filter_step_returns in E1, E2, E3, E5, E6, E7, E8, H. subst.
  rewrite !filter_fuse. apply List.filter_ext. intros c.
  unfold accepts. rewrite !andb_assoc. reflexivity.
Qed.

Lemma accepts_record (q : query_args) (c : row) :
  company_record c = true -> accepts q c = satisfies q c.
Proof.
  intros H. unfold accepts, satisfies, holds.
  rewrite !lower_is_record, !float_at_least_record, float_at_most_record,
    name_contains_record, upper_is_record by (assumption || in_fields).
  reflexivity.
Qed.

(** C5. The filtering step of the search returns exactly the records of the
    cache, in their original order, that satisfy the conjunction of the
    supplied criteria; an empty text or a zero bound constrains nothing.
    It does so for every cache of company records; on any cache, what it
    returns when it returns is that conjunction filter. *)
Theorem apply_filters_conjunction (q : query_args) (data : list row) :
  (forallb company_record data = true ->
   apply_filters q data = Ok (List.filter (satisfies q) data))
  /\ (forall l, apply_filters q data = Ok l ->
       l = List.filter (accepts q) data /\ sublist l data)
  /\ (forall c, company_record c = true -> accepts q c = satisfies q c)
  /\ (forall c, sector q = "" -> industry q = "" -> exposure_level q = "" ->
       imports_filter q = "" -> min_revenue q = zero -> max_revenue q = zero ->
       min_affected_cogs_pct q = zero -> company_name q = "" -> ticker q = "" ->
       satisfies q c = true /\ accepts q c = true).
Proof.
  split; [intros H; apply apply_filters_records, records_forallb, H|].
  split; [|split; [apply accepts_record|]].
  - intros l H. apply apply_filters_returns in H. subst l. split; [reflexivity|].
    induction data as [|c data IH]; cbn [List.filter]; [constructor|].
    destruct (accepts q c); [apply sublist_skip|apply sublist_cons]; exact IH.
  - intros c H1 H2 H3 H4 H5 H6 H7 H8 H9. unfold satisfies, accepts.
    rewrite H1, H2, H3, H4, H5, H6, H7, H8, H9. split; reflexivity.
Qed.

(** ** Sorting and slicing *)

Lemma insert_sorted_length {A} (reverse : bool) (x : float * A) (l : list (float * A)) :
  length (insert_sorted reverse x l) = S (length l).
Proof.
  induction l as [|y l IH]; [reflexivity|].
  cbn [insert_sorted]. destruct (goes_before reverse x y); cbn [length]; [|rewrite IH];
    reflexivity.
Qed.

Lemma sort_keyed_length {A} (reverse : bool) (l : list (float * A)) :
  length (sort_keyed reverse l) = length l.
Proof.
  induction l as [|x l IH]; [reflexivity|].
  cbn [sort_keyed foldr]. rewrite insert_sorted_length. cbn [length].
  f_equal. exact IH.
Qed.

Lemma insert_sorted_In {A} (reverse : bool) (x y : float * A) (l : list (float * A)) :
  In y (insert_sorted reverse x l) <-> y = x \/ In y l.
Proof.
  induction l as [|z l IH]; cbn [insert_sorted In].
  - intuition congruence.
  - destruct (goes_before reverse x z); cbn [In]; [intuition congruence|].
    rewrite IH. intuition congruence.
Qed.

Lemma sort_keyed_In {A} (reverse : bool) (y : float * A) (l : list (float * A)) :
  In y (sort_keyed reverse l) <-> In y l.
Proof.
  induction l as [|x l IH]; [reflexivity|].
  cbn [sort_keyed foldr]. rewrite insert_sorted_In. cbn [In].
  fold (sort_keyed reverse l). rewrite IH. intuition congruence.
Qed.

(** When every key is defined, [sorted] returns; its result is the input
    rearranged. *)
Lemma sorted_ok {A} (key : A -> result float) (k : A -> float) (reverse : bool)
    (l : list A) :
  (forall c, In c l -> key c = Ok (k c)) ->
  sorted key reverse l
  = Ok (map snd (sort_keyed reverse (map (fun c => (k c, c)) l))).
Proof.
  intros Hk. unfold sorted.
  rewrite (mapM_result_ok _ (fun c => (k c, c))); [reflexivity|].
  intros c Hc. rewrite (Hk c Hc). reflexivity.
Qed.

Lemma sorted_ok_length {A} (k : A -> float) (reverse : bool) (l : list A) :
  length (map snd (sort_keyed reverse (map (fun c => (k c, c)) l))) = length l.
Proof. rewrite length_map, sort_keyed_length, length_map. reflexivity. Qed.

Lemma sorted_ok_In {A} (k : A -> float) (reverse : bool) (l : list A) (x : A) :
  In x (map snd (sort_keyed reverse (map (fun c => (k c, c)) l))) -> In x l.
Proof.
  intros H. apply in_map_iff in H as ([f y] & <- & Hy).
  apply sort_keyed_In, in_map_iff in Hy as (c & Hc & Hin).
  inversion Hc; subst. exact Hin.
Qed.

Tactic Notation "bind_inv" hyp(H) "as" ident(x) ident(E) :=
  match type of H with
  | bind ?m _ = Ok _ => destruct m as [x|?] eqn:E; [cbn [bind] in H|discriminate H]
  end.

Lemma mapM_result_In {A B} (f : A -> result B) (l : list A) (l' : list B) :
  mapM_result f l = Ok l' ->
  length l' = length l /\ forall y, In y l' -> exists c, In c l /\ f c = Ok y.
Proof.
  revert l'. induction l as [|c l IH]; intros l' H; cbn [mapM_result] in H.
  - injection H as <-. split; [reflexivity|intros y []].
  - bind_inv H as y0 E. bind_inv H as r E'. injection H as <-.
    destruct (IH _ eq_refl) as [Hlen Hin]. split; [cbn; congruence|].
    intros y [<-|Hy]; [exists c; split; [left; reflexivity|exact E]|].
    destruct (Hin y Hy) as (c' & Hc' & Hf). exists c'. split; [right; exact Hc'|exact Hf].
Qed.

Lemma sorted_returns {A} (key : A -> result float) (reverse : bool) (l l' : list A) :
  sorted key reverse l = Ok l' ->
  length l' = length l /\ forall x, In x l' -> In x l.
Proof.
  unfold sorted. intros H. bind_inv H as keyed E. injection H as <-.
  apply mapM_result_In in E as [Hlen Hin].
  split; [rewrite length_map, sort_keyed_length; exact Hlen|].
  intros x Hx. apply in_map_iff in Hx as ([k y] & <- & Hy).
  apply sort_keyed_In, Hin in Hy as (c & Hc & Hk).
  destruct (key c); [|discriminate]. cbn [bind] in Hk. injection Hk as _ <-. exact Hc.
Qed.

Lemma sort_fields_numeric (k : string) : In k sort_fields -> In k numeric_fields.
Proof. cbn. intuition (subst; auto 10). Qed.

Lemma sort_results_records (sort_by : string) (sort_desc : bool) (l : list row) :
  records l ->
  exists l', sort_results sort_by sort_desc l = Ok l'
             /\ length l' = length l /\ (forall c, In c l' -> In c l).
Proof.
  intros Hl. unfold sort_results.
  destruct (nonempty sort_by && bool_decide (sort_by ∈ sort_fields)) eqn:E.
  - apply andb_prop in E as [_ E]. apply bool_decide_eq_true in E.
    apply list_elem_of_In, sort_fields_numeric in E.
    rewrite (sorted_ok _ (num_field sort_by)).
    + eexists; split; [reflexivity|]. split; [apply sorted_ok_length|].
      intros c. apply sorted_ok_In.
    + intros c Hc. apply record_get_float; [apply Hl, Hc|exact E].
  - exists l. auto.
Qed.

Lemma slice_to_zero {A} (l : list A) : slice_to 0 l = [].
Proof. reflexivity. Qed.

Lemma slice_to_length {A} (limit : Z) (l : list A) :
  length (slice_to limit l)
  = if 0 <=? limit then Nat.min (Z.to_nat limit) (length l)
    else (length l - Z.to_nat (- limit))%nat.
Proof.
  unfold slice_to. destruct (0 <=? limit) eqn:E; rewrite length_take; [reflexivity|].
  apply Z.leb_gt in E. lia.
Qed.

(** ** The cache *)

Lemma load_keeps_file (w : world) :
  csv_rows (snd (load_portfolio_data w)) = csv_rows w.
Proof.
  unfold load_portfolio_data.
  destruct (portfolio_cache w); [|reflexivity].
  destruct (csv_rows w) as [rows|] eqn:E; [|exact E].
  destruct (mapM_result load_row rows); [reflexivity|exact E].
Qed.

(** The tools in terms of their bodies. *)
Lemma query_result (q : query_args) (w : world) (data : list row) :
  fst (load_portfolio_data w) = Ok data ->
  fst (query_sp500_portfolio q w) = query_on q data.
Proof.
  unfold query_sp500_portfolio. destruct (load_portfolio_data w) as [d w'].
  cbn [fst]. intros ->. reflexivity.
Qed.

Lemma details_result (ticker company_name : string) (w : world) (data : list row) :
  fst (load_portfolio_data w) = Ok data ->
  nonempty ticker || nonempty company_name = true ->
  fst (get_company_details ticker company_name w) = details_on ticker company_name data.
Proof.
  unfold get_company_details. intros Hd Hne.
  rewrite <- negb_orb, Hne. cbn [negb].
  destruct (load_portfolio_data w) as [d w']. cbn [fst] in *. rewrite Hd. reflexivity.
Qed.

Lemma sector_result (sector : string) (w : world) (data : list row) :
  fst (load_portfolio_data w) = Ok data ->
  fst (get_sector_analysis sector w) = sector_on sector data.
Proof.
  unfold get_sector_analysis. destruct (load_portfolio_data w) as [d w'].
  cbn [fst]. intros ->. reflexivity.
Qed.

Lemma summary_result (w : world) (data : list row) :
  fst (load_portfolio_data w) = Ok data ->
  fst (get_exposure_summary w) = summary_on data.
Proof.
  unfold get_exposure_summary. destruct (load_portfolio_data w) as [d w'].
  cbn [fst]. intros ->. reflexivity.
Qed.

(** ** query_sp500_portfolio *)

Lemma query_on_records (q : query_args) (data : list row) :
  records data ->
  exists results,
    length results = length (List.filter (satisfies q) data)
    /\ query_on q data
       = Ok {| total_matches := length (List.filter (satisfies q) data);
               returned_count := length (slice_to (limit q) results);
               companies := slice_to (limit q) results |}.
Proof.
  intros Ht. unfold query_on.
  rewrite (apply_filters_records q data Ht). cbn [bind].
  destruct (sort_results_records (sort_by q) (sort_desc q) (List.filter (satisfies q) data))
    as (l' & -> & Hlen & _); [apply records_filter, Ht|].
  cbn [bind]. exists l'. split; [exact Hlen|reflexivity].
Qed.

Lemma sort_results_returns (sort_by : string) (sort_desc : bool) (l l' : list row) :
  sort_results sort_by sort_desc l = Ok l' -> length l' = length l.
Proof.
  unfold sort_results.
  destruct (nonempty sort_by && bool_decide (sort_by ∈ sort_fields)).
  - intros H. apply sorted_returns in H. tauto.
  - intros [= <-]. reflexivity.
Qed.

Lemma query_on_returns (q : query_args) (data : list row) (r : query_response) :
  query_on q data = Ok r ->
  total_matches r = length (List.filter (accepts q) data)
  /\ returned_count r = length (companies r)
  /\ length (companies r)
     = if 0 <=? limit q then Nat.min (Z.to_nat (limit q)) (total_matches r)
       else (total_matches r - Z.to_nat (- limit q))%nat.
Proof.
  unfold query_on. intros H.
  destruct (apply_filters q data) as [l|] eqn:El; [cbn [bind] in H|discriminate].
  destruct (sort_results (sort_by q) (sort_desc q) l) as [l'|] eqn:Es;
    [cbn [bind] in H|discriminate].
  injection H as <-. cbn [total_matches returned_count companies].
  apply apply_filters_returns in El. apply sort_results_returns in Es.
  rewrite slice_to_length, Es, El. auto.
Qed.



(** C9. An [imports_filter] that is not empty and whose lowercase form is
    neither yes nor no constrains nothing: the call returns what the same
    call with an empty [imports_filter] returns. *)
Theorem unrecognized_imports_filter_ignored (q : query_args) (x : string) (w : world) :
  nonempty x = true -> lower x <> "yes" -> lower x <> "no" ->
  query_sp500_portfolio (with_imports_filter x q) w
  = query_sp500_portfolio (with_imports_filter "" q) w.
Proof.
  intros _ Hy Hn. unfold query_sp500_portfolio.
  destruct (load_portfolio_data w) as [[data|e] w']; [|reflexivity].
  cbn [bind]. f_equal. unfold query_on, apply_filters.
  cbn [with_imports_filter sector industry exposure_level imports_filter min_revenue
       max_revenue min_affected_cogs_pct company_name ticker limit sort_by sort_desc].
  destruct (filter_step (nonempty (sector q)) _ data) as [l1|]; [|reflexivity]. cbn [bind].
  destruct (filter_step (nonempty (industry q)) _ l1) as [l2|]; [|reflexivity]. cbn [bind].
  destruct (filter_step (nonempty (exposure_level q)) _ l2) as [l3|]; [|reflexivity].
  cbn [bind]. rewrite (imports_step_other x l3 Hy Hn). reflexivity.
Qed.

(** ** get_company_details *)

Lemma guarded_ratio_ok (x y : float) : guarded_ratio x y = Ok (ratio_or_zero x y).
Proof.
  unfold guarded_ratio, ratio_or_zero, py_div.
  destruct (gt0 y) eqn:G; [|reflexivity].
  destruct (PrimFloat.eqb y zero) eqn:E; [|reflexivity].
  apply eq_zero_not_gt0 in E. congruence.
Qed.

Lemma ratio_or_zero_zero (x y : float) :
  PrimFloat.eqb y zero = true -> ratio_or_zero x y = zero.
Proof. intros E. unfold ratio_or_zero. rewrite (eq_zero_not_gt0 y E). reflexivity. Qed.

Lemma find_first_ok (p : row -> result bool) (b : row -> bool) (data : list row) :
  (forall c, In c data -> p c = Ok (b c)) ->
  find_first p data = Ok (List.find b data).
Proof.
  induction data as [|c data IH]; intros Hp; [reflexivity|].
  cbn [find_first List.find].
  rewrite (Hp c) by (left; reflexivity). cbn [bind].
  destruct (b c); [reflexivity|].
  apply IH. intros c' Hc'. apply Hp. right. exact Hc'.
Qed.

Lemma upper_empty (s : string) : upper s = "" -> s = "".
Proof. destruct s; [reflexivity|discriminate]. Qed.

Lemma lower_empty (s : string) : lower s = "" -> s = "".
Proof. destruct s; [reflexivity|discriminate]. Qed.

Lemma nonempty_not_empty (s : string) : nonempty s = true -> s <> "".
Proof. destruct s; [discriminate|intros _; discriminate]. Qed.

(** A record that matches a non-empty identifier holds the field, so it is
    not the empty dict and [not company] is false for it. *)
Lemma ticker_match_not_empty (ticker : string) (c : row) :
  nonempty ticker = true -> ticker_matches ticker c = true -> c <> ∅.
Proof.
  intros Hne Hm ->. unfold ticker_matches, str_field in Hm.
  rewrite lookup_empty in Hm. apply String.eqb_eq in Hm. symmetry in Hm.
  apply upper_empty in Hm. apply nonempty_not_empty in Hne. contradiction.
Qed.

Lemma name_match_not_empty (company_name : string) (c : row) :
  nonempty company_name = true -> name_matches company_name c = true -> c <> ∅.
Proof.
  intros Hne Hm ->. unfold name_matches, str_field in Hm.
  rewrite lookup_empty in Hm. cbn [lower py_in] in Hm.
  rewrite orb_false_r in Hm.
  destruct (lower company_name) eqn:E; [|discriminate].
  apply lower_empty in E. apply nonempty_not_empty in Hne. contradiction.
Qed.

Lemma calculate_metrics_record (c : row) :
  company_record c = true -> calculate_metrics c = Ok (metrics_of c).
Proof.
  intros H. unfold calculate_metrics, metrics_of.
  rewrite !record_get_float by (assumption || in_fields). cbn [bind].
  rewrite guarded_ratio_ok. reflexivity.
Qed.

Lemma details_on_records (ticker company_name : string) (data : list row) :
  records data ->
  details_on ticker company_name data = Ok (details_of ticker company_name data).
Proof.
  intros Hd. unfold details_on, details_of, lookup.
  assert (Hname : find_first (name_contains company_name) data
                  = Ok (List.find (name_matches company_name) data)).
  { apply find_first_ok. intros c Hc. apply name_contains_record, Hd, Hc. }
  assert (Hticker : find_first (upper_is "ticker" ticker) data
                    = Ok (List.find (ticker_matches ticker) data)).
  { apply find_first_ok. intros c Hc. apply upper_is_record; [apply Hd, Hc|in_fields]. }
  assert (Hsuccess : forall c, In c data -> c <> ∅ ->
            (if not_company (Some c)
             then Ok (details_not_found (not_found_message ticker company_name))
             else try! m := calculate_metrics c in Ok (details_success c m))
            = Ok (details_success c (metrics_of c))).
  { intros c Hc Hne. cbn [not_company]. rewrite bool_decide_eq_false_2 by exact Hne.
    rewrite calculate_metrics_record by (apply Hd, Hc). reflexivity. }
  assert (Hfallback :
            (try! company :=
               (if not_company None && nonempty company_name
                then try! found := find_first (name_contains company_name) data in
                     Ok (match found with Some c => Some c | None => None end)
                else Ok None) in
             match company with
             | Some c =>
                 if not_company company
                 then Ok (details_not_found (not_found_message ticker company_name))
                 else try! m := calculate_metrics c in Ok (details_success c m)
             | None => Ok (details_not_found (not_found_message ticker company_name))
             end)
            = Ok (match (if nonempty company_name
                         then List.find (name_matches company_name) data else None) with
                  | Some c => details_success c (metrics_of c)
                  | None => details_not_found (not_found_message ticker company_name)
                  end)).
  { cbn [not_company andb]. destruct (nonempty company_name) eqn:Nn; [|reflexivity].
    rewrite Hname. cbn [bind].
    destruct (List.find (name_matches company_name) data) as [c|] eqn:F; [|reflexivity].
    apply find_some in F as [Hc Hm]. cbn [bind].
    apply Hsuccess; [exact Hc|]. exact (name_match_not_empty _ _ Nn Hm). }
  destruct (nonempty ticker) eqn:Nt; [|exact Hfallback].
  rewrite Hticker. cbn [bind].
  destruct (List.find (ticker_matches ticker) data) as [c|] eqn:F; [|exact Hfallback].
  apply find_some in F as [Hc Hm].
  pose proof (ticker_match_not_empty _ _ Nt Hm) as Hne.
  cbn [not_company]. rewrite bool_decide_eq_false_2 by exact Hne. cbn [andb bind].
  apply Hsuccess; assumption.
Qed.

(** C4. With both identifiers empty the tool answers with the status
    [error] and a message that says what is missing.  It returns this
    response in every process state, also one in which loading the dataset
    would raise, and leaves the state untouched: nothing is loaded or
    searched. *)
Theorem empty_identifiers_validation_error (w : world) :
  get_company_details "" "" w
  = (Ok (details_error "Must provide either ticker or company_name"), w)
  /\ details_status (details_error "Must provide either ticker or company_name") = "error".
Proof. split; reflexivity. Qed.

(** *** The lookup on any cache *)

(** A record whose two identifiers are text or absent: the searches of the
    lookup do not raise on it. *)
Definition text_identifiers (c : row) : bool :=
  holds_string (c !! "ticker") && holds_string (c !! "company_name").

Lemma find_first_returns (p : row -> result bool) (data : list row) (o : option row) :
  find_first p data = Ok o -> o = List.find (holds p) data.
Proof.
  revert o. induction data as [|c data IH]; intros o H; cbn [find_first List.find] in *.
  - injection H as <-. reflexivity.
  - unfold holds at 1. destruct (p c) as [[]|]; cbn [bind] in H; [| |discriminate].
    + injection H as <-. reflexivity.
    + exact (IH o H).
Qed.

Lemma holds_ticker_not_empty (ticker : string) (c : row) :
  nonempty ticker = true -> holds (upper_is "ticker" ticker) c = true -> c <> ∅.
Proof.
  intros Hne Hm ->. unfold holds, upper_is, get_upper in Hm.
  rewrite lookup_empty in Hm. cbn [default py_upper bind upper] in Hm.
  apply String.eqb_eq in Hm. symmetry in Hm.
  apply upper_empty in Hm. apply nonempty_not_empty in Hne. contradiction.
Qed.

Lemma holds_name_not_empty (company_name : string) (c : row) :
  nonempty company_name = true -> holds (name_contains company_name) c = true -> c <> ∅.
Proof.
  intros Hne Hm ->. unfold holds, name_contains, get_lower in Hm.
  rewrite lookup_empty in Hm. cbn [default py_lower bind lower py_in] in Hm.
  rewrite orb_false_r in Hm.
  destruct (lower company_name) eqn:E; [|discriminate].
  apply lower_empty in E. apply nonempty_not_empty in Hne. contradiction.
Qed.

Lemma upper_is_text (s : string) (c : row) :
  holds_string (c !! "ticker") = true ->
  upper_is "ticker" s c = Ok (ticker_matches s c).
Proof.
  unfold upper_is, get_upper, ticker_matches, str_field.
  destruct (c !! "ticker") as [[]|]; cbn; try discriminate; reflexivity.
Qed.

Lemma name_contains_text (s : string) (c : row) :
  holds_string (c !! "company_name") = true ->
  name_contains s c = Ok (name_matches s c).
Proof.
  unfold name_contains, get_lower, name_matches, str_field.
  destruct (c !! "company_name") as [[]|]; cbn; try discriminate; reflexivity.
Qed.

(** The last step of the lookup, on the company the searches selected. *)
Definition found (ticker company_name : string) (company : option row)
    : result details_response :=
  match company with
  | Some c => try! m := calculate_metrics c in Ok (details_success c m)
  | None => Ok (details_not_found (not_found_message ticker company_name))
  end.

Lemma found_not_empty (ticker company_name : string) (c : row) :
  c <> ∅ ->
  (if not_company (Some c)
   then Ok (details_not_found (not_found_message ticker company_name))
   else try! m := calculate_metrics c in Ok (details_success c m))
  = found ticker company_name (Some c).
Proof. intros H. cbn [not_company]. rewrite bool_decide_eq_false_2 by exact H. reflexivity. Qed.

(** What the lookup returns when it returns, whatever the cached values
    are: the response for the first record its ticker test holds of, else
    for the first record its name test holds of. *)
Lemma details_on_returns (ticker company_name : string) (data : list row)
    (r : details_response) :
  details_on ticker company_name data = Ok r ->
  found ticker company_name
    (match (if nonempty ticker
            then List.find (holds (upper_is "ticker" ticker)) data else None) with
     | Some c => Some c
     | None => if nonempty company_name
               then List.find (holds (name_contains company_name)) data else None
     end)
  = Ok r.
Proof.
  unfold details_on. intros H.
  assert (Hfallback :
            (try! company :=
               (if not_company None && nonempty company_name
                then try! found := find_first (name_contains company_name) data in
                     Ok (match found with Some c => Some c | None => None end)
                else Ok None) in
             match company with
             | Some c =>
                 if not_company company
                 then Ok (details_not_found (not_found_message ticker company_name))
                 else try! m := calculate_metrics c in Ok (details_success c m)
             | None => Ok (details_not_found (not_found_message ticker company_name))
             end) = Ok r ->
            found ticker company_name
              (if nonempty company_name
               then List.find (holds (name_contains company_name)) data else None)
            = Ok r).
  { cbn [not_company andb]. destruct (nonempty company_name) eqn:Nn; [|exact (fun E => E)].
    intros E. bind_inv E as o Eo. bind_inv Eo as o' Ef. injection Eo as <-.
    apply find_first_returns in Ef. subst o'.
    destruct (List.find (holds (name_contains company_name)) data) as [c|] eqn:F;
      [|exact E].
    apply find_some in F as [_ Hm].
    rewrite (found_not_empty _ _ c (holds_name_not_empty _ _ Nn Hm)) in E. exact E. }
  destruct (nonempty ticker) eqn:Nt; [|exact (Hfallback H)].
  destruct (find_first (upper_is "ticker" ticker) data) as [o|] eqn:Ef;
    [cbn [bind] in H|discriminate].
  apply find_first_returns in Ef. subst o.
  destruct (List.find (holds (upper_is "ticker" ticker)) data) as [c|] eqn:F;
    [|exact (Hfallback H)].
  apply find_some in F as [_ Hm].
  pose proof (holds_ticker_not_empty _ _ Nt Hm) as Hne.
  cbn [not_company] in H. rewrite bool_decide_eq_false_2 in H by exact Hne.
  cbn [andb bind] in H.
  rewrite (found_not_empty _ _ c Hne) in H. exact H.
Qed.

(** Over records whose identifiers are text the searches do not raise: the
    lookup is the last step on the record the lookup order designates. *)
Lemma details_on_text (ticker company_name : string) (data : list row) :
  (forall c, In c data -> text_identifiers c = true) ->
  details_on ticker company_name data
  = found ticker company_name (lookup ticker company_name data).
Proof.
  intros Hd. unfold details_on, lookup.
  assert (Hname : find_first (name_contains company_name) data
                  = Ok (List.find (name_matches company_name) data)).
  { apply find_first_ok. intros c Hc. apply name_contains_text.
    specialize (Hd c Hc). apply andb_prop in Hd. tauto. }
  assert (Hticker : find_first (upper_is "ticker" ticker) data
                    = Ok (List.find (ticker_matches ticker) data)).
  { apply find_first_ok. intros c Hc. apply upper_is_text.
    specialize (Hd c Hc). apply andb_prop in Hd. tauto. }
  assert (Hfallback :
            (try! company :=
               (if not_company None && nonempty company_name
                then try! found := find_first (name_contains company_name) data in
                     Ok (match found with Some c => Some c | None => None end)
                else Ok None) in
             match company with
             | Some c =>
                 if not_company company
                 then Ok (details_not_found (not_found_message ticker company_name))
                 else try! m := calculate_metrics c in Ok (details_success c m)
             | None => Ok (details_not_found (not_found_message ticker company_name))
             end)
            = found ticker company_name
                (if nonempty company_name
                 then List.find (name_matches company_name) data else None)).
  { cbn [not_company andb]. destruct (nonempty company_name) eqn:Nn; [|reflexivity].
    rewrite Hname. cbn [bind].
    destruct (List.find (name_matches company_name) data) as [c|] eqn:F; [|reflexivity].
    apply find_some in F as [Hc Hm]. cbn [bind].
    apply found_not_empty. exact (name_match_not_empty _ _ Nn Hm). }
  destruct (nonempty ticker) eqn:Nt; [|exact Hfallback].
  rewrite Hticker. cbn [bind].
  destruct (List.find (ticker_matches ticker) data) as [c|] eqn:F; [|exact Hfallback].
  apply find_some in F as [Hc Hm].
  pose proof (ticker_match_not_empty _ _ Nt Hm) as Hne.
  cbn [not_company]. rewrite bool_decide_eq_false_2 by exact Hne. cbn [andb bind].
  apply found_not_empty. exact Hne.
Qed.

Lemma details_response_of_load (ticker company_name : string) (w : world)
    (r : details_response) :
  nonempty ticker || nonempty company_name = true ->
  fst (get_company_details ticker company_name w) = Ok r ->
  exists data, fst (load_portfolio_data w) = Ok data
               /\ details_on ticker company_name data = Ok r.
Proof.
  intros Hne. unfold get_company_details. rewrite <- negb_orb, Hne. cbn [negb].
  destruct (load_portfolio_data w) as [[data|e] w']; cbn [fst bind]; [eauto|discriminate].
Qed.

(** C7, as the code has it.  The lookup order of [get_company_details]:
    the first record, in dataset order, whose ticker equals the ticker up to
    case; when the ticker is empty or matches no record and the name is not
    empty, the first record whose name contains the name up to case; when
    neither search finds a record, [not_found] with its message, not an
    exception.  The record found is returned when its metrics can be
    computed, and the call raises otherwise.  On any cache this holds of
    every response the tool returns; the tool returns (or raises in the
    metrics) for every cache whose identifiers are text; and it returns
    the record with its metrics for every cache of company records. *)
Theorem lookup_order (ticker company_name : string) (w : world) (data : list row) :
  fst (load_portfolio_data w) = Ok data ->
  nonempty ticker || nonempty company_name = true ->
  let response := fst (get_company_details ticker company_name w) in
  (let by_ticker := if nonempty ticker
                    then List.find (holds (upper_is "ticker" ticker)) data else None in
   let by_name := if nonempty company_name
                  then List.find (holds (name_contains company_name)) data else None in
   forall r, response = Ok r ->
     (forall c, by_ticker = Some c ->
        exists m, calculate_metrics c = Ok m /\ r = details_success c m)
     /\ (forall c, by_ticker = None -> by_name = Some c ->
           exists m, calculate_metrics c = Ok m /\ r = details_success c m)
     /\ (by_ticker = None -> by_name = None ->
         r = details_not_found (not_found_message ticker company_name)))
  /\ (let by_ticker := if nonempty ticker
                       then List.find (ticker_matches ticker) data else None in
      let by_name := if nonempty company_name
                     then List.find (name_matches company_name) data else None in
      (forallb text_identifiers data = true ->
       (forall c, by_ticker = Some c ->
          response = try! m := calculate_metrics c in Ok (details_success c m))
       /\ (forall c, by_ticker = None -> by_name = Some c ->
             response = try! m := calculate_metrics c in Ok (details_success c m))
       /\ (by_ticker = None -> by_name = None ->
           response = Ok (details_not_found (not_found_message ticker company_name))))
      /\ (forallb company_record data = true ->
          (forall c, by_ticker = Some c ->
             response = Ok (details_success c (metrics_of c)))
          /\ (forall c, by_ticker = None -> by_name = Some c ->
                response = Ok (details_success c (metrics_of c)))
          /\ (by_ticker = None -> by_name = None ->
              response = Ok (details_not_found (not_found_message ticker company_name))
              /\ details_status (details_not_found (not_found_message ticker company_name))
                 = "not_found"))).
Proof.
  intros Hd Hne. cbn zeta.
  rewrite (details_result _ _ w data Hd Hne).
  split; [|split].
  - intros r Hr. apply details_on_returns in Hr. unfold found in Hr.
    split; [|split].
    + intros c E. rewrite E in Hr. bind_inv Hr as m Em. injection Hr as <-. eauto.
    + intros c E1 E2. rewrite E1, E2 in Hr. bind_inv Hr as m Em. injection Hr as <-. eauto.
    + intros E1 E2. rewrite E1, E2 in Hr. injection Hr as <-. reflexivity.
  - intros Ht.
    rewrite (details_on_text _ _ data (proj1 (forallb_forall _ _) Ht)).
    unfold lookup, found. split; [|split].
    + intros c ->. reflexivity.
    + intros c -> ->. reflexivity.
    + intros -> ->. reflexivity.
  - intros Ht.
    rewrite (details_on_records _ _ data (records_forallb _ Ht)).
    unfold details_of, lookup. split; [|split].
    + intros c ->. reflexivity.
    + intros c -> ->. reflexivity.
    + intros -> ->. split; reflexivity.
Qed.

(** C3, as the code has it.  The metrics returned with a found record [c],
    from the three numbers the tool reads of it: affected cogs is
    [cogs * affected_pct], the tariff impact is that times 0.25, the revenue
    to cogs ratio is [revenue / cogs] when [cogs > 0] and zero otherwise,
    in particular when [cogs] is zero, and the risk score is [affected_pct]
    for an importer.  For a company that does not import the score is
    [affected_pct * 0]: zero when [affected_pct] is finite, and NaN when it
    is an infinity or NaN.  This holds of every successful response,
    whatever the cache holds; in a company record the three numbers are the
    fields themselves and are finite. *)
Theorem calculated_metrics_exact (ticker company_name : string) (w : world)
    (c : row) (m : metrics) :
  fst (get_company_details ticker company_name w) = Ok (details_success c m) ->
  exists revenue cogs affected_pct,
    get_float "revenue_usd" c = Ok revenue
    /\ get_float "cogs_usd" c = Ok cogs
    /\ get_float "affected_cogs_pct" c = Ok affected_pct
    /\ affected_cogs_usd m = PrimFloat.mul cogs affected_pct
    /\ potential_tariff_impact_usd m = PrimFloat.mul (affected_cogs_usd m) 0.25%float
    /\ potential_tariff_impact_usd m
       = PrimFloat.mul (PrimFloat.mul cogs affected_pct) 0.25%float
    /\ (gt0 cogs = true -> revenue_to_cogs_ratio m = PrimFloat.div revenue cogs)
    /\ (gt0 cogs = false -> revenue_to_cogs_ratio m = zero)
    /\ (PrimFloat.eqb cogs zero = true -> revenue_to_cogs_ratio m = zero)
    /\ (imports c = true -> exposure_risk_score m = affected_pct)
    /\ (imports c = false -> is_finite affected_pct = true ->
        PrimFloat.eqb (exposure_risk_score m) zero = true)
    /\ (imports c = false -> is_finite affected_pct = false ->
        is_nan (exposure_risk_score m) = true)
    /\ (company_record c = true ->
        revenue = num_field "revenue_usd" c /\ cogs = num_field "cogs_usd" c
        /\ affected_pct = num_field "affected_cogs_pct" c
        /\ is_finite affected_pct = true /\ m = metrics_of c).
Proof.
  intros Hr.
  assert (Hm : calculate_metrics c = Ok m).
  { destruct (nonempty ticker || nonempty company_name) eqn:Hne.
    - destruct (details_response_of_load _ _ w _ Hne Hr) as (data & _ & Hon).
      apply details_on_returns in Hon. unfold found in Hon.
      destruct (match (if nonempty ticker then _ else _) with
                | Some c0 => Some c0
                | None => _
                end) as [c'|]; [|discriminate].
      bind_inv Hon as m' Em. injection Hon as <- <-. exact Em.
    - apply orb_false_elim in Hne as [N1 N2]. unfold get_company_details in Hr.
      rewrite N1, N2 in Hr. discriminate. }
  unfold calculate_metrics in Hm.
  bind_inv Hm as revenue Er. bind_inv Hm as cogs Ec. bind_inv Hm as pct Ep.
  rewrite guarded_ratio_ok in Hm. cbn [bind] in Hm. injection Hm as <-.
  exists revenue, cogs, pct.
  cbn [affected_cogs_usd potential_tariff_impact_usd revenue_to_cogs_ratio
       exposure_risk_score].
  fold (imports c).
  repeat (split; [reflexivity|]).
  split; [intros G; unfold ratio_or_zero; rewrite G; reflexivity|].
  split; [intros G; unfold ratio_or_zero; rewrite G; reflexivity|].
  split; [apply ratio_or_zero_zero|].
  split; [intros ->; apply mul_one_r|].
  split; [intros -> F; apply mul_zero_finite, F|].
  split; [intros -> F; apply mul_zero_not_finite, F|].
  intros Hc.
  rewrite record_get_float in Er, Ec, Ep by (assumption || in_fields).
  injection Er as <-. injection Ec as <-. injection Ep as <-.
  split; [reflexivity|]. split; [reflexivity|]. split; [reflexivity|].
  split; [apply record_finite; [exact Hc|in_fields]|reflexivity].
Qed.

(** ** get_exposure_summary: the exposure buckets *)

Lemma count_level_record (level : string) (data : list row) :
  records data ->
  count_level level data = Ok (count_where (level_is level) data).
Proof.
  intros Hd. unfold count_level.
  rewrite (filterM_ok _ (level_is level)); [reflexivity|].
  intros c Hc. unfold level_is.
  rewrite record_get_lower by (apply Hd, Hc || in_fields). reflexivity.
Qed.

Lemma level_is_unique (a b : string) (c : row) :
  a <> b -> level_is a c = true -> level_is b c = false.
Proof.
  unfold level_is. intros Hab Ha. apply String.eqb_eq in Ha.
  apply String.eqb_neq. congruence.
Qed.

(** The four buckets are disjoint, so their counts add up to the number of
    records with a recognized level. *)
Lemma buckets_partition (l : list row) :
  (count_where (level_is "high") l + count_where (level_is "medium") l
   + count_where (level_is "low") l + count_where (level_is "none") l)%nat
  = count_where recognized l.
Proof.
  unfold count_where, recognized.
  induction l as [|c l IH]; [reflexivity|]. cbn [List.filter].
  destruct (level_is "high" c) eqn:H.
  { rewrite (level_is_unique "high" "medium" c), (level_is_unique "high" "low" c),
      (level_is_unique "high" "none" c) by (assumption || discriminate).
    cbn [orb length]. lia. }
  destruct (level_is "medium" c) eqn:M.
  { rewrite (level_is_unique "medium" "low" c), (level_is_unique "medium" "none" c)
      by (assumption || discriminate).
    cbn [orb length]. lia. }
  destruct (level_is "low" c) eqn:L.
  { rewrite (level_is_unique "low" "none" c) by (assumption || discriminate).
    cbn [orb length]. lia. }
  destruct (level_is "none" c); cbn [orb length]; lia.
Qed.

Lemma count_where_le {A} (p : A -> bool) (l : list A) : (count_where p l <= length l)%nat.
Proof.
  unfold count_where. induction l as [|c l IH]; [reflexivity|].
  cbn [List.filter]. destruct (p c); cbn [length]; lia.
Qed.

(** ** Grouping by sector *)


Lemma add_exposure_record (sectors : list (value * (float * float))) (c : row) :
  company_record c = true ->
  exists sectors', add_exposure sectors c = Ok sectors'.
Proof.
  intros H. unfold add_exposure.
  rewrite !record_get_float by (assumption || in_fields). cbn [bind]. eauto.
Qed.

Lemma group_exposure_records (data : list row) :
  records data ->
  forall sectors, exists sectors', group_exposure sectors data = Ok sectors'.
Proof.
  induction data as [|c data IH]; intros Hd sectors; [cbn; eauto|].
  cbn [group_exposure].
  destruct (add_exposure_record sectors c) as [s' ->]; [apply Hd; left; reflexivity|].
  cbn [bind]. apply IH. intros c' Hc'. apply Hd. right. exact Hc'.
Qed.



Lemma summarize_records (entry : value * sector_data) :
  records (sd_companies (snd entry)) ->
  summarize entry = Ok (summary_of entry).
Proof.
  intros H. destruct entry as [sec_name sec_data]. cbn [snd] in H.
  unfold summarize, summary_of, top_by_affected_pct.
  rewrite guarded_ratio_ok. cbn [bind].
  rewrite (sorted_ok _ (num_field "affected_cogs_pct"))
    by (intros c Hc; apply record_get_float; [apply H, Hc|in_fields]).
  reflexivity.
Qed.



(** ** get_exposure_summary *)

Lemma affected_cogs_of_record (c : row) :
  company_record c = true -> affected_cogs_of c = Ok (affected_cogs c).
Proof.
  intros H. unfold affected_cogs_of, affected_cogs.
  rewrite !record_get_float by (assumption || in_fields). reflexivity.
Qed.

Lemma summary_on_records (data : list row) :
  records data ->
  exists sectors, summary_on data = Ok (summary_of_data sectors data).
Proof.
  intros Hd. unfold summary_on.
  rewrite (mapM_result_ok _ (num_field "investment_usd"))
    by (intros c Hc; apply record_get_float; [apply Hd, Hc|in_fields]).
  cbn [bind].
  rewrite (mapM_result_ok _ (num_field "revenue_usd"))
    by (intros c Hc; apply record_get_float; [apply Hd, Hc|in_fields]).
  cbn [bind].
  rewrite (mapM_result_ok _ (num_field "cogs_usd"))
    by (intros c Hc; apply record_get_float; [apply Hd, Hc|in_fields]).
  cbn [bind].
  rewrite (mapM_result_ok _ affected_cogs)
    by (intros c Hc; apply affected_cogs_of_record, Hd, Hc).
  cbn [bind].
  rewrite !count_level_record by exact Hd. cbn [bind].
  destruct (group_exposure_records data Hd []) as [sectors ->]. cbn [bind].
  rewrite (mapM_result_ok _
             (fun e : value * (float * float) =>
                (fst e, ratio_or_zero (snd (snd e)) (fst (snd e)))))
    by (intros e _; rewrite guarded_ratio_ok; reflexivity).
  cbn [bind].
  rewrite (sorted_ok _ snd) by reflexivity. cbn [bind].
  rewrite (sorted_ok _ (num_field "affected_cogs_pct"))
    by (intros c Hc; apply record_get_float; [apply Hd, Hc|in_fields]).
  cbn [bind]. rewrite guarded_ratio_ok. cbn [bind].
  exists sectors. reflexivity.
Qed.

Lemma ranking_of_ratio (sectors : list (value * (float * float))) (x : value * float) :
  In x (ranking_of sectors) ->
  exists affected total_cogs, snd x = ratio_or_zero affected total_cogs.
Proof.
  intros H. apply sorted_ok_In, in_map_iff in H as (e & <- & _). cbn [snd]. eauto.
Qed.

(** ** The aggregations on any cache

    What a tool returns when it returns, whatever the cached values are. *)

Lemma get_lower_returns (k : string) (c : row) (x : string) :
  get_lower k c = Ok x -> x = lower (str_field k c).
Proof.
  unfold get_lower, str_field.
  destruct (c !! k) as [[| | |s]|]; cbn; intros [= <-]; reflexivity.
Qed.

Lemma count_level_returns (level : string) (data : list row) (n : nat) :
  count_level level data = Ok n -> n = count_where (level_is level) data.
Proof.
  unfold count_level, count_where. intros H. bind_inv H as l E. injection H as <-.
  f_equal.
  revert l E. induction data as [|c data IH]; intros l E; cbn [filterM] in E.
  - injection E as <-. reflexivity.
  - bind_inv E as b Eb. bind_inv E as r Er. injection E as <-.
    bind_inv Eb as x Ex. injection Eb as <-.
    apply get_lower_returns in Ex. subst x. cbn [List.filter]. unfold level_is at 1.
    rewrite (IH _ eq_refl). reflexivity.
Qed.




Lemma summary_on_returns (data : list row) (e : exposure_summary) :
  summary_on data = Ok e ->
  total_companies (overview e) = length data
  /\ exposure_level_breakdown e
     = {| eb_high := count_where (level_is "high") data;
          eb_medium := count_where (level_is "medium") data;
          eb_low := count_where (level_is "low") data;
          eb_none := count_where (level_is "none") data |}
  /\ (exists investments revenues cogs affected,
        mapM_result (get_float "investment_usd") data = Ok investments
        /\ mapM_result (get_float "revenue_usd") data = Ok revenues
        /\ mapM_result (get_float "cogs_usd") data = Ok cogs
        /\ mapM_result affected_cogs_of data = Ok affected
        /\ po_total_investment_usd (overview e) = py_sum investments
        /\ po_total_revenue_usd (overview e) = py_sum revenues
        /\ po_total_cogs_usd (overview e) = py_sum cogs
        /\ po_total_affected_cogs_usd (overview e) = py_sum affected)
  /\ overall_exposure_pct (overview e)
     = ratio_or_zero (po_total_affected_cogs_usd (overview e))
         (po_total_cogs_usd (overview e))
  /\ forall x, In x (sector_exposure_ranking e) ->
       exists affected total_cogs, snd x = ratio_or_zero affected total_cogs.
Proof.
  unfold summary_on. intros H.
  bind_inv H as investments Ei. bind_inv H as revenues Er.
  bind_inv H as cogs Ec. bind_inv H as affected Ea.
  bind_inv H as high Eh. bind_inv H as medium Em.
  bind_inv H as low El. bind_inv H as none En.
  apply count_level_returns in Eh, Em, El, En. subst.
  bind_inv H as sectors Es.
  rewrite (mapM_result_ok _
             (fun e : value * (float * float) =>
                (fst e, ratio_or_zero (snd (snd e)) (fst (snd e))))) in H
    by (intros x _; rewrite guarded_ratio_ok; reflexivity).
  cbn [bind] in H. rewrite (sorted_ok _ snd) in H by reflexivity. cbn [bind] in H.
  bind_inv H as top Et. rewrite guarded_ratio_ok in H. cbn [bind] in H. injection H as <-.
  cbn [overview exposure_level_breakdown sector_exposure_ranking total_companies
       po_total_investment_usd po_total_revenue_usd po_total_cogs_usd
       po_total_affected_cogs_usd overall_exposure_pct].
  split; [reflexivity|]. split; [reflexivity|]. split.
  { do 4 eexists. repeat (split; [reflexivity|]). reflexivity. }
  split; [reflexivity|]. apply ranking_of_ratio.
Qed.

(** C8. The four bucket counts of the portfolio summary are the numbers of
    records whose exposure level is, up to case, high, medium, low and none;
    together they count the records with a recognized level and so add up
    to at most [total_companies], which counts every record.  The financial
    totals are sums over every record of the dataset, recognized or not.
    This holds of every summary the tool returns, and it returns one for
    every dataset of company records. *)
Theorem exposure_breakdown_bounded (w : world) (data : list row) :
  fst (load_portfolio_data w) = Ok data ->
  (forall e,
     fst (get_exposure_summary w) = Ok e ->
     let b := exposure_level_breakdown e in
     eb_high b = count_where (level_is "high") data
     /\ eb_medium b = count_where (level_is "medium") data
     /\ eb_low b = count_where (level_is "low") data
     /\ eb_none b = count_where (level_is "none") data
     /\ (eb_high b + eb_medium b + eb_low b + eb_none b)%nat = count_where recognized data
     /\ (eb_high b + eb_medium b + eb_low b + eb_none b <= total_companies (overview e))%nat
     /\ total_companies (overview e) = length data
     /\ exists investments revenues cogs affected,
          mapM_result (get_float "investment_usd") data = Ok investments
          /\ mapM_result (get_float "revenue_usd") data = Ok revenues
          /\ mapM_result (get_float "cogs_usd") data = Ok cogs
          /\ mapM_result affected_cogs_of data = Ok affected
          /\ po_total_investment_usd (overview e) = py_sum investments
          /\ po_total_revenue_usd (overview e) = py_sum revenues
          /\ po_total_cogs_usd (overview e) = py_sum cogs
          /\ po_total_affected_cogs_usd (overview e) = py_sum affected)
  /\ (forallb company_record data = true ->
      exists e,
        fst (get_exposure_summary w) = Ok e
        /\ po_total_investment_usd (overview e)
           = py_sum (map (num_field "investment_usd") data)
        /\ po_total_revenue_usd (overview e) = py_sum (map (num_field "revenue_usd") data)
        /\ po_total_cogs_usd (overview e) = py_sum (map (num_field "cogs_usd") data)
        /\ po_total_affected_cogs_usd (overview e) = py_sum (map affected_cogs data)).
Proof.
  intros Hl. rewrite (summary_result w data Hl). split.
  - intros e He. cbn zeta.
    destruct (summary_on_returns data e He) as (Hn & Hb & Hsums & _).
    rewrite Hb, Hn. cbn [eb_high eb_medium eb_low eb_none].
    rewrite buckets_partition.
    repeat (split; [reflexivity|]).
    split; [apply count_where_le|]. split; [reflexivity|exact Hsums].
  - intros Ht.
    destruct (summary_on_records data (records_forallb _ Ht)) as [sectors ->].
    eexists. split; [reflexivity|]. repeat split; reflexivity.
Qed.


(** ** load_portfolio_data: the coercion of the numeric fields *)

Lemma py_float_cases (v : value) :
  py_float v = Ok (float_or_zero v)
  \/ py_float v = Raise ValueError \/ py_float v = Raise TypeError.
Proof.
  unfold float_or_zero. destruct v as [|b|f|s]; cbn [py_float]; auto.
  destruct (float_of_string s); auto.
Qed.

Lemma convert_numeric_lookup (r : row) (field : string) :
  exists r',
    convert_numeric r field = Ok r'
    /\ forall k, r' !! k = if decide (k = field) then convert_value <$> r !! k else r !! k.
Proof.
  unfold convert_numeric, convert_value.
  destruct (r !! field) as [v|] eqn:E.
  - destruct (truthy v) eqn:T.
    + assert (H : match py_float v with
                  | Ok f => Ok (<[field:=VFloat f]> r)
                  | Raise ValueError | Raise TypeError => Ok (<[field:=VFloat zero]> r)
                  | Raise e => Raise e
                  end = Ok (<[field:=VFloat (float_or_zero v)]> r)).
      { unfold float_or_zero.
        destruct (py_float_cases v) as [H|[H|H]]; rewrite H; reflexivity. }
      rewrite H. eexists. split; [reflexivity|].
      intros k. destruct (decide (k = field)) as [->|Hk].
      * rewrite lookup_insert_eq, E. cbn. rewrite T. reflexivity.
      * rewrite lookup_insert_ne by congruence. reflexivity.
    + exists r. split; [reflexivity|].
      intros k. destruct (decide (k = field)) as [->|Hk]; [|reflexivity].
      rewrite E. cbn. rewrite T. reflexivity.
  - exists r. split; [reflexivity|].
    intros k. destruct (decide (k = field)) as [->|Hk]; [|reflexivity].
    rewrite E. reflexivity.
Qed.

Lemma convert_numerics_lookup (fields : list string) :
  NoDup fields ->
  forall r, exists r',
    convert_numerics fields r = Ok r'
    /\ forall k, r' !! k
                 = if bool_decide (k ∈ fields) then convert_value <$> r !! k else r !! k.
Proof.
  induction fields as [|f fields IH]; intros Hnd r.
  - exists r. split; [reflexivity|]. intros k. reflexivity.
  - apply NoDup_cons in Hnd as [Hf Hnd]. cbn [convert_numerics].
    destruct (convert_numeric_lookup r f) as (r1 & -> & H1). cbn [bind].
    destruct (IH Hnd r1) as (r' & -> & H'). exists r'. split; [reflexivity|].
    intros k. rewrite H', H1.
    destruct (decide (k = f)) as [->|Hk].
    + rewrite (bool_decide_eq_false_2 _ Hf).
      rewrite bool_decide_eq_true_2 by (left). reflexivity.
    + destruct (bool_decide (k ∈ fields)) eqn:B.
      * apply bool_decide_eq_true in B.
        rewrite bool_decide_eq_true_2 by (right; exact B). reflexivity.
      * apply bool_decide_eq_false in B.
        rewrite bool_decide_eq_false_2; [reflexivity|].
        intros [->|H]%elem_of_cons; contradiction.
Qed.

Lemma numeric_fields_NoDup : NoDup numeric_fields.
Proof. apply (bool_decide_unpack _). reflexivity. Qed.

(** C2, as the code has it.  The coercion of the numeric fields never
    raises, whatever the cells hold.  A numeric field whose cell is a
    non-empty text holds a float afterwards: the number the text denotes
    (any float [float] reads, the infinities and NaN included) or 0.0 when
    the text denotes none.  An empty cell stays the empty text, a missing
    cell stays [None], an absent field stays absent, and no other field
    changes.  The record is then loaded unless [imports_into_us] holds a
    value that is not text. *)
Theorem numeric_coercion (r : row) :
  exists r',
    convert_numerics numeric_fields r = Ok r'
    /\ (forall k s, In k numeric_fields -> r !! k = Some (VStr s) ->
         r' !! k = Some (if nonempty s
                         then VFloat (match float_of_string s with
                                      | Some f => f
                                      | None => zero
                                      end)
                         else VStr s))
    /\ (forall k, In k numeric_fields -> r !! k = Some VNone -> r' !! k = Some VNone)
    /\ (forall k, r !! k = None -> r' !! k = None)
    /\ (forall k, ~ In k numeric_fields -> r' !! k = r !! k)
    /\ load_row r = convert_boolean r'
    /\ (holds_string (r !! "imports_into_us") = true -> is_ok (load_row r) = true).
Proof.
  destruct (convert_numerics_lookup numeric_fields numeric_fields_NoDup r)
    as (r' & Hr & Hk).
  exists r'. split; [exact Hr|].
  split; [|split; [|split; [|split; [|split]]]].
  - intros k s Hin E. rewrite Hk, E.
    rewrite bool_decide_eq_true_2 by (apply list_elem_of_In, Hin).
    cbn. unfold convert_value, float_or_zero. cbn [truthy py_float].
    destruct (nonempty s); [|reflexivity].
    destruct (float_of_string s); reflexivity.
  - intros k Hin E. rewrite Hk, E.
    rewrite bool_decide_eq_true_2 by (apply list_elem_of_In, Hin). reflexivity.
  - intros k E. rewrite Hk, E. destruct (bool_decide _); reflexivity.
  - intros k Hin. rewrite Hk.
    rewrite bool_decide_eq_false_2; [reflexivity|].
    intros H. apply Hin, list_elem_of_In, H.
  - unfold load_row. rewrite Hr. reflexivity.
  - intros Hs. unfold load_row. rewrite Hr. cbn [bind]. unfold convert_boolean.
    rewrite Hk. rewrite bool_decide_eq_false_2
      by (intros H; apply list_elem_of_In in H; cbn in H; intuition discriminate).
    destruct (r !! "imports_into_us") as [[]|]; cbn in Hs; try discriminate; reflexivity.
Qed.

(** ** load_portfolio_data: from rows to company records *)

Lemma string_field_not_numeric (k : string) :
  In k string_fields -> bool_decide (k ∈ numeric_fields) = false /\ k <> "imports_into_us".
Proof.
  intros H. cbn in H.
  repeat (destruct H as [<-|H]; [split; [reflexivity|discriminate]|]). contradiction.
Qed.

Lemma numeric_field_is_numeric (k : string) :
  In k numeric_fields -> bool_decide (k ∈ numeric_fields) = true /\ k <> "imports_into_us".
Proof.
  intros H. cbn in H.
  repeat (destruct H as [<-|H]; [split; [reflexivity|discriminate]|]). contradiction.
Qed.

Lemma loadable_cell_converted (o : option value) :
  loadable_cell o = true -> holds_decimal (convert_value <$> o) = true.
Proof.
  destruct o as [[| | |s]|]; cbn; try discriminate; [|reflexivity].
  intros H. apply andb_prop in H as [Hs Hf].
  unfold convert_value, float_or_zero. cbn [truthy py_float]. rewrite Hs.
  destruct (float_of_string s); [exact Hf|reflexivity].
Qed.

(** A loadable row is loaded, and what is cached for it is a company
    record. *)
Lemma load_row_record (r : row) :
  loadable_row r = true ->
  exists c, load_row r = Ok c /\ company_record c = true.
Proof.
  intros H. unfold loadable_row in H.
  apply andb_prop in H as [H Hi]. apply andb_prop in H as [Hs Hn].
  destruct (convert_numerics_lookup numeric_fields numeric_fields_NoDup r)
    as (r' & Hr & Hk).
  assert (Hc : exists c, convert_boolean r' = Ok c
                 /\ (forall k, k <> "imports_into_us" -> c !! k = r' !! k)
                 /\ holds_flag (c !! "imports_into_us") = true).
  { unfold convert_boolean. rewrite (Hk "imports_into_us").
    rewrite bool_decide_eq_false_2
      by (intros E; apply list_elem_of_In in E; cbn in E; intuition discriminate).
    destruct (r !! "imports_into_us") as [[| | |s]|] eqn:E; cbn in Hi; try discriminate.
    - eexists. split; [reflexivity|]. split.
      + intros k Hne. rewrite lookup_insert_ne by congruence. reflexivity.
      + rewrite lookup_insert_eq. reflexivity.
    - exists r'. split; [reflexivity|]. split; [reflexivity|].
      rewrite (Hk "imports_into_us").
      rewrite bool_decide_eq_false_2
        by (intros E'; apply list_elem_of_In in E'; cbn in E'; intuition discriminate).
      rewrite E. reflexivity. }
  destruct Hc as (c & Hc & Hother & Hflag).
  exists c. split; [unfold load_row; rewrite Hr; exact Hc|].
  unfold company_record. rewrite Hflag, andb_true_r.
  apply andb_true_intro. split; apply forallb_forall; intros k Hin.
  - destruct (string_field_not_numeric k Hin) as [Hnum Hne].
    rewrite (Hother k Hne), Hk, Hnum.
    exact (proj1 (forallb_forall _ _) Hs k Hin).
  - destruct (numeric_field_is_numeric k Hin) as [Hnum Hne].
    rewrite (Hother k Hne), Hk, Hnum.
    apply loadable_cell_converted.
    exact (proj1 (forallb_forall _ _) Hn k Hin).
Qed.

(** A file of loadable rows gives a cache of company records, one per row. *)
Lemma load_establishes_records (rows : list row) :
  forallb loadable_row rows = true ->
  exists data,
    load_portfolio_data {| portfolio_cache := []; csv_rows := Some rows |}
    = (Ok data, {| portfolio_cache := data; csv_rows := Some rows |})
    /\ length data = length rows
    /\ forallb company_record data = true.
Proof.
  intros H.
  assert (Hm : exists data, mapM_result load_row rows = Ok data
                 /\ length data = length rows /\ forallb company_record data = true).
  { induction rows as [|r rows IH]; [exists []; auto|].
    cbn [forallb] in H. apply andb_prop in H as [Hr Hrows].
    destruct (load_row_record r Hr) as (c & Hc & Hrec).
    destruct (IH Hrows) as (data & Hd & Hlen & Hall).
    exists (c :: data). cbn [mapM_result]. rewrite Hc. cbn [bind]. rewrite Hd.
    cbn [bind length forallb]. rewrite Hlen, Hrec, Hall. auto. }
  destruct Hm as (data & Hd & Hlen & Hall).
  exists data. unfold load_portfolio_data. cbn [portfolio_cache csv_rows].
  rewrite Hd. auto.
Qed.

(** * Further properties of the loader and the tools *)

(** ** Definitions *)

(** Every criterion of the query is unset: the texts are empty and no bound
    is greater than zero. *)
Definition unfiltered (q : query_args) : bool :=
  negb (nonempty (sector q)) && negb (nonempty (industry q))
  && negb (nonempty (exposure_level q)) && negb (nonempty (imports_filter q))
  && negb (gt0 (min_revenue q)) && negb (gt0 (max_revenue q))
  && negb (gt0 (min_affected_cogs_pct q))
  && negb (nonempty (company_name q)) && negb (nonempty (ticker q)).

(** The sort step runs: [sort_by and sort_by in [...]]. *)
Definition sorts (sort_by : string) : bool :=
  nonempty sort_by && bool_decide (sort_by ∈ sort_fields).

(** Each element is related to the next one. *)
Fixpoint adjacent {A} (R : A -> A -> Prop) (l : list A) : Prop :=
  match l with
  | [] => True
  | x :: l' =>
      match l' with
      | [] => True
      | y :: _ => R x y /\ adjacent R l'
      end
  end.

(** [sum(g(x) for x in l)] on counts. *)
Definition total {A} (g : A -> nat) (l : list A) : nat :=
  fold_right (fun x n => (g x + n)%nat) 0%nat l.

(** ** The cache across calls *)

Lemma load_again (w : world) :
  load_portfolio_data (snd (load_portfolio_data w)) = load_portfolio_data w.
Proof.
  destruct w as [cache csv]. unfold load_portfolio_data at 2 3.
  cbn [portfolio_cache csv_rows].
  destruct cache as [|c cache]; [|reflexivity].
  destruct csv as [rows|]; [|reflexivity].
  destruct (mapM_result load_row rows) as [data|e] eqn:E; cbn [snd].
  - unfold load_portfolio_data. cbn [portfolio_cache csv_rows].
    destruct data as [|c data]; [|reflexivity]. rewrite E. reflexivity.
  - unfold load_portfolio_data. cbn [portfolio_cache csv_rows]. rewrite E. reflexivity.
Qed.

(** Loading twice is loading once: the second call answers from the cache,
    or reads the unchanged file again when the first one cached nothing.
    The file is never written, and the cache changes only from empty to the
    loaded records. *)
Theorem load_idempotent (w : world) :
  load_portfolio_data (snd (load_portfolio_data w)) = load_portfolio_data w
  /\ csv_rows (snd (load_portfolio_data w)) = csv_rows w
  /\ (portfolio_cache (snd (load_portfolio_data w)) = portfolio_cache w
      \/ portfolio_cache w = []
         /\ fst (load_portfolio_data w)
            = Ok (portfolio_cache (snd (load_portfolio_data w)))).
Proof.
  split; [apply load_again|]. split; [apply load_keeps_file|].
  unfold load_portfolio_data.
  destruct (portfolio_cache w) eqn:C; [|left; exact C].
  destruct (csv_rows w) as [rows|]; [|left; exact C].
  destruct (mapM_result load_row rows); [right; split; reflexivity|left; exact C].
Qed.

(** ** query_sp500_portfolio: edge cases *)

Lemma slice_to_In {A} (limit : Z) (l : list A) (x : A) :
  In x (slice_to limit l) -> In x l.
Proof.
  unfold slice_to. destruct (0 <=? limit); intros H;
    apply list_elem_of_In, elem_of_take in H as (i & H & _);
    apply list_elem_of_In, list_elem_of_lookup; eauto.
Qed.

Lemma sort_results_returns_In (sort_by : string) (sort_desc : bool) (l l' : list row) :
  sort_results sort_by sort_desc l = Ok l' -> forall c, In c l' -> In c l.
Proof.
  unfold sort_results.
  destruct (nonempty sort_by && bool_decide (sort_by ∈ sort_fields)).
  - intros H. apply sorted_returns in H. tauto.
  - intros [= <-]. auto.
Qed.

Lemma apply_filters_unfiltered (q : query_args) (data : list row) :
  unfiltered q = true -> apply_filters q data = Ok data.
Proof.
  unfold unfiltered. intros H.
  repeat (apply andb_prop in H as [H ?]).
  repeat match goal with
         | H : negb _ = true |- _ => apply negb_true_iff in H
         end.
  unfold apply_filters, imports_step, filter_step.
  repeat match goal with
         | H : _ = false |- _ => rewrite H; clear H
         end.
  reflexivity.
Qed.

(** With every criterion unset and no sort field, the search returns the
    whole cache cut to [limit], in dataset order, whatever the cached values
    are; [total_matches] is the size of the cache. *)
Theorem unfiltered_query_returns_cache (q : query_args) (w : world) (data : list row) :
  fst (load_portfolio_data w) = Ok data ->
  unfiltered q = true -> sorts (sort_by q) = false ->
  fst (query_sp500_portfolio q w)
  = Ok {| total_matches := length data;
          returned_count := length (slice_to (limit q) data);
          companies := slice_to (limit q) data |}.
Proof.
  intros Hd Hu Hs. rewrite (query_result q w data Hd). unfold query_on.
  rewrite (apply_filters_unfiltered q data Hu). cbn [bind].
  unfold sort_results. unfold sorts in Hs. rewrite Hs. reflexivity.
Qed.

(** A sort field outside the four allowed ones is ignored, and so is
    [sort_desc] then: the call is the call without a sort field. *)
Theorem unknown_sort_field_ignored (q : query_args) (field : string)
    (desc desc' : bool) (w : world) :
  sorts field = false ->
  query_sp500_portfolio (with_limit_and_sort (limit q) field desc q) w
  = query_sp500_portfolio (with_limit_and_sort (limit q) "" desc' q) w.
Proof.
  intros Hs. unfold query_sp500_portfolio.
  destruct (load_portfolio_data w) as [[data|e] w']; [|reflexivity].
  cbn [bind]. f_equal. unfold query_on.
  change (apply_filters (with_limit_and_sort (limit q) field desc q) data)
    with (apply_filters q data).
  change (apply_filters (with_limit_and_sort (limit q) "" desc' q) data)
    with (apply_filters q data).
  destruct (apply_filters q data) as [l|]; [|reflexivity]. cbn [bind].
  cbn [with_limit_and_sort sort_by sort_desc limit].
  unfold sort_results. unfold sorts in Hs. rewrite Hs. reflexivity.
Qed.

(** Whatever the cache holds, every company a search returns is a cached
    record that passes the supplied criteria, and
    [returned_count <= total_matches <= len(cache)]. *)
Theorem returned_companies_match (q : query_args) (w : world) (data : list row)
    (r : query_response) :
  fst (load_portfolio_data w) = Ok data ->
  fst (query_sp500_portfolio q w) = Ok r ->
  (forall c, In c (companies r) -> In c data /\ accepts q c = true)
  /\ (returned_count r <= total_matches r)%nat
  /\ (total_matches r <= length data)%nat.
Proof.
  intros Hd Hr. rewrite (query_result q w data Hd) in Hr.
  destruct (query_on_returns q data r Hr) as (Ht & Hc & Hl).
  unfold query_on in Hr.
  destruct (apply_filters q data) as [l|] eqn:El; [cbn [bind] in Hr|discriminate].
  destruct (sort_results (sort_by q) (sort_desc q) l) as [l'|] eqn:Es;
    [cbn [bind] in Hr|discriminate].
  injection Hr as <-. cbn [companies returned_count total_matches] in *.
  apply apply_filters_returns in El. split; [|split].
  - intros c Hc'. apply slice_to_In in Hc'.
    apply (sort_results_returns_In _ _ _ _ Es) in Hc'. subst l.
    apply filter_In in Hc'. exact Hc'.
  - rewrite Hl. destruct (0 <=? limit q); lia.
  - subst l. pose proof (count_where_le (accepts q) data) as H.
    unfold count_where in H. exact H.
Qed.

(** ** Order of floats *)

Lemma SFcompare_antisym (a b : spec_float) :
  SFcompare b a = option_map CompOpp (SFcompare a b).
Proof.
  destruct a as [sa|sa| |sa ma ea], b as [sb|sb| |sb mb eb]; cbn;
    try reflexivity;
    try (destruct sa; reflexivity); try (destruct sb; reflexivity);
    try (destruct sa, sb; reflexivity).
  destruct sa, sb; cbn; try reflexivity.
  - rewrite (Z.compare_antisym ea eb).
    destruct (ea ?= eb); cbn; try reflexivity.
    change (Pos.compare_cont Eq mb ma) with (Pos.compare_cont (CompOpp Eq) mb ma).
    rewrite <- (Pos.compare_cont_antisym ma mb Eq).
    destruct (Pos.compare_cont Eq ma mb); reflexivity.
  - rewrite (Z.compare_antisym ea eb).
    destruct (ea ?= eb); cbn; try reflexivity.
    change (Pos.compare_cont Eq mb ma) with (Pos.compare_cont (CompOpp Eq) mb ma).
    rewrite <- (Pos.compare_cont_antisym ma mb Eq).
    destruct (Pos.compare_cont Eq ma mb); reflexivity.
Qed.

Lemma ltb_asym (x y : float) : PrimFloat.ltb x y = true -> PrimFloat.ltb y x = false.
Proof.
  rewrite !FloatAxioms.ltb_spec. unfold SFltb.
  rewrite (SFcompare_antisym (Prim2SF x) (Prim2SF y)).
  destruct (SFcompare (Prim2SF x) (Prim2SF y)) as [[]|]; cbn; congruence.
Qed.

Lemma compare_defined (x y : float) :
  is_nan x = false -> is_nan y = false ->
  exists c, SFcompare (Prim2SF x) (Prim2SF y) = Some c.
Proof.
  unfold is_nan. rewrite !FloatAxioms.eqb_spec. intros Hx Hy.
  destruct (Prim2SF x) as [s|s| |s m e]; [| |discriminate Hx|];
    (destruct (Prim2SF y) as [s'|s'| |s' m' e']; [| |discriminate Hy|]);
    cbn; eauto; try (destruct s; eauto); try (destruct s'; eauto).
Qed.

Lemma finite_not_nan (x : float) : is_finite x = true -> is_nan x = false.
Proof.
  unfold is_finite. intros H. apply negb_true_iff, orb_false_elim in H. tauto.
Qed.

(** Where neither float is NaN, not less is greater or equal. *)
Lemma not_ltb_leb (x y : float) :
  is_nan x = false -> is_nan y = false ->
  PrimFloat.ltb x y = false -> PrimFloat.leb y x = true.
Proof.
  intros Hx Hy. rewrite FloatAxioms.ltb_spec, FloatAxioms.leb_spec. unfold SFltb, SFleb.
  rewrite (SFcompare_antisym (Prim2SF x) (Prim2SF y)).
  destruct (compare_defined x y Hx Hy) as [c ->]. destruct c; cbn; congruence.
Qed.

(** ** The result of [sorted] is in order and a rearrangement *)

Lemma goes_before_flip {A} (reverse : bool) (x y : float * A) :
  goes_before reverse x y = false -> goes_before reverse y x = true.
Proof.
  unfold goes_before. destruct reverse; intros H; apply negb_false_iff in H;
    apply ltb_asym in H; rewrite H; reflexivity.
Qed.

Lemma adjacent_cons {A} (R : A -> A -> Prop) (x : A) (l : list A) :
  adjacent R (x :: l) <-> match l with [] => True | y :: _ => R x y end /\ adjacent R l.
Proof. destruct l; cbn; tauto. Qed.

Lemma insert_sorted_head {A} (reverse : bool) (x : float * A) (l : list (float * A)) :
  exists l', insert_sorted reverse x l = x :: l'
             \/ exists y l0, l = y :: l0 /\ insert_sorted reverse x l = y :: l'.
Proof.
  destruct l as [|y l]; cbn [insert_sorted]; [eauto|].
  destruct (goes_before reverse x y); eauto 8.
Qed.

Lemma insert_sorted_adjacent {A} (reverse : bool) (x : float * A) (l : list (float * A)) :
  adjacent (fun a b => goes_before reverse a b = true) l ->
  adjacent (fun a b => goes_before reverse a b = true) (insert_sorted reverse x l).
Proof.
  induction l as [|y l IH]; [intros _; exact I|].
  intros H. apply adjacent_cons in H as [Hy Hl]. cbn [insert_sorted].
  destruct (goes_before reverse x y) eqn:G.
  - apply adjacent_cons. split; [exact G|]. apply adjacent_cons. split; assumption.
  - apply adjacent_cons. split; [|exact (IH Hl)].
    destruct (insert_sorted_head reverse x l) as (l' & [E|(z & l0 & -> & E)]); rewrite E.
    + exact (goes_before_flip _ _ _ G).
    + exact Hy.
Qed.

Lemma sort_keyed_adjacent {A} (reverse : bool) (l : list (float * A)) :
  adjacent (fun a b => goes_before reverse a b = true) (sort_keyed reverse l).
Proof.
  induction l as [|x l IH]; [exact I|].
  cbn [sort_keyed foldr]. apply insert_sorted_adjacent. exact IH.
Qed.

Lemma insert_sorted_Permutation {A} (reverse : bool) (x : float * A)
    (l : list (float * A)) :
  Permutation (insert_sorted reverse x l) (x :: l).
Proof.
  induction l as [|y l IH]; [reflexivity|]. cbn [insert_sorted].
  destruct (goes_before reverse x y); [reflexivity|].
  rewrite IH. apply perm_swap.
Qed.

Lemma sort_keyed_Permutation {A} (reverse : bool) (l : list (float * A)) :
  Permutation (sort_keyed reverse l) l.
Proof.
  induction l as [|x l IH]; [reflexivity|].
  cbn [sort_keyed foldr]. rewrite insert_sorted_Permutation.
  apply perm_skip. exact IH.
Qed.

Lemma adjacent_map_In {A B} (R : A -> A -> Prop) (R' : B -> B -> Prop) (f : A -> B)
    (l : list A) :
  (forall x y, In x l -> In y l -> R x y -> R' (f x) (f y)) ->
  adjacent R l -> adjacent R' (map f l).
Proof.
  induction l as [|x l IH]; intros HR H; [exact I|].
  apply adjacent_cons in H as [Hx Hl]. cbn [map]. apply adjacent_cons. split.
  - destruct l as [|y l]; [exact I|]. cbn [map].
    apply HR; [left; reflexivity|right; left; reflexivity|exact Hx].
  - apply IH; [|exact Hl]. intros a b Ha Hb. apply HR; right; assumption.
Qed.

Lemma adjacent_take {A} (R : A -> A -> Prop) (n : nat) (l : list A) :
  adjacent R l -> adjacent R (take n l).
Proof.
  revert l. induction n as [|n IH]; intros l H; [destruct l; exact I|].
  destruct l as [|x l]; [exact I|].
  apply adjacent_cons in H as [Hx Hl]. cbn [take]. apply adjacent_cons. split.
  - destruct l as [|y l]; [destruct n; exact I|]. destruct n; [exact I|exact Hx].
  - exact (IH l Hl).
Qed.

Lemma adjacent_slice_to {A} (R : A -> A -> Prop) (limit : Z) (l : list A) :
  adjacent R l -> adjacent R (slice_to limit l).
Proof. unfold slice_to. destruct (0 <=? limit); apply adjacent_take. Qed.

(** The order [sorted] leaves between neighbours, on the keys: with
    [reverse] no element is followed by one with a greater key, without it
    none is followed by one with a smaller key. *)
Definition in_order (reverse : bool) (a b : float) : Prop :=
  if reverse then PrimFloat.ltb a b = false else PrimFloat.ltb b a = false.

Lemma sorted_ok_in_order {A} (k : A -> float) (reverse : bool) (l : list A) :
  adjacent (fun a b => in_order reverse (k a) (k b))
    (map snd (sort_keyed reverse (map (fun c => (k c, c)) l)))
  /\ Permutation (map snd (sort_keyed reverse (map (fun c => (k c, c)) l))) l.
Proof.
  split.
  - apply (adjacent_map_In (fun a b => goes_before reverse a b = true)); 
      [|apply sort_keyed_adjacent].
    intros x y Hx Hy. apply sort_keyed_In, in_map_iff in Hx as (cx & <- & _).
    apply sort_keyed_In, in_map_iff in Hy as (cy & <- & _).
    unfold goes_before, in_order. cbn [fst snd].
    destruct reverse; intros H; apply negb_true_iff in H; exact H.
  - rewrite sort_keyed_Permutation, map_map. cbn [snd]. rewrite map_id. reflexivity.
Qed.

Lemma in_order_defined (reverse : bool) (a b : float) :
  is_nan a = false -> is_nan b = false -> in_order reverse a b ->
  if reverse then PrimFloat.leb b a = true else PrimFloat.leb a b = true.
Proof.
  unfold in_order. destruct reverse; intros Ha Hb H; apply not_ltb_leb; assumption.
Qed.

(** Two neighbours of a list ranked by the field [k]: descending with
    [reverse], ascending without. *)
Definition ordered_by (k : string) (reverse : bool) (c1 c2 : row) : Prop :=
  if reverse then PrimFloat.leb (num_field k c2) (num_field k c1) = true
  else PrimFloat.leb (num_field k c1) (num_field k c2) = true.

Lemma adjacent_impl_In {A} (R R' : A -> A -> Prop) (l : list A) :
  (forall x y, In x l -> In y l -> R x y -> R' x y) ->
  adjacent R l -> adjacent R' l.
Proof.
  intros H Ha. rewrite <- (map_id l) at 1.
  apply (adjacent_map_In R R' (fun x => x)); assumption.
Qed.

Lemma ranked_records (k : string) (reverse : bool) (l : list row) :
  records l -> In k numeric_fields ->
  Permutation (map snd (sort_keyed reverse (map (fun c => (num_field k c, c)) l))) l
  /\ adjacent (ordered_by k reverse)
       (map snd (sort_keyed reverse (map (fun c => (num_field k c, c)) l))).
Proof.
  intros Hl Hk.
  destruct (sorted_ok_in_order (num_field k) reverse l) as [Ha Hp].
  split; [exact Hp|].
  apply (adjacent_impl_In _ _ _ (fun c1 c2 H1 H2 H => 
           in_order_defined reverse (num_field k c1) (num_field k c2)
             (finite_not_nan _ (record_finite k c1 (Hl c1 (Permutation_in _ Hp H1)) Hk))
             (finite_not_nan _ (record_finite k c2 (Hl c2 (Permutation_in _ Hp H2)) Hk))
             H)).
  exact Ha.
Qed.

(** When the search sorts, over company records, [companies] is a
    rearrangement of the matching records, cut to [limit], in which the sort
    field never increases from a company to the next (descending), or never
    decreases (ascending). *)
Theorem sorted_query_in_order (q : query_args) (w : world) (data : list row) :
  fst (load_portfolio_data w) = Ok data ->
  forallb company_record data = true ->
  sorts (sort_by q) = true ->
  exists results,
    Permutation results (List.filter (satisfies q) data)
    /\ adjacent (ordered_by (sort_by q) (sort_desc q)) results
    /\ fst (query_sp500_portfolio q w)
       = Ok {| total_matches := length (List.filter (satisfies q) data);
               returned_count := length (slice_to (limit q) results);
               companies := slice_to (limit q) results |}
    /\ adjacent (ordered_by (sort_by q) (sort_desc q)) (slice_to (limit q) results).
Proof.
  intros Hd Ht Hs. apply records_forallb in Ht.
  rewrite (query_result q w data Hd). unfold query_on.
  rewrite (apply_filters_records q data Ht). cbn [bind].
  assert (Hf : records (List.filter (satisfies q) data)) by apply records_filter, Ht.
  set (l := List.filter (satisfies q) data) in *.
  unfold sort_results. unfold sorts in Hs. rewrite Hs.
  apply andb_prop in Hs as [_ Hin]. apply bool_decide_eq_true in Hin.
  apply list_elem_of_In, sort_fields_numeric in Hin.
  rewrite (sorted_ok _ (num_field (sort_by q)))
    by (intros c Hc; apply record_get_float; [apply Hf, Hc|exact Hin]).
  cbn [bind].
  destruct (ranked_records (sort_by q) (sort_desc q) l Hf Hin) as [Hp Ha].
  eexists. split; [exact Hp|]. split; [exact Ha|]. split; [reflexivity|].
  apply adjacent_slice_to, Ha.
Qed.

(** ** The two grouping loops, by sector

    Over company records both loops of the aggregations are a fold of
    [upsert]: a sector's entry holds what the loop's step accumulates over
    the records of that sector, in dataset order, and the sectors are in
    order of first appearance. *)

Definition in_sector (k : value) (c : row) : bool := key_eqb k (sector_key c).

(** What one turn of the loop of [get_sector_analysis] does to the entry of
    the company's sector, on typed fields. *)
Definition sector_step (d : sector_data) (c : row) : sector_data :=
  {| sd_companies := sd_companies d ++ [c];
     sd_total_investment := PrimFloat.add (sd_total_investment d) (num_field "investment_usd" c);
     sd_total_revenue := PrimFloat.add (sd_total_revenue d) (num_field "revenue_usd" c);
     sd_total_cogs := PrimFloat.add (sd_total_cogs d) (num_field "cogs_usd" c);
     sd_total_affected_cogs := PrimFloat.add (sd_total_affected_cogs d) (affected_cogs c);
     sd_importers_count :=
       if imports c then S (sd_importers_count d) else sd_importers_count d |}.

(** The same for the loop of [get_exposure_summary]. *)
Definition exposure_step (d : float * float) (c : row) : float * float :=
  (PrimFloat.add (fst d) (num_field "cogs_usd" c), PrimFloat.add (snd d) (affected_cogs c)).

(** The keys of a dict the loop has filled, in insertion order. *)
Definition first_keys (keys : list value) (data : list row) : list value :=
  fold_left
    (fun keys c =>
       if existsb (fun k => key_eqb k (sector_key c)) keys then keys
       else (keys ++ [sector_key c])%list)
    data keys.

Definition grouped {V} (step : V -> row -> V) (init : V) (keys : list value)
    (data : list row) : list (value * V) :=
  map (fun k => (k, fold_left step (List.filter (in_sector k) data) init)) keys.

(** A sum as the loops accumulate it: from 0, in dataset order. *)
Definition running_total (f : row -> float) (l : list row) : float :=
  fold_left (fun a c => PrimFloat.add a (f c)) l zero.

(** The records a sector analysis works on. *)
Definition selected (sector : string) (data : list row) : list row :=
  List.filter
    (fun c => implb (nonempty sector)
                (String.eqb (lower (str_field "sector" c)) (lower sector)))
    data.

Lemma key_eqb_text_r (k : value) (s : string) : key_eqb k (VStr s) = true -> k = VStr s.
Proof.
  destruct k as [| | |t]; cbn; try discriminate.
  intros H. apply String.eqb_eq in H. congruence.
Qed.

Lemma key_eqb_text_l (k : value) (s : string) : key_eqb (VStr s) k = true -> k = VStr s.
Proof.
  destruct k as [| | |t]; cbn; try discriminate.
  intros H. apply String.eqb_eq in H. congruence.
Qed.

Lemma key_eqb_text_refl (s : string) : key_eqb (VStr s) (VStr s) = true.
Proof. cbn. apply String.eqb_refl. Qed.

Lemma record_sector_key (c : row) :
  company_record c = true -> exists s, sector_key c = VStr s.
Proof.
  intros H. unfold sector_key.
  destruct (record_string "sector" c H) as [->|[s ->]]; [in_fields| |]; cbn; eauto.
Qed.

Lemma existsb_key (k0 : value) (keys : list value) :
  existsb (fun k => key_eqb k k0) keys = true <-> exists k, In k keys /\ key_eqb k k0 = true.
Proof. apply existsb_exists. Qed.

Lemma upsert_grouped {V} (k0 : value) (init : V) (f : V -> V) (F F' : value -> V)
    (keys : list value) :
  List.NoDup keys ->
  (forall k, In k keys -> key_eqb k k0 = true -> k = k0) ->
  (forall k, In k keys -> key_eqb k k0 = true -> F' k = f (F k)) ->
  (forall k, In k keys -> key_eqb k k0 = false -> F' k = F k) ->
  (existsb (fun k => key_eqb k k0) keys = false -> F' k0 = f init) ->
  upsert k0 init f (map (fun k => (k, F k)) keys)
  = map (fun k => (k, F' k))
      (if existsb (fun k => key_eqb k k0) keys then keys else (keys ++ [k0])%list).
Proof.
  induction keys as [|k keys IH]; intros Hnd Heq Hyes Hno Hnew.
  - cbn. rewrite Hnew by reflexivity. reflexivity.
  - cbn [map upsert existsb]. inversion Hnd as [|? ? Hk Hnd']; subst.
    destruct (key_eqb k k0) eqn:E; cbn [orb].
    + cbn [map]. rewrite (Hyes k) by (assumption || (left; reflexivity)).
      f_equal. apply map_ext_in. intros k' Hk'. f_equal. symmetry.
      apply Hno; [right; exact Hk'|].
      destruct (key_eqb k' k0) eqn:E'; [|reflexivity].
      exfalso. apply Hk.
      rewrite (Heq k) by (assumption || (left; reflexivity)).
      rewrite <- (Heq k') by (assumption || (right; exact Hk')). exact Hk'.
    + rewrite IH; try assumption.
      * rewrite <- (Hno k) by (assumption || (left; reflexivity)).
        destruct (existsb _ keys); reflexivity.
      * intros k' Hk'. apply Heq. right. exact Hk'.
      * intros k' Hk'. apply Hyes. right. exact Hk'.
      * intros k' Hk'. apply Hno. right. exact Hk'.
      * intros H. apply Hnew. cbn [existsb]. rewrite E, H. reflexivity.
Qed.

Lemma filter_none {A} (p : A -> bool) (l : list A) :
  (forall x, In x l -> p x = false) -> List.filter p l = [].
Proof.
  induction l as [|x l IH]; intros H; [reflexivity|].
  cbn [List.filter]. rewrite (H x) by (left; reflexivity).
  apply IH. intros y Hy. apply H. right. exact Hy.
Qed.

Lemma NoDup_snoc {A} (l : list A) (x : A) :
  List.NoDup l -> ~ In x l -> List.NoDup (l ++ [x]).
Proof.
  induction l as [|y l IH]; intros Hn Hx; cbn [app].
  - constructor; [intros []|constructor].
  - inversion Hn as [|? ? Hy Hn']; subst. constructor.
    + intros Hin. apply in_app_iff in Hin as [Hin|[->|[]]]; [contradiction|].
      apply Hx. left. reflexivity.
    + apply IH; [exact Hn'|]. intros H. apply Hx. right. exact H.
Qed.

Lemma fold_grouped {V} (step : V -> row -> V) (init : V) (data : list row) :
  (forall c, In c data -> exists s, sector_key c = VStr s) ->
  forall (pre : list row) (keys : list value),
    List.NoDup keys ->
    (forall c, In c pre -> In (sector_key c) keys) ->
    (forall k, In k keys -> exists c, In c pre /\ sector_key c = k) ->
    fold_left (fun acc c => upsert (sector_key c) init (fun d => step d c) acc) data
      (grouped step init keys pre)
    = grouped step init (first_keys keys data) (pre ++ data)
    /\ List.NoDup (first_keys keys data)
    /\ (forall c, In c (pre ++ data) -> In (sector_key c) (first_keys keys data))
    /\ (forall k, In k (first_keys keys data) ->
          exists c, In c (pre ++ data) /\ sector_key c = k).
Proof.
  induction data as [|c data IH]; intros Ht pre keys Hnd Hcov Hfrom.
  - cbn [fold_left first_keys]. rewrite app_nil_r. auto.
  - cbn [fold_left first_keys].
    destruct (Ht c) as [s Hs]; [left; reflexivity|].
    set (keys1 := if existsb (fun k => key_eqb k (sector_key c)) keys then keys
                  else (keys ++ [sector_key c])%list).
    assert (E : upsert (sector_key c) init (fun d => step d c) (grouped step init keys pre)
                = grouped step init keys1 (pre ++ [c])).
    { unfold grouped. apply upsert_grouped.
      - exact Hnd.
      - intros k _ Hk. rewrite Hs in *. exact (key_eqb_text_r _ _ Hk).
      - intros k _ Hk. rewrite List.filter_app, fold_left_app. cbn [List.filter].
        unfold in_sector. rewrite Hk. reflexivity.
      - intros k _ Hk. rewrite List.filter_app. cbn [List.filter].
        unfold in_sector. rewrite Hk. rewrite app_nil_r. reflexivity.
      - intros Hnone. rewrite List.filter_app. cbn [List.filter].
        replace (in_sector (sector_key c) c) with true
          by (unfold in_sector; rewrite Hs; symmetry; apply key_eqb_text_refl).
        rewrite fold_left_app. cbn [fold_left]. f_equal.
        rewrite filter_none; [reflexivity|].
        intros c' Hc'. unfold in_sector.
        destruct (key_eqb (sector_key c) (sector_key c')) eqn:E; [|reflexivity].
        exfalso. rewrite Hs in E. apply key_eqb_text_l in E.
        assert (Hex : existsb (fun k => key_eqb k (sector_key c)) keys = true).
        { apply existsb_key. exists (sector_key c'). split; [apply Hcov, Hc'|].
          rewrite E, Hs. apply key_eqb_text_refl. }
        congruence. }
    rewrite E.
    destruct (IH (fun c' Hc' => Ht c' (or_intror Hc')) (pre ++ [c])%list keys1) as (R1 & R2 & R3 & R4).
    + unfold keys1. destruct (existsb _ keys) eqn:Ex; [exact Hnd|].
      apply NoDup_snoc; [exact Hnd|].
      intros Hin. assert (Hex : existsb (fun k => key_eqb k (sector_key c)) keys = true).
      { apply existsb_key. exists (sector_key c). split; [exact Hin|].
        rewrite Hs. apply key_eqb_text_refl. }
      congruence.
    + intros c' Hc'. apply in_app_iff in Hc' as [Hc'|[<-|[]]].
      * unfold keys1. destruct (existsb _ keys); [|apply in_app_iff; left]; apply Hcov, Hc'.
      * unfold keys1. destruct (existsb _ keys) eqn:Ex.
        -- apply existsb_key in Ex as (k & Hk & Ek). rewrite Hs in Ek.
           apply key_eqb_text_r in Ek. rewrite Hs, <- Ek. exact Hk.
        -- apply in_app_iff. right. left. reflexivity.
    + intros k Hk. unfold keys1 in Hk.
      assert (Hk' : In k keys \/ k = sector_key c).
      { destruct (existsb _ keys); [left; exact Hk|].
        apply in_app_iff in Hk as [Hk|[<-|[]]]; auto. }
      destruct Hk' as [Hk'| ->].
      * destruct (Hfrom k Hk') as (c' & Hc' & Ec'). exists c'.
        split; [apply in_app_iff; left; exact Hc'|exact Ec'].
      * exists c. split; [apply in_app_iff; right; left; reflexivity|reflexivity].
    + rewrite <- app_assoc in R1, R3, R4. cbn [app] in R1, R3, R4. auto.
Qed.

(** Both loops return on company records, and are that fold. *)
Lemma group_by_sector_fold (data : list row) :
  records data ->
  forall acc,
    group_by_sector acc data
    = Ok (fold_left
            (fun acc c =>
               upsert (sector_key c) empty_sector_data (fun d => sector_step d c) acc)
            data acc).
Proof.
  induction data as [|c data IH]; intros Hd acc; [reflexivity|].
  cbn [group_by_sector fold_left]. unfold add_company.
  rewrite !record_get_float by ((apply Hd; left; reflexivity) || in_fields).
  cbn [bind]. apply IH. intros c' Hc'. apply Hd. right. exact Hc'.
Qed.

Lemma group_exposure_fold (data : list row) :
  records data ->
  forall acc,
    group_exposure acc data
    = Ok (fold_left
            (fun acc c => upsert (sector_key c) (zero, zero) (fun d => exposure_step d c) acc)
            data acc).
Proof.
  induction data as [|c data IH]; intros Hd acc; [reflexivity|].
  cbn [group_exposure fold_left]. unfold add_exposure.
  rewrite !record_get_float by ((apply Hd; left; reflexivity) || in_fields).
  cbn [bind]. apply IH. intros c' Hc'. apply Hd. right. exact Hc'.
Qed.

Lemma records_sector_keys (data : list row) :
  records data -> forall c, In c data -> exists s, sector_key c = VStr s.
Proof. intros Hd c Hc. apply record_sector_key, Hd, Hc. Qed.

Lemma group_by_sector_grouped (data : list row) :
  records data ->
  group_by_sector [] data
  = Ok (grouped sector_step empty_sector_data (first_keys [] data) data).
Proof.
  intros Hd. rewrite (group_by_sector_fold data Hd).
  destruct (fold_grouped sector_step empty_sector_data data (records_sector_keys data Hd)
              [] []) as [E _]; [constructor|intros c []|intros k []|].
  cbn [grouped map app] in E. rewrite E. reflexivity.
Qed.

Lemma group_exposure_grouped (data : list row) :
  records data ->
  group_exposure [] data
  = Ok (grouped exposure_step (zero, zero) (first_keys [] data) data).
Proof.
  intros Hd. rewrite (group_exposure_fold data Hd).
  destruct (fold_grouped exposure_step (zero, zero) data (records_sector_keys data Hd)
              [] []) as [E _]; [constructor|intros c []|intros k []|].
  cbn [grouped map app] in E. rewrite E. reflexivity.
Qed.

Lemma first_keys_spec (data : list row) :
  records data ->
  List.NoDup (first_keys [] data)
  /\ (forall c, In c data -> In (sector_key c) (first_keys [] data))
  /\ (forall k, In k (first_keys [] data) -> exists c, In c data /\ sector_key c = k).
Proof.
  intros Hd.
  destruct (fold_grouped sector_step empty_sector_data data (records_sector_keys data Hd)
              [] []) as (_ & H); [constructor|intros c []|intros k []|].
  exact H.
Qed.

(** What the step of the sector loop accumulates over a list. *)
Lemma sector_step_fold (l : list row) (d : sector_data) :
  fold_left sector_step l d
  = {| sd_companies := sd_companies d ++ l;
       sd_total_investment :=
         fold_left (fun a c => PrimFloat.add a (num_field "investment_usd" c)) l
           (sd_total_investment d);
       sd_total_revenue :=
         fold_left (fun a c => PrimFloat.add a (num_field "revenue_usd" c)) l
           (sd_total_revenue d);
       sd_total_cogs :=
         fold_left (fun a c => PrimFloat.add a (num_field "cogs_usd" c)) l (sd_total_cogs d);
       sd_total_affected_cogs :=
         fold_left (fun a c => PrimFloat.add a (affected_cogs c)) l (sd_total_affected_cogs d);
       sd_importers_count := (sd_importers_count d + count_where imports l)%nat |}.
Proof.
  revert d. induction l as [|c l IH]; intros d.
  - cbn [fold_left]. unfold count_where. cbn [List.filter length].
    rewrite app_nil_r, Nat.add_0_r. destruct d; reflexivity.
  - cbn [fold_left]. rewrite IH. unfold sector_step at 1 2 3 4 5 6.
    cbn [sd_companies sd_total_investment sd_total_revenue sd_total_cogs
         sd_total_affected_cogs sd_importers_count].
    rewrite <- app_assoc. cbn [app]. f_equal.
    unfold count_where. cbn [List.filter]. destruct (imports c); cbn [length]; lia.
Qed.

Lemma exposure_step_fold (l : list row) (d : float * float) :
  fold_left exposure_step l d
  = (fold_left (fun a c => PrimFloat.add a (num_field "cogs_usd" c)) l (fst d),
     fold_left (fun a c => PrimFloat.add a (affected_cogs c)) l (snd d)).
Proof.
  revert d. induction l as [|c l IH]; intros d; [destruct d; reflexivity|].
  cbn [fold_left]. rewrite IH. reflexivity.
Qed.

(** ** get_sector_analysis over company records *)

Lemma total_ext {A} (f g : A -> nat) (l : list A) :
  (forall x, In x l -> f x = g x) -> total f l = total g l.
Proof.
  induction l as [|x l IH]; intros H; [reflexivity|].
  cbn [total fold_right]. fold (total f l) (total g l).
  rewrite (H x) by (left; reflexivity).
  rewrite IH by (intros y Hy; apply H; right; exact Hy). reflexivity.
Qed.

Lemma total_add {A} (f g : A -> nat) (l : list A) :
  total (fun x => (f x + g x)%nat) l = (total f l + total g l)%nat.
Proof.
  induction l as [|x l IH]; [reflexivity|].
  cbn [total fold_right]. fold (total f l) (total g l) (total (fun x => (f x + g x)%nat) l).
  rewrite IH. lia.
Qed.

Lemma total_map {A B} (f : A -> B) (g : B -> nat) (l : list A) :
  total g (map f l) = total (fun x => g (f x)) l.
Proof.
  induction l as [|x l IH]; [reflexivity|].
  cbn [map total fold_right]. fold (total g (map f l)) (total (fun x => g (f x)) l).
  rewrite IH. reflexivity.
Qed.

Lemma total_Permutation {A} (g : A -> nat) (l l' : list A) :
  Permutation l l' -> total g l = total g l'.
Proof.
  induction 1 as [|x l l' _ IH|x y l|l l' l'' _ IH1 _ IH2]; cbn [total fold_right].
  - reflexivity.
  - fold (total g l) (total g l'). rewrite IH. reflexivity.
  - lia.
  - congruence.
Qed.

(** Among distinct keys, the one of a text sector is counted once. *)
Lemma total_one_key (s : string) (keys : list value) :
  List.NoDup keys -> In (VStr s) keys ->
  total (fun k => if key_eqb k (VStr s) then 1%nat else 0%nat) keys = 1%nat.
Proof.
  induction keys as [|k keys IH]; intros Hnd Hin; [destruct Hin|].
  inversion Hnd as [|? ? Hk Hnd']; subst.
  cbn [total fold_right].
  fold (total (fun k => if key_eqb k (VStr s) then 1%nat else 0%nat) keys).
  destruct (key_eqb k (VStr s)) eqn:E.
  - apply key_eqb_text_r in E. subst k.
    rewrite (total_ext _ (fun _ => 0%nat)).
    + clear. induction keys as [|k keys IH]; [reflexivity|].
      cbn [total fold_right] in *. exact IH.
    + intros k' Hk'. destruct (key_eqb k' (VStr s)) eqn:E'; [|reflexivity].
      apply key_eqb_text_r in E'. subst k'. contradiction.
  - destruct Hin as [->|Hin]; [rewrite key_eqb_text_refl in E; discriminate|].
    rewrite (IH Hnd' Hin). reflexivity.
Qed.

(** Distinct keys that cover the text sectors of a list split it. *)
Lemma grouped_total (keys : list value) (l : list row) :
  List.NoDup keys ->
  (forall c, In c l -> In (sector_key c) keys) ->
  (forall c, In c l -> exists s, sector_key c = VStr s) ->
  total (fun k => length (List.filter (in_sector k) l)) keys = length l.
Proof.
  intros Hnd. induction l as [|c l IH]; intros Hcov Htext.
  - cbn [List.filter length]. clear. induction keys as [|k keys IH]; [reflexivity|].
    cbn [total fold_right] in *. exact IH.
  - rewrite (total_ext _ (fun k => ((if key_eqb k (sector_key c) then 1 else 0)
                                    + length (List.filter (in_sector k) l))%nat)).
    + rewrite total_add, IH.
      * destruct (Htext c) as [s Hs]; [left; reflexivity|].
        rewrite Hs, total_one_key; [reflexivity|exact Hnd|].
        rewrite <- Hs. apply Hcov. left. reflexivity.
      * intros c' Hc'. apply Hcov. right. exact Hc'.
      * intros c' Hc'. apply Htext. right. exact Hc'.
    + intros k _. cbn [List.filter]. unfold in_sector at 1.
      destruct (key_eqb k (sector_key c)); reflexivity.
Qed.

(** The summaries before the final sort: one per sector, in order of first
    appearance. *)
Definition summaries_of (data : list row) : list sector_summary :=
  map summary_of (grouped sector_step empty_sector_data (first_keys [] data) data).

Lemma by_sector_grouped (data : list row) :
  records data ->
  by_sector data
  = Ok (map snd (sort_keyed true
                   (map (fun s => (total_investment_usd s, s)) (summaries_of data)))).
Proof.
  intros Hd. unfold by_sector. rewrite (group_by_sector_grouped data Hd). cbn [bind].
  rewrite (mapM_result_ok _ summary_of).
  - cbn [bind]. rewrite (sorted_ok _ total_investment_usd) by reflexivity. reflexivity.
  - intros e He. apply summarize_records.
    apply in_map_iff in He as (k & <- & _). cbn [snd].
    rewrite sector_step_fold. cbn [sd_companies empty_sector_data app].
    apply records_filter, Hd.
Qed.

Lemma summaries_of_In (data : list row) (s : sector_summary) :
  In s (summaries_of data) ->
  In (ss_sector s) (first_keys [] data)
  /\ s = summary_of (ss_sector s,
                     fold_left sector_step (List.filter (in_sector (ss_sector s)) data)
                       empty_sector_data).
Proof.
  unfold summaries_of, grouped. rewrite map_map. intros H.
  apply in_map_iff in H as (k & <- & Hk). cbn [summary_of ss_sector fst]. auto.
Qed.

Lemma summaries_of_keys (data : list row) :
  map ss_sector (summaries_of data) = first_keys [] data.
Proof.
  unfold summaries_of, grouped. rewrite !map_map. cbn [summary_of ss_sector fst].
  apply map_id.
Qed.

(** The response of the analysis over company records. *)
Lemma sector_on_grouped (sector : string) (data : list row) :
  records data ->
  records (selected sector data)
  /\ sector_on sector data
     = if nonempty sector && bool_decide (selected sector data = [])
       then Ok (sector_not_found ("No companies found in sector '" +:+ sector +:+ "'"))
       else
         let sums :=
           map snd (sort_keyed true
                      (map (fun s => (total_investment_usd s, s))
                         (summaries_of (selected sector data)))) in
         Ok (sector_success (length sums) sums).
Proof.
  intros Hd.
  assert (Hc : records (selected sector data)) by apply records_filter, Hd.
  split; [exact Hc|]. unfold sector_on.
  rewrite (filter_step_records _ _
             (fun c => String.eqb (lower (str_field "sector" c)) (lower sector)))
    by (assumption || (intros; apply lower_is_record; [assumption|in_fields])).
  cbn [bind]. fold (selected sector data).
  destruct (nonempty sector && bool_decide (selected sector data = [])); [reflexivity|].
  rewrite (by_sector_grouped _ Hc). reflexivity.
Qed.

Lemma sector_success_grouped (sector : string) (w : world) (data : list row) (n : nat)
    (sums : list sector_summary) :
  fst (load_portfolio_data w) = Ok data ->
  forallb company_record data = true ->
  fst (get_sector_analysis sector w) = Ok (sector_success n sums) ->
  records (selected sector data)
  /\ n = length sums
  /\ Permutation sums (summaries_of (selected sector data))
  /\ adjacent (fun a b => in_order true (total_investment_usd a) (total_investment_usd b))
       sums.
Proof.
  intros Hd Ht Hr. apply records_forallb in Ht.
  rewrite (sector_result sector w data Hd) in Hr.
  destruct (sector_on_grouped sector data Ht) as [Hc E]. rewrite E in Hr. clear E.
  destruct (nonempty sector && bool_decide (selected sector data = [])); [discriminate|].
  cbn zeta in Hr. injection Hr as <- <-.
  destruct (sorted_ok_in_order total_investment_usd true (summaries_of (selected sector data)))
    as [Ha Hp].
  auto.
Qed.

(** A successful sector analysis over company records splits the analysed
    records by their sector text, compared as it is written: the sector
    names of the summaries are pairwise different, every analysed record
    belongs to one of them, no summary is empty, [company_count] and
    [importers_count] count the records and the importers of the sector,
    and the counts add up to the number of analysed records. *)
Theorem sector_analysis_groups (sector : string) (w : world) (data : list row) (n : nat)
    (sums : list sector_summary) :
  fst (load_portfolio_data w) = Ok data ->
  forallb company_record data = true ->
  fst (get_sector_analysis sector w) = Ok (sector_success n sums) ->
  n = length sums
  /\ List.NoDup (map ss_sector sums)
  /\ (forall c, In c (selected sector data) ->
        exists s, In s sums /\ ss_sector s = sector_key c)
  /\ (forall s, In s sums ->
        let members := List.filter (in_sector (ss_sector s)) (selected sector data) in
        members <> []
        /\ company_count s = length members
        /\ importers_count s = count_where imports members
        /\ (importers_count s <= company_count s)%nat)
  /\ total company_count sums = length (selected sector data).
Proof.
  intros Hd Ht Hr.
  destruct (sector_success_grouped sector w data n sums Hd Ht Hr) as (Hc & Hn & Hp & _).
  set (chosen := selected sector data) in *.
  destruct (first_keys_spec chosen Hc) as (Hnd & Hcov & Hfrom).
  split; [exact Hn|]. split; [|split; [|split]].
  - apply (Permutation_NoDup (l := map ss_sector (summaries_of chosen))).
    + apply Permutation_map. symmetry. exact Hp.
    + rewrite summaries_of_keys. exact Hnd.
  - intros c Hin. pose proof (Hcov c Hin) as Hk.
    rewrite <- summaries_of_keys in Hk. apply in_map_iff in Hk as (s & Es & Hs).
    exists s. split; [|exact Es]. apply (Permutation_in _ (Permutation_sym Hp)), Hs.
  - intros s Hs. apply (Permutation_in _ Hp), summaries_of_In in Hs as [Hk ->].
    cbn [summary_of ss_sector company_count importers_count fst snd].
    set (k := ss_sector _) in *. cbn zeta.
    rewrite sector_step_fold.
    cbn [sd_companies sd_importers_count empty_sector_data app Nat.add].
    split; [|split; [reflexivity|split; [reflexivity|apply count_where_le]]].
    destruct (Hfrom k Hk) as (c & Hin & Ek).
    destruct (record_sector_key c (Hc c Hin)) as [t Et].
    intros Hnil.
    assert (Hm : In c (List.filter (in_sector k) chosen)).
    { apply filter_In. split; [exact Hin|]. unfold in_sector.
      rewrite <- Ek, Et. apply key_eqb_text_refl. }
    rewrite Hnil in Hm. destruct Hm.
  - rewrite (total_Permutation _ _ _ Hp). unfold summaries_of, grouped.
    rewrite !total_map.
    rewrite (total_ext _ (fun k => length (List.filter (in_sector k) chosen))).
    + apply grouped_total; [exact Hnd|exact Hcov|].
      intros c Hin. apply record_sector_key, Hc, Hin.
    + intros k _. cbn [summary_of company_count snd].
      rewrite sector_step_fold. reflexivity.
Qed.

(** Each total of a sector summary is the sum, accumulated from zero in
    dataset order, over the records of the sector, and the average exposure
    is the guarded ratio of two of them. *)
Theorem sector_totals_in_dataset_order (sector : string) (w : world) (data : list row)
    (n : nat) (sums : list sector_summary) (s : sector_summary) :
  fst (load_portfolio_data w) = Ok data ->
  forallb company_record data = true ->
  fst (get_sector_analysis sector w) = Ok (sector_success n sums) ->
  In s sums ->
  let members := List.filter (in_sector (ss_sector s)) (selected sector data) in
  total_investment_usd s = running_total (num_field "investment_usd") members
  /\ total_revenue_usd s = running_total (num_field "revenue_usd") members
  /\ total_cogs_usd s = running_total (num_field "cogs_usd") members
  /\ total_affected_cogs_usd s = running_total affected_cogs members
  /\ average_exposure_pct s
     = ratio_or_zero (running_total affected_cogs members)
         (running_total (num_field "cogs_usd") members).
Proof.
  intros Hd Ht Hr Hs.
  destruct (sector_success_grouped sector w data n sums Hd Ht Hr) as (_ & _ & Hp & _).
  apply (Permutation_in _ Hp), summaries_of_In in Hs as [_ ->].
  cbn [summary_of ss_sector total_investment_usd total_revenue_usd total_cogs_usd
       total_affected_cogs_usd average_exposure_pct fst snd].
  cbn zeta. rewrite sector_step_fold.
  cbn [sd_total_investment sd_total_revenue sd_total_cogs sd_total_affected_cogs
       empty_sector_data].
  unfold running_total. auto.
Qed.

(** The top exposed companies of a sector summary are the first five of the
    sector's records ranked by [affected_cogs_pct], highest first. *)
Theorem sector_top_exposed_ranked (sector : string) (w : world) (data : list row)
    (n : nat) (sums : list sector_summary) (s : sector_summary) :
  fst (load_portfolio_data w) = Ok data ->
  forallb company_record data = true ->
  fst (get_sector_analysis sector w) = Ok (sector_success n sums) ->
  In s sums ->
  exists ranked,
    Permutation ranked (List.filter (in_sector (ss_sector s)) (selected sector data))
    /\ adjacent (ordered_by "affected_cogs_pct" true) ranked
    /\ top_exposed_companies s = take 5 ranked
    /\ length (top_exposed_companies s) = Nat.min 5 (company_count s).
Proof.
  intros Hd Ht Hr Hs.
  destruct (sector_success_grouped sector w data n sums Hd Ht Hr) as (Hc & _ & Hp & _).
  apply (Permutation_in _ Hp), summaries_of_In in Hs as [_ ->].
  cbn [summary_of ss_sector top_exposed_companies company_count fst snd].
  set (k := ss_sector _). rewrite sector_step_fold.
  cbn [sd_companies empty_sector_data app]. unfold top_by_affected_pct.
  destruct (ranked_records "affected_cogs_pct" true (List.filter (in_sector k) (selected sector data)))
    as [Hperm Hadj]; [apply records_filter, Hc|in_fields|].
  eexists. split; [exact Hperm|]. split; [exact Hadj|]. split; [reflexivity|].
  unfold slice_to. cbn [Z.leb Z.compare Z.to_nat Pos.to_nat].
  rewrite length_take, (Permutation_length Hperm). reflexivity.
Qed.

(** The summaries of a successful sector analysis are listed by total
    investment, highest first, when no total is NaN; this holds whatever
    the cached values are. *)
Theorem sectors_ranked_by_investment (sector : string) (w : world) (n : nat)
    (sums : list sector_summary) :
  fst (get_sector_analysis sector w) = Ok (sector_success n sums) ->
  (forall s, In s sums -> is_nan (total_investment_usd s) = false) ->
  adjacent (fun a b => PrimFloat.leb (total_investment_usd b) (total_investment_usd a) = true)
    sums.
Proof.
  intros Hr Hnan. unfold get_sector_analysis in Hr.
  destruct (load_portfolio_data w) as [[data|e] w']; cbn [fst bind] in Hr; [|discriminate].
  unfold sector_on in Hr. bind_inv Hr as l El.
  destruct (nonempty sector && bool_decide (l = [])); [discriminate|].
  bind_inv Hr as sums' Es. injection Hr as _ <-.
  unfold by_sector in Es. bind_inv Es as g Eg. bind_inv Es as summaries Em.
  rewrite (sorted_ok _ total_investment_usd) in Es by reflexivity. injection Es as <-.
  destruct (sorted_ok_in_order total_investment_usd true summaries) as [Ha Hp].
  apply (adjacent_impl_In _ _ _ (fun a b H1 H2 H => 
           in_order_defined true (total_investment_usd a) (total_investment_usd b)
             (Hnan a H1) (Hnan b H2) H)).
  exact Ha.
Qed.

(** The analysis answers [not_found] exactly when a sector is given and no
    record has it, case aside; with no sector given it always succeeds, on
    an empty dataset with no summary. *)
Theorem sector_not_found_iff (sector : string) (w : world) (data : list row) :
  fst (load_portfolio_data w) = Ok data ->
  forallb company_record data = true ->
  exists r,
    fst (get_sector_analysis sector w) = Ok r
    /\ (r = sector_not_found ("No companies found in sector '" +:+ sector +:+ "'")
        \/ exists sums, r = sector_success (length sums) sums
                        /\ (sums = [] <-> selected sector data = []))
    /\ ((exists message, r = sector_not_found message)
        <-> sector <> ""
            /\ forall c, In c data ->
                 lower (str_field "sector" c) <> lower sector).
Proof.
  intros Hd Ht. apply records_forallb in Ht.
  rewrite (sector_result sector w data Hd).
  destruct (sector_on_grouped sector data Ht) as [Hc ->].
  assert (Hsel : selected sector data = [] /\ nonempty sector = true
                 <-> sector <> ""
                     /\ forall c, In c data -> lower (str_field "sector" c) <> lower sector).
  { unfold selected. split.
    - intros [Hnil Hne]. split; [intros ->; discriminate Hne|].
      intros c Hin E. assert (Hm : In c []); [|destruct Hm].
      rewrite <- Hnil. apply filter_In. split; [exact Hin|].
      rewrite Hne, E. cbn [implb]. apply String.eqb_refl.
    - intros [Hne Hall].
      assert (Hn : nonempty sector = true) by (destruct sector; [congruence|reflexivity]).
      split; [|exact Hn]. apply filter_none. intros c Hin. rewrite Hn. cbn [implb].
      apply String.eqb_neq, Hall, Hin. }
  destruct (nonempty sector) eqn:Hne; cbn [andb].
  - destruct (bool_decide (selected sector data = [])) eqn:Hb.
    + apply bool_decide_eq_true in Hb. eexists. split; [reflexivity|].
      split; [left; reflexivity|]. split; [intros _; apply Hsel; auto|eauto].
    + apply bool_decide_eq_false in Hb. cbn zeta. eexists. split; [reflexivity|].
      split.
      * right. eexists. split; [reflexivity|]. split; [|contradiction].
        intros E. apply (f_equal (@length _)) in E.
        rewrite sorted_ok_length in E. unfold summaries_of, grouped in E.
        rewrite !length_map in E. cbn [length] in E.
        destruct (selected sector data) as [|c l] eqn:El; [reflexivity|].
        destruct (first_keys_spec (c :: l) Hc) as (_ & Hcov & _).
        specialize (Hcov c (or_introl eq_refl)).
        destruct (first_keys [] (c :: l)); [destruct Hcov|discriminate E].
      * split; [intros [m [=]]|]. intros H. apply Hsel in H as [H _]. contradiction.
  - cbn zeta. eexists. split; [reflexivity|]. split.
    + right. eexists. split; [reflexivity|]. split.
      * intros E. apply (f_equal (@length _)) in E.
        rewrite sorted_ok_length in E. unfold summaries_of, grouped in E.
        rewrite !length_map in E. cbn [length] in E.
        destruct (selected sector data) as [|c l] eqn:El; [reflexivity|].
        destruct (first_keys_spec (c :: l) Hc) as (_ & Hcov & _).
        specialize (Hcov c (or_introl eq_refl)).
        destruct (first_keys [] (c :: l)); [destruct Hcov|discriminate E].
      * intros ->. reflexivity.
    + split; [intros [m [=]]|]. intros H. apply Hsel in H as [_ H]. discriminate H.
Qed.

(** ** get_exposure_summary over company records *)

Lemma selected_all (data : list row) : selected "" data = data.
Proof. exact (filter_all data). Qed.

Lemma summary_on_grouped (data : list row) :
  records data ->
  summary_on data
  = Ok (summary_of_data (grouped exposure_step (zero, zero) (first_keys [] data) data) data).
Proof.
  intros Hd. unfold summary_on.
  rewrite (mapM_result_ok _ (num_field "investment_usd"))
    by (intros c Hc; apply record_get_float; [apply Hd, Hc|in_fields]).
  cbn [bind].
  rewrite (mapM_result_ok _ (num_field "revenue_usd"))
    by (intros c Hc; apply record_get_float; [apply Hd, Hc|in_fields]).
  cbn [bind].
  rewrite (mapM_result_ok _ (num_field "cogs_usd"))
    by (intros c Hc; apply record_get_float; [apply Hd, Hc|in_fields]).
  cbn [bind].
  rewrite (mapM_result_ok _ affected_cogs)
    by (intros c Hc; apply affected_cogs_of_record, Hd, Hc).
  cbn [bind].
  rewrite !count_level_record by exact Hd. cbn [bind].
  rewrite (group_exposure_grouped data Hd). cbn [bind].
  rewrite (mapM_result_ok _
             (fun e : value * (float * float) =>
                (fst e, ratio_or_zero (snd (snd e)) (fst (snd e)))))
    by (intros e _; rewrite guarded_ratio_ok; reflexivity).
  cbn [bind].
  rewrite (sorted_ok _ snd) by reflexivity. cbn [bind].
  rewrite (sorted_ok _ (num_field "affected_cogs_pct"))
    by (intros c Hc; apply record_get_float; [apply Hd, Hc|in_fields]).
  cbn [bind]. rewrite guarded_ratio_ok. reflexivity.
Qed.

(** The two loops accumulate the same two totals per sector. *)
Lemma grouped_ratios (keys : list value) (data : list row) :
  map (fun e : value * (float * float) =>
         (fst e, ratio_or_zero (snd (snd e)) (fst (snd e))))
    (grouped exposure_step (zero, zero) keys data)
  = map (fun s => (ss_sector s, average_exposure_pct s))
      (map summary_of (grouped sector_step empty_sector_data keys data)).
Proof.
  unfold grouped. rewrite !map_map. apply map_ext. intros k.
  cbn [summary_of ss_sector average_exposure_pct fst snd].
  rewrite sector_step_fold, exposure_step_fold. reflexivity.
Qed.

(** The sector ranking of the portfolio summary and the sector analysis of
    the whole portfolio, computed by two separate loops, agree: the ranking
    lists the sectors of the analysis, each with its average exposure. *)
Theorem summary_ranking_agrees (w : world) (data : list row) :
  fst (load_portfolio_data w) = Ok data ->
  forallb company_record data = true ->
  exists sums e,
    fst (get_sector_analysis "" w) = Ok (sector_success (length sums) sums)
    /\ fst (get_exposure_summary w) = Ok e
    /\ Permutation (sector_exposure_ranking e)
         (map (fun s => (ss_sector s, average_exposure_pct s)) sums)
    /\ length (sector_exposure_ranking e) = length sums.
Proof.
  intros Hd Ht. apply records_forallb in Ht.
  rewrite (sector_result "" w data Hd), (summary_result w data Hd).
  destruct (sector_on_grouped "" data Ht) as [_ ->]. cbn [nonempty andb]. cbn zeta.
  rewrite selected_all, (summary_on_grouped data Ht).
  eexists. eexists. split; [reflexivity|]. split; [reflexivity|].
  cbn [sector_exposure_ranking summary_of_data]. unfold ranking_of.
  rewrite grouped_ratios. fold (summaries_of data).
  destruct (sorted_ok_in_order total_investment_usd true (summaries_of data)) as [_ Hp].
  match goal with
  | |- Permutation (map snd (sort_keyed true (map _ ?L))) _ /\ _ =>
      destruct (sorted_ok_in_order (@snd value float) true L) as [_ Hq]
  end.
  assert (P : Permutation
                (map snd (sort_keyed true
                            (map (fun x : value * float => (snd x, x))
                               (map (fun s => (ss_sector s, average_exposure_pct s))
                                  (summaries_of data)))))
                (map (fun s => (ss_sector s, average_exposure_pct s))
                   (map snd (sort_keyed true
                               (map (fun s => (total_investment_usd s, s))
                                  (summaries_of data)))))).
  { rewrite Hq. apply Permutation_map. symmetry. exact Hp. }
  split; [exact P|].
  rewrite (Permutation_length P), length_map. reflexivity.
Qed.

(** The top exposed companies of the portfolio summary are the six listed
    fields of the first ten records ranked by [affected_cogs_pct], highest
    first; the importers counted are at most the companies counted. *)
Theorem summary_top_exposed_ranked (w : world) (data : list row) :
  fst (load_portfolio_data w) = Ok data ->
  forallb company_record data = true ->
  exists e ranked,
    fst (get_exposure_summary w) = Ok e
    /\ Permutation ranked data
    /\ adjacent (ordered_by "affected_cogs_pct" true) ranked
    /\ es_top_exposed_companies e = map top_exposed_entry (take 10 ranked)
    /\ length (es_top_exposed_companies e) = Nat.min 10 (length data)
    /\ companies_importing_from_china (overview e) = count_where imports data
    /\ (companies_importing_from_china (overview e) <= total_companies (overview e))%nat.
Proof.
  intros Hd Ht. apply records_forallb in Ht.
  rewrite (summary_result w data Hd), (summary_on_grouped data Ht).
  destruct (ranked_records "affected_cogs_pct" true data Ht) as [Hp Ha]; [in_fields|].
  eexists. eexists. split; [reflexivity|]. split; [exact Hp|]. split; [exact Ha|].
  cbn [summary_of_data es_top_exposed_companies overview companies_importing_from_china
       total_companies].
  split; [reflexivity|]. split; [|split; [reflexivity|apply count_where_le]].
  unfold top_by_affected_pct, slice_to. cbn [Z.leb Z.compare Z.to_nat Pos.to_nat].
  rewrite length_map, length_take, (Permutation_length Hp). reflexivity.
Qed.

(** The sector ranking of every summary the tool returns is listed by
    exposure, highest first, when no exposure is NaN. *)
Theorem summary_ranked_by_exposure (w : world) (e : exposure_summary) :
  fst (get_exposure_summary w) = Ok e ->
  (forall x, In x (sector_exposure_ranking e) -> is_nan (snd x) = false) ->
  adjacent (fun a b => PrimFloat.leb (snd b) (snd a) = true) (sector_exposure_ranking e).
Proof.
  intros H Hnan. unfold get_exposure_summary in H.
  destruct (load_portfolio_data w) as [[data|x] w']; cbn [fst bind] in H; [|discriminate].
  unfold summary_on in H.
  bind_inv H as investments Ei. bind_inv H as revenues Er.
  bind_inv H as cogs Ec. bind_inv H as affected Ea.
  bind_inv H as high Eh. bind_inv H as medium Em.
  bind_inv H as low El. bind_inv H as none En.
  bind_inv H as sectors Es. bind_inv H as exposure Ex.
  rewrite (sorted_ok _ snd) in H by reflexivity. cbn [bind] in H.
  bind_inv H as top Et. bind_inv H as overall Eo. injection H as <-.
  cbn [sector_exposure_ranking] in *.
  destruct (sorted_ok_in_order (@snd value float) true exposure) as [Ha _].
  apply (adjacent_impl_In _ _ _ (fun a b H1 H2 H => 
           in_order_defined true (snd a) (snd b) (Hnan a H1) (Hnan b H2) H)).
  exact Ha.
Qed.

(** ** A lookup is the first match of a search *)

Definition by_ticker (ticker : string) : query_args :=
  {| sector := ""; industry := ""; exposure_level := ""; imports_filter := "";
     min_revenue := zero; max_revenue := zero; min_affected_cogs_pct := zero;
     company_name := ""; ticker := ticker; limit := 1; sort_by := ""; sort_desc := true |}.

Definition by_company_name (company_name : string) : query_args :=
  {| sector := ""; industry := ""; exposure_level := ""; imports_filter := "";
     min_revenue := zero; max_revenue := zero; min_affected_cogs_pct := zero;
     company_name := company_name; ticker := ""; limit := 1; sort_by := "";
     sort_desc := true |}.

(** The response of a lookup whose match, if any, is the head of [l]. *)
Definition details_of_first (ticker company_name : string) (l : list row)
    : details_response :=
  match l with
  | c :: _ => details_success c (metrics_of c)
  | [] => details_not_found (not_found_message ticker company_name)
  end.

Lemma find_take_filter {A} (p : A -> bool) (l : list A) :
  take 1 (List.filter p l) = match List.find p l with Some x => [x] | None => [] end.
Proof.
  induction l as [|x l IH]; [reflexivity|].
  cbn [List.filter List.find]. destruct (p x); [reflexivity|exact IH].
Qed.

Lemma gt0_zero : gt0 zero = false.
Proof. reflexivity. Qed.

Lemma query_one_filter (q : query_args) (p : row -> bool) (data : list row) :
  records data -> (forall c, satisfies q c = p c) ->
  sorts (sort_by q) = false -> limit q = 1 ->
  exists r, query_on q data = Ok r
            /\ companies r = match List.find p data with Some x => [x] | None => [] end.
Proof.
  intros Hd Hp Hs Hl. unfold query_on.
  rewrite (apply_filters_records q data Hd). cbn [bind].
  unfold sort_results. unfold sorts in Hs. rewrite Hs. cbn [bind].
  eexists. split; [reflexivity|]. cbn [companies]. rewrite Hl.
  unfold slice_to. cbn [Z.leb Z.compare Z.to_nat Pos.to_nat].
  rewrite (List.filter_ext _ _ Hp). apply find_take_filter.
Qed.

(** Looking a company up by its ticker alone answers with the first company
    of the search by that ticker, and by its name alone with the first
    company of the search by that name; [not_found] when the search is
    empty. *)
Theorem lookup_is_first_match (symbol name : string) (w : world) (data : list row) :
  fst (load_portfolio_data w) = Ok data ->
  forallb company_record data = true ->
  (nonempty symbol = true ->
   exists r,
     fst (query_sp500_portfolio (by_ticker symbol) w) = Ok r
     /\ fst (get_company_details symbol "" w)
        = Ok (details_of_first symbol "" (companies r)))
  /\ (nonempty name = true ->
      exists r,
        fst (query_sp500_portfolio (by_company_name name) w) = Ok r
        /\ fst (get_company_details "" name w)
           = Ok (details_of_first "" name (companies r))).
Proof.
  intros Hd Ht. apply records_forallb in Ht. split; intros Hne.
  - rewrite (query_result _ w data Hd).
    rewrite (details_result symbol "" w data Hd) by (rewrite Hne; reflexivity).
    rewrite (details_on_records symbol "" data Ht).
    destruct (query_one_filter (by_ticker symbol) (ticker_matches symbol) data Ht)
      as (r & -> & Hr); [|reflexivity|reflexivity|].
    { intros c. unfold satisfies, by_ticker, ticker_matches.
      cbn [sector industry exposure_level imports_filter min_revenue max_revenue
           min_affected_cogs_pct company_name ticker nonempty implb andb].
      rewrite gt0_zero, Hne. reflexivity. }
    exists r. split; [reflexivity|]. rewrite Hr.
    unfold details_of, lookup. rewrite Hne.
    destruct (List.find (ticker_matches symbol) data); reflexivity.
  - rewrite (query_result _ w data Hd).
    rewrite (details_result "" name w data Hd)
      by (rewrite Hne; apply orb_true_r).
    rewrite (details_on_records "" name data Ht).
    destruct (query_one_filter (by_company_name name) (name_matches name)
                data Ht) as (r & -> & Hr); [|reflexivity|reflexivity|].
    { intros c. unfold satisfies, by_company_name, name_matches.
      cbn [sector industry exposure_level imports_filter min_revenue max_revenue
           min_affected_cogs_pct company_name ticker nonempty implb andb].
      rewrite gt0_zero, Hne. cbn [implb andb]. rewrite andb_true_r. reflexivity. }
    exists r. split; [reflexivity|]. rewrite Hr.
    unfold details_of, lookup. cbn [nonempty]. rewrite Hne.
    destruct (List.find (name_matches name) data); reflexivity.
Qed.

(** ** An empty dataset *)

Lemma filter_step_nil (s : bool) (p : row -> result bool) : filter_step s p [] = Ok [].
Proof. destruct s; reflexivity. Qed.

Lemma imports_step_nil (x : string) : imports_step x [] = [].
Proof.
  unfold imports_step. destruct (nonempty x); [|reflexivity].
  destruct (String.eqb (lower x) "yes"); [reflexivity|].
  destruct (String.eqb (lower x) "no"); reflexivity.
Qed.

Lemma slice_to_nil {A} (limit : Z) : slice_to limit (@nil A) = [].
Proof. unfold slice_to. destruct (0 <=? limit); apply take_nil. Qed.

Lemma query_on_nil (q : query_args) :
  query_on q [] = Ok {| total_matches := 0; returned_count := 0; companies := [] |}.
Proof.
  unfold query_on, apply_filters.
  repeat (rewrite filter_step_nil || rewrite imports_step_nil || cbn [bind]).
  unfold sort_results.
  destruct (nonempty (sort_by q) && bool_decide (sort_by q ∈ sort_fields));
    cbn [sorted mapM_result bind sort_keyed foldr map]; rewrite slice_to_nil; reflexivity.
Qed.

Lemma load_empty_state (w : world) :
  fst (load_portfolio_data w) = Ok [] -> snd (load_portfolio_data w) = w.
Proof.
  destruct w as [cache rows]. unfold load_portfolio_data. cbn [portfolio_cache csv_rows].
  destruct cache; [|reflexivity].
  destruct rows as [rows|]; [|reflexivity].
  destruct (mapM_result load_row rows); cbn [fst snd]; [|reflexivity].
  intros [= ->]. reflexivity.
Qed.

(** When the loader has no record to return, because the file is missing
    or has no rows, nothing is cached, and every tool still answers: the
    search with no company, a lookup and the analysis of a named sector with
    [not_found], the analysis of all sectors with no sector, and the summary
    with empty lists and zero counts. *)
Theorem empty_dataset_answers (w : world) (q : query_args) (symbol name sector : string) :
  fst (load_portfolio_data w) = Ok [] ->
  snd (load_portfolio_data w) = w
  /\ fst (query_sp500_portfolio q w)
     = Ok {| total_matches := 0; returned_count := 0; companies := [] |}
  /\ (nonempty symbol || nonempty name = true ->
      fst (get_company_details symbol name w)
      = Ok (details_not_found (not_found_message symbol name)))
  /\ fst (get_sector_analysis sector w)
     = Ok (if nonempty sector
           then sector_not_found ("No companies found in sector '" +:+ sector +:+ "'")
           else sector_success 0 [])
  /\ fst (get_exposure_summary w)
     = Ok {| overview :=
               {| total_companies := 0;
                  po_total_investment_usd := py_sum [];
                  po_total_revenue_usd := py_sum [];
                  po_total_cogs_usd := py_sum [];
                  po_total_affected_cogs_usd := py_sum [];
                  overall_exposure_pct := ratio_or_zero (py_sum []) (py_sum []);
                  companies_importing_from_china := 0 |};
             exposure_level_breakdown :=
               {| eb_high := 0; eb_medium := 0; eb_low := 0; eb_none := 0 |};
             es_top_exposed_companies := [];
             sector_exposure_ranking := [] |}.
Proof.
  intros Hd. split; [exact (load_empty_state w Hd)|].
  split; [rewrite (query_result q w [] Hd); apply query_on_nil|].
  split; [|split].
  - intros Hne. rewrite (details_result symbol name w [] Hd Hne).
    unfold details_on. destruct (nonempty symbol), (nonempty name); reflexivity.
  - rewrite (sector_result sector w [] Hd). unfold sector_on.
    rewrite filter_step_nil. cbn [bind].
    destruct (nonempty sector); reflexivity.
  - rewrite (summary_result w [] Hd). unfold summary_on.
    cbn [mapM_result bind count_level filterM length group_exposure List.filter].
    cbn [sorted mapM_result bind sort_keyed foldr map slice_to Z.leb Z.compare take].
    rewrite guarded_ratio_ok. reflexivity.
Qed.

(** ** The loader, row by row *)

Lemma mapM_result_Forall2 {A B} (f : A -> result B) (l : list A) (l' : list B) :
  mapM_result f l = Ok l' -> Forall2 (fun x y => f x = Ok y) l l'.
Proof.
  revert l'. induction l as [|x l IH]; intros l' H; cbn [mapM_result] in H.
  - injection H as <-. constructor.
  - bind_inv H as y E. bind_inv H as r E'. injection H as <-.
    constructor; [exact E|]. apply IH. reflexivity.
Qed.

Lemma mapM_result_raises {A B} (f : A -> result B) (l : list A) (e : exn) :
  mapM_result f l = Raise e ->
  exists l1 x l2, l = (l1 ++ x :: l2)%list /\ f x = Raise e
                  /\ exists l1', mapM_result f l1 = Ok l1'.
Proof.
  induction l as [|x l IH]; intros H; cbn [mapM_result] in H; [discriminate|].
  destruct (f x) as [y|e'] eqn:E; cbn [bind] in H.
  - destruct (mapM_result f l) as [r|e''] eqn:E'; cbn [bind] in H; [discriminate|].
    injection H as ->. destruct (IH eq_refl) as (l1 & x' & l2 & -> & Hx & l1' & Hl1).
    exists (x :: l1), x', l2. split; [reflexivity|]. split; [exact Hx|].
    exists (y :: l1'). cbn [mapM_result]. rewrite E, Hl1. reflexivity.
  - injection H as ->. exists [], x, l. split; [reflexivity|]. split; [exact E|].
    exists []. reflexivity.
Qed.

(** A row is rejected with [AttributeError] only, and only for an
    [imports_into_us] cell that is not text. *)
Lemma load_row_raises (r : row) (e : exn) :
  load_row r = Raise e ->
  e = AttributeError
  /\ exists v, r !! "imports_into_us" = Some v /\ forall s, v <> VStr s.
Proof.
  destruct (convert_numerics_lookup numeric_fields numeric_fields_NoDup r)
    as (r' & Hr & Hk).
  assert (Hi : r' !! "imports_into_us" = r !! "imports_into_us").
  { rewrite Hk. rewrite bool_decide_eq_false_2; [reflexivity|].
    intros E. apply list_elem_of_In in E. cbn in E. intuition discriminate. }
  unfold load_row. rewrite Hr. cbn [bind]. unfold convert_boolean. rewrite Hi.
  destruct (r !! "imports_into_us") as [[| | |s]|]; cbn [py_upper bind];
    intros [= <-]; (split; [reflexivity|]); eexists; (split; [reflexivity|]);
    intros s'; discriminate.
Qed.

(** The loader rejects a row exactly when its [imports_into_us] cell is
    present and is not text, with [AttributeError]; no numeric cell makes it
    fail.  A row it accepts keeps its fields: [imports_into_us] becomes the
    boolean that tells whether the text is [TRUE] up to case, and every
    field that is neither numeric nor [imports_into_us] is unchanged. *)
Theorem load_row_outcome (r : row) :
  match r !! "imports_into_us" with
  | Some (VStr s) =>
      exists c, load_row r = Ok c
                /\ c !! "imports_into_us" = Some (VBool (String.eqb (upper s) "TRUE"))
                /\ (forall k, is_Some (c !! k) <-> is_Some (r !! k))
                /\ (forall k, ~ In k numeric_fields -> k <> "imports_into_us" ->
                      c !! k = r !! k)
  | None =>
      exists c, load_row r = Ok c
                /\ c !! "imports_into_us" = None
                /\ (forall k, is_Some (c !! k) <-> is_Some (r !! k))
                /\ (forall k, ~ In k numeric_fields -> k <> "imports_into_us" ->
                      c !! k = r !! k)
  | Some _ => load_row r = Raise AttributeError
  end.
Proof.
  destruct (convert_numerics_lookup numeric_fields numeric_fields_NoDup r)
    as (r' & Hr & Hk).
  assert (Hi : r' !! "imports_into_us" = r !! "imports_into_us").
  { rewrite Hk. rewrite bool_decide_eq_false_2; [reflexivity|].
    intros E. apply list_elem_of_In in E. cbn in E. intuition discriminate. }
  assert (Hsome : forall k, is_Some (r' !! k) <-> is_Some (r !! k)).
  { intros k. rewrite Hk. destruct (bool_decide _); [|reflexivity].
    apply fmap_is_Some. }
  assert (Hrest : forall k, ~ In k numeric_fields -> r' !! k = r !! k).
  { intros k Hn. rewrite Hk. rewrite bool_decide_eq_false_2; [reflexivity|].
    intros E. apply Hn, list_elem_of_In, E. }
  unfold load_row. rewrite Hr. cbn [bind]. unfold convert_boolean. rewrite Hi.
  destruct (r !! "imports_into_us") as [[| | |s]|] eqn:E; cbn [py_upper bind];
    try reflexivity.
  - eexists. split; [reflexivity|]. split; [apply lookup_insert_eq|]. split.
    + intros k. destruct (decide (k = "imports_into_us")) as [->|Hne].
      * rewrite lookup_insert_eq, E. split; eauto.
      * rewrite lookup_insert_ne by congruence. apply Hsome.
    + intros k Hn Hne. rewrite lookup_insert_ne by congruence. apply Hrest, Hn.
  - exists r'. split; [reflexivity|]. split; [exact Hi|].
    split; [exact Hsome|]. intros k Hn _. apply Hrest, Hn.
Qed.

(** A load from the file is all or nothing: either every row is converted
    and the records are cached in file order, one per row, or a row is
    rejected, the load raises [AttributeError] at the first such row and the
    cache stays empty. *)
Theorem load_all_or_nothing (w : world) (rows : list row) :
  portfolio_cache w = [] -> csv_rows w = Some rows ->
  (forall data,
     fst (load_portfolio_data w) = Ok data ->
     Forall2 (fun r c => load_row r = Ok c) rows data
     /\ snd (load_portfolio_data w) = {| portfolio_cache := data; csv_rows := Some rows |})
  /\ (forall e,
        fst (load_portfolio_data w) = Raise e ->
        e = AttributeError
        /\ snd (load_portfolio_data w) = w
        /\ exists before r after,
             rows = (before ++ r :: after)%list
             /\ is_ok (mapM_result load_row before) = true
             /\ exists v, r !! "imports_into_us" = Some v /\ forall s, v <> VStr s).
Proof.
  intros Hc Hr. unfold load_portfolio_data. rewrite Hc, Hr.
  destruct (mapM_result load_row rows) as [data|e] eqn:E; cbn [fst snd].
  - split; [|discriminate]. intros data' [= <-].
    split; [exact (mapM_result_Forall2 _ _ _ E)|reflexivity].
  - split; [discriminate|]. intros e' [= <-].
    apply mapM_result_raises in E as (l1 & r & l2 & -> & Hraise & l1' & Hl1).
    destruct (load_row_raises r e Hraise) as (-> & v & Ev & Hv).
    split; [reflexivity|]. split; [reflexivity|].
    exists l1, r, l2. split; [reflexivity|]. split; [rewrite Hl1; reflexivity|].
    exists v. split; [exact Ev|exact Hv].
Qed.

(** ** More on the search *)

(** Two queries that differ in the case of their texts only. *)
Definition same_up_to_case (q q' : query_args) : Prop :=
  lower (sector q) = lower (sector q')
  /\ lower (industry q) = lower (industry q')
  /\ lower (exposure_level q) = lower (exposure_level q')
  /\ lower (imports_filter q) = lower (imports_filter q')
  /\ lower (company_name q) = lower (company_name q')
  /\ upper (ticker q) = upper (ticker q')
  /\ min_revenue q = min_revenue q' /\ max_revenue q = max_revenue q'
  /\ min_affected_cogs_pct q = min_affected_cogs_pct q'
  /\ limit q = limit q' /\ sort_by q = sort_by q' /\ sort_desc q = sort_desc q'.

(** The same criteria and sort settings with another limit. *)
Definition with_limit (limit : Z) (q : query_args) : query_args :=
  with_limit_and_sort limit (sort_by q) (sort_desc q) q.

Definition no_criteria : query_args :=
  {| sector := ""; industry := ""; exposure_level := ""; imports_filter := "";
     min_revenue := zero; max_revenue := zero; min_affected_cogs_pct := zero;
     company_name := ""; ticker := ""; limit := 20; sort_by := ""; sort_desc := true |}.

Definition by_exposure_level (level : string) : query_args :=
  {| sector := ""; industry := ""; exposure_level := level; imports_filter := "";
     min_revenue := zero; max_revenue := zero; min_affected_cogs_pct := zero;
     company_name := ""; ticker := ""; limit := 20; sort_by := ""; sort_desc := true |}.

Definition by_sector_name (sector : string) : query_args :=
  {| sector := sector; industry := ""; exposure_level := ""; imports_filter := "";
     min_revenue := zero; max_revenue := zero; min_affected_cogs_pct := zero;
     company_name := ""; ticker := ""; limit := 20; sort_by := ""; sort_desc := true |}.

(** [exposure_breakdown[level]]. *)
Definition bucket (level : string) (b : exposure_breakdown) : option nat :=
  if String.eqb level "high" then Some (eb_high b)
  else if String.eqb level "medium" then Some (eb_medium b)
  else if String.eqb level "low" then Some (eb_low b)
  else if String.eqb level "none" then Some (eb_none b)
  else None.

Lemma lower_nonempty (s s' : string) : lower s = lower s' -> nonempty s = nonempty s'.
Proof. destruct s, s'; cbn; congruence. Qed.

Lemma upper_nonempty (s s' : string) : upper s = upper s' -> nonempty s = nonempty s'.
Proof. destruct s, s'; cbn; congruence. Qed.

(** The text criteria are compared without regard to case: two searches
    whose texts differ in case only are the same call, result and state,
    whatever the cache holds. *)
Theorem criteria_ignore_case (q q' : query_args) (w : world) :
  same_up_to_case q q' ->
  query_sp500_portfolio q w = query_sp500_portfolio q' w.
Proof.
  intros (Hs & Hi & He & Hm & Hn & Ht & H1 & H2 & H3 & H4 & H5 & H6).
  unfold query_sp500_portfolio, query_on, apply_filters, imports_step,
    lower_is, upper_is, name_contains.
  rewrite (lower_nonempty _ _ Hs), (lower_nonempty _ _ Hi), (lower_nonempty _ _ He),
    (lower_nonempty _ _ Hm), (lower_nonempty _ _ Hn), (upper_nonempty _ _ Ht).
  rewrite Hs, Hi, He, Hm, Hn, Ht, H1, H2, H3, H4, H5, H6. reflexivity.
Qed.

(** Raising the limit only appends companies: the companies returned for a
    smaller, non-negative limit are the first ones returned for a larger
    limit, and [total_matches] is the same. *)
Theorem raising_limit_extends (q : query_args) (w : world) (l1 l2 : Z)
    (r2 : query_response) :
  0 <= l1 <= l2 ->
  fst (query_sp500_portfolio (with_limit l2 q) w) = Ok r2 ->
  fst (query_sp500_portfolio (with_limit l1 q) w)
  = Ok {| total_matches := total_matches r2;
          returned_count := length (take (Z.to_nat l1) (companies r2));
          companies := take (Z.to_nat l1) (companies r2) |}.
Proof.
  intros Hl. unfold query_sp500_portfolio.
  destruct (load_portfolio_data w) as [[data|e] w']; cbn [fst bind]; [|discriminate].
  unfold query_on.
  change (apply_filters (with_limit l2 q) data) with (apply_filters q data).
  change (apply_filters (with_limit l1 q) data) with (apply_filters q data).
  cbn [with_limit with_limit_and_sort sort_by sort_desc limit].
  intros H. bind_inv H as results E. cbn [bind].
  bind_inv H as ranked Er. injection H as <-.
  cbn [bind total_matches companies]. unfold slice_to.
  rewrite !(proj2 (Z.leb_le 0 _)) by lia.
  rewrite take_take, Nat.min_l by lia. reflexivity.
Qed.

Lemma filter_split_length {A} (p a : A -> bool) (l : list A) :
  (length (List.filter (fun c => p c && a c) l)
   + length (List.filter (fun c => p c && negb (a c)) l))%nat
  = length (List.filter p l).
Proof.
  induction l as [|x l IH]; [reflexivity|].
  cbn [List.filter]. destruct (p x), (a x); cbn [andb negb length]; lia.
Qed.

Lemma satisfies_imports_filter (x : string) (q : query_args) (c : row) :
  satisfies (with_imports_filter x q) c
  = satisfies (with_imports_filter "" q) c && implb (nonempty x) (imports_ok x c).
Proof.
  unfold satisfies, with_imports_filter.
  cbn [sector industry exposure_level imports_filter min_revenue max_revenue
       min_affected_cogs_pct company_name ticker nonempty implb].
  repeat match goal with
         | |- context [implb ?a ?b] => generalize (implb a b); intros ?
         end.
  repeat match goal with b : bool |- _ => destruct b end; reflexivity.
Qed.

Lemma total_matches_records (q : query_args) (w : world) (data : list row) :
  fst (load_portfolio_data w) = Ok data -> records data ->
  exists r, fst (query_sp500_portfolio q w) = Ok r
            /\ total_matches r = length (List.filter (satisfies q) data).
Proof.
  intros Hd Ht. rewrite (query_result q w data Hd).
  destruct (query_on_records q data Ht) as (results & _ & ->).
  eexists. split; reflexivity.
Qed.

(** Whatever the other criteria, the matches of the importers and those of
    the non-importers add up to the matches without import filter. *)
Theorem importers_split_matches (q : query_args) (w : world) (data : list row) :
  fst (load_portfolio_data w) = Ok data ->
  forallb company_record data = true ->
  exists yes no all,
    fst (query_sp500_portfolio (with_imports_filter "yes" q) w) = Ok yes
    /\ fst (query_sp500_portfolio (with_imports_filter "no" q) w) = Ok no
    /\ fst (query_sp500_portfolio (with_imports_filter "" q) w) = Ok all
    /\ (total_matches yes + total_matches no)%nat = total_matches all.
Proof.
  intros Hd Ht. apply records_forallb in Ht.
  destruct (total_matches_records (with_imports_filter "yes" q) w data Hd Ht)
    as (yes & Hy & Ey).
  destruct (total_matches_records (with_imports_filter "no" q) w data Hd Ht)
    as (no & Hn & En).
  destruct (total_matches_records (with_imports_filter "" q) w data Hd Ht)
    as (all & Ha & Ea).
  exists yes, no, all. split; [exact Hy|]. split; [exact Hn|]. split; [exact Ha|].
  rewrite Ey, En, Ea.
  rewrite (List.filter_ext _ _ (satisfies_imports_filter "yes" q)).
  rewrite (List.filter_ext _ _ (satisfies_imports_filter "no" q)).
  exact (filter_split_length (satisfies (with_imports_filter "" q)) imports data).
Qed.

Lemma satisfies_no_criteria (c : row) : satisfies no_criteria c = true.
Proof. reflexivity. Qed.

Lemma satisfies_by_exposure_level (level : string) (c : row) :
  nonempty level = true -> lower level = level ->
  satisfies (by_exposure_level level) c = level_is level c.
Proof.
  intros Hne Hl. unfold satisfies, by_exposure_level, level_is.
  cbn [sector industry exposure_level imports_filter min_revenue max_revenue
       min_affected_cogs_pct company_name ticker nonempty implb andb].
  rewrite gt0_zero, Hne, Hl. cbn [implb andb]. rewrite !andb_true_r. reflexivity.
Qed.

Lemma satisfies_by_sector_name (name : string) (c : row) :
  satisfies (by_sector_name name) c
  = implb (nonempty name) (String.eqb (lower (str_field "sector" c)) (lower name)).
Proof.
  unfold satisfies, by_sector_name.
  cbn [sector industry exposure_level imports_filter min_revenue max_revenue
       min_affected_cogs_pct company_name ticker nonempty implb andb].
  rewrite gt0_zero. cbn [implb andb]. rewrite !andb_true_r. reflexivity.
Qed.

(** The counts of the portfolio summary are the counts of the search: each
    exposure bucket is [total_matches] of the search by that level, the
    importers are those of the search for importers, and the companies
    those of the search without criteria. *)
Theorem summary_counts_are_search_counts (w : world) (data : list row) (level : string) :
  fst (load_portfolio_data w) = Ok data ->
  forallb company_record data = true ->
  In level ["high"; "medium"; "low"; "none"] ->
  exists e by_level importers everyone,
    fst (get_exposure_summary w) = Ok e
    /\ fst (query_sp500_portfolio (by_exposure_level level) w) = Ok by_level
    /\ fst (query_sp500_portfolio (with_imports_filter "yes" no_criteria) w) = Ok importers
    /\ fst (query_sp500_portfolio no_criteria w) = Ok everyone
    /\ bucket level (exposure_level_breakdown e) = Some (total_matches by_level)
    /\ companies_importing_from_china (overview e) = total_matches importers
    /\ total_companies (overview e) = total_matches everyone.
Proof.
  intros Hd Ht Hlevel. apply records_forallb in Ht.
  rewrite (summary_result w data Hd), (summary_on_grouped data Ht).
  destruct (total_matches_records (by_exposure_level level) w data Hd Ht)
    as (by_level & Hl & El).
  destruct (total_matches_records (with_imports_filter "yes" no_criteria) w data Hd Ht)
    as (importers & Hi & Ei).
  destruct (total_matches_records no_criteria w data Hd Ht) as (everyone & He & Ee).
  eexists. exists by_level, importers, everyone.
  split; [reflexivity|]. split; [exact Hl|]. split; [exact Hi|]. split; [exact He|].
  cbn [summary_of_data exposure_level_breakdown overview companies_importing_from_china
       total_companies].
  split; [|split].
  - rewrite El. unfold count_where.
    cbn [In] in Hlevel.
    destruct Hlevel as [<-|[<-|[<-|[<-|[]]]]];
      cbn [bucket String.eqb Ascii.eqb Bool.eqb eb_high eb_medium eb_low eb_none];
      do 2 f_equal; apply List.filter_ext; intros c; symmetry;
      apply satisfies_by_exposure_level; reflexivity.
  - rewrite Ei. unfold count_where. f_equal. apply List.filter_ext. intros c.
    rewrite satisfies_imports_filter.
    change (satisfies (with_imports_filter "" no_criteria) c) with true.
    reflexivity.
  - rewrite Ee, (List.filter_ext _ _ satisfies_no_criteria), filter_all. reflexivity.
Qed.

Lemma summaries_total (data : list row) :
  records data -> total company_count (summaries_of data) = length data.
Proof.
  intros Hc. destruct (first_keys_spec data Hc) as (Hnd & Hcov & _).
  unfold summaries_of, grouped. rewrite !total_map.
  rewrite (total_ext _ (fun k => length (List.filter (in_sector k) data))).
  - apply grouped_total; [exact Hnd|exact Hcov|].
    intros c Hin. apply record_sector_key, Hc, Hin.
  - intros k _. cbn [summary_of company_count snd].
    rewrite sector_step_fold. reflexivity.
Qed.

(** The analysis of a named sector covers the matches of the search by
    that sector: the company counts of its summaries add up to
    [total_matches], and it answers [not_found] exactly when the search
    matches nothing. *)
Theorem sector_counts_are_search_counts (sector : string) (w : world) (data : list row) :
  fst (load_portfolio_data w) = Ok data ->
  forallb company_record data = true ->
  nonempty sector = true ->
  exists r a,
    fst (query_sp500_portfolio (by_sector_name sector) w) = Ok r
    /\ fst (get_sector_analysis sector w) = Ok a
    /\ match a with
       | sector_not_found _ => total_matches r = 0%nat
       | sector_success _ sums =>
           total company_count sums = total_matches r /\ total_matches r <> 0%nat
       end.
Proof.
  intros Hd Ht Hne. apply records_forallb in Ht.
  destruct (total_matches_records (by_sector_name sector) w data Hd Ht) as (r & Hr & Er).
  rewrite (List.filter_ext _ _ (satisfies_by_sector_name sector)) in Er.
  fold (selected sector data) in Er.
  rewrite (sector_result sector w data Hd).
  destruct (sector_on_grouped sector data Ht) as [Hc ->].
  exists r. rewrite Hne. cbn [andb].
  destruct (bool_decide (selected sector data = [])) eqn:Hb.
  - apply bool_decide_eq_true in Hb. eexists. split; [exact Hr|]. split; [reflexivity|].
    rewrite Er, Hb. reflexivity.
  - apply bool_decide_eq_false in Hb. cbn zeta. eexists. split; [exact Hr|].
    split; [reflexivity|].
    destruct (sorted_ok_in_order total_investment_usd true
                (summaries_of (selected sector data))) as [_ Hp].
    rewrite (total_Permutation _ _ _ Hp), (summaries_total _ Hc), Er.
    split; [reflexivity|]. destruct (selected sector data); [contradiction|discriminate].
Qed.

End Builtins.

(** * The cache as shared objects

    In the embedding above a tool is a function on values, so it cannot
    change a cached record however it is written.  To say what the tools do
    to the objects of the process, this part embeds the loader and the four
    tools once more, line by line, over a store of Python objects: a list
    object holds references, a dict object is a record, and a reference is
    the identity of an object.  [data = load_portfolio_data()] is then an
    alias of the cache; [data.copy()], a list comprehension, [sorted] and a
    slice each create a list object; [append] and an item assignment change
    an object in place.  The dicts a tool builds for itself and never shares
    (its accumulators and its response) remain values.  The functions that
    read one record ([lower_is], [get_float], [calculate_metrics] and the
    like) are those of the embedding above. *)

Module Shared.

Definition ref : Type := nat.

Record store : Type := {
  lists : gmap ref (list ref);
  dicts : gmap ref row;
  next_ref : ref
}.

(** The process: its objects, the global [_portfolio_cache] and the rows of
    the CSV file, [None] when the file does not exist. *)
Record process : Type := {
  memory : store;
  cache : ref;
  disk : option (list row)
}.

Definition list_at (m : store) (r : ref) : list ref := default [] (lists m !! r).
Definition dict_at (m : store) (r : ref) : row := default ∅ (dicts m !! r).

(** The records a list object refers to, and the cached sequence. *)
Definition records_at (m : store) (r : ref) : list row := map (dict_at m) (list_at m r).
Definition cached_records (s : process) : list row := records_at (memory s) (cache s).

(** A program runs in a process and returns or raises. *)
Definition prog (A : Type) : Type := process -> result A * process.

Definition ret {A} (x : A) : prog A := fun s => (Ok x, s).

Definition and_then {A B} (m : prog A) (k : A -> prog B) : prog B :=
  fun s =>
    match m s with
    | (Ok x, s') => k x s'
    | (Raise e, s') => (Raise e, s')
    end.

Notation "'run!' x := m 'in' k" := (and_then m (fun x => k))
  (at level 10, x name, m at level 100, k at level 200,
   format "'[v' 'run!'  x  :=  m  'in' '/' k ']'").

(** A computation that only reads the objects. *)
Definition reading {A} (f : store -> result A) : prog A := fun s => (f (memory s), s).

Definition with_memory (m : store) (s : process) : process :=
  {| memory := m; cache := cache s; disk := disk s |}.

(** A new list object and a new dict object. *)
Definition new_list (l : list ref) : prog ref :=
  fun s =>
    let m := memory s in
    (Ok (next_ref m),
     with_memory {| lists := <[next_ref m := l]> (lists m); dicts := dicts m;
                    next_ref := S (next_ref m) |} s).

Definition new_dict (d : row) : prog ref :=
  fun s =>
    let m := memory s in
    (Ok (next_ref m),
     with_memory {| lists := lists m; dicts := <[next_ref m := d]> (dicts m);
                    next_ref := S (next_ref m) |} s).

(** [l.append(x)]. *)
Definition append (l x : ref) : prog unit :=
  fun s =>
    let m := memory s in
    (Ok tt,
     with_memory {| lists := <[l := (list_at m l ++ [x])%list]> (lists m); dicts := dicts m;
                    next_ref := next_ref m |} s).

(** Item assignments on the dict [d]: it becomes [f] of what it was, and is
    left as it was when [f] raises. *)
Definition modify_dict (d : ref) (f : row -> result row) : prog unit :=
  fun s =>
    let m := memory s in
    match f (dict_at m d) with
    | Ok d' =>
        (Ok tt,
         with_memory {| lists := lists m; dicts := <[d := d']> (dicts m);
                        next_ref := next_ref m |} s)
    | Raise e => (Raise e, s)
    end.

(** [_portfolio_cache = l]. *)
Definition set_cache (l : ref) : prog unit :=
  fun s => (Ok tt, {| memory := memory s; cache := l; disk := disk s |}).

Fixpoint for_each {A} (l : list A) (body : A -> prog unit) : prog unit :=
  match l with
  | [] => ret tt
  | x :: l' => run! _ := body x in for_each l' body
  end.

(** [len(l)], [l.copy()], [l[:limit]]. *)
Definition len (l : ref) : prog nat := reading (fun m => Ok (length (list_at m l))).

Definition list_copy (l : ref) : prog ref := fun s => new_list (list_at (memory s) l) s.

Definition slice (limit : Z) (l : ref) : prog ref :=
  fun s => new_list (slice_to limit (list_at (memory s) l)) s.

(** [[c for c in l if p(c)]]. *)
Definition comprehension (p : row -> result bool) (l : ref) : prog ref :=
  run! kept := reading (fun m => filterM (fun c => p (dict_at m c)) (list_at m l)) in
  new_list kept.

(** [sorted(l, key=lambda x: key(x), reverse=reverse)]. *)
Definition sorted_list (key : row -> result float) (reverse : bool) (l : ref) : prog ref :=
  run! ranked := reading (fun m => sorted (fun c => key (dict_at m c)) reverse (list_at m l)) in
  new_list ranked.

(** [for c in l: if p(c): company = c; break]. *)
Fixpoint first_of {A} (p : A -> result bool) (l : list A) : result (option A) :=
  match l with
  | [] => Ok None
  | c :: l' =>
      try! b := p c in
      if b then Ok (Some c) else first_of p l'
  end.

Definition first_where (p : row -> result bool) (l : ref) : prog (option ref) :=
  reading (fun m => first_of (fun c => p (dict_at m c)) (list_at m l)).

Section Builtins.

Variable float_of_string : string -> option float.
Variable py_sum : list float -> float.

(** ** load_portfolio_data *)

(** The conversions of one row, in place. *)
Definition convert_row (row : ref) : prog unit :=
  run! _ := for_each numeric_fields
              (fun field => modify_dict row (fun d => convert_numeric float_of_string d field)) in
  modify_dict row convert_boolean.

Definition load_portfolio_data : prog ref :=
  fun s =>
    match list_at (memory s) (cache s) with
    | _ :: _ => (Ok (cache s), s)
    | [] =>
        match disk s with
        | None => new_list [] s
        | Some rows =>
            (run! portfolio_data := new_list [] in
             run! _ := for_each rows
                         (fun cells =>
                            run! row := new_dict cells in
                            run! _ := convert_row row in
                            append portfolio_data row) in
             run! _ := set_cache portfolio_data in
             ret portfolio_data) s
        end
    end.

(** ** query_sp500_portfolio *)

(** The response refers to the list object [results]. *)
Record query_response : Type := {
  total_matches : nat;
  returned_count : nat;
  companies : ref
}.

Definition filter_step (supplied : bool) (p : row -> result bool) (results : ref)
    : prog ref :=
  if supplied then comprehension p results else ret results.

Definition imports_step (imports_filter : string) (results : ref) : prog ref :=
  if nonempty imports_filter then
    if String.eqb (lower imports_filter) "yes" then
      comprehension (fun c => Ok (get_truthy "imports_into_us" c)) results
    else if String.eqb (lower imports_filter) "no" then
      comprehension (fun c => Ok (negb (get_truthy "imports_into_us" c))) results
    else ret results
  else ret results.

Definition apply_filters (q : query_args) (results : ref) : prog ref :=
  run! results := filter_step (nonempty (sector q)) (lower_is "sector" (sector q)) results in
  run! results := filter_step (nonempty (industry q))
                    (lower_is "industry" (industry q)) results in
  run! results := filter_step (nonempty (exposure_level q))
                    (lower_is "exposure_level" (exposure_level q)) results in
  run! results := imports_step (imports_filter q) results in
  run! results := filter_step (gt0 (min_revenue q))
                    (float_at_least float_of_string "revenue_usd" (min_revenue q)) results in
  run! results := filter_step (gt0 (max_revenue q))
                    (float_at_most float_of_string "revenue_usd" (max_revenue q)) results in
  run! results := filter_step (gt0 (min_affected_cogs_pct q))
                    (float_at_least float_of_string "affected_cogs_pct"
                       (min_affected_cogs_pct q)) results in
  run! results := filter_step (nonempty (company_name q))
                    (name_contains (company_name q)) results in
  filter_step (nonempty (ticker q)) (upper_is "ticker" (ticker q)) results.

Definition sort_results (sort_by : string) (sort_desc : bool) (results : ref) : prog ref :=
  if nonempty sort_by && bool_decide (sort_by ∈ sort_fields)
  then sorted_list (get_float float_of_string sort_by) sort_desc results
  else ret results.

(** The tool's body after [data = load_portfolio_data()]. *)
Definition query_on (q : query_args) (data : ref) : prog query_response :=
  run! results := list_copy data in
  run! results := apply_filters q results in
  run! total_matches := len results in
  run! results := sort_results (sort_by q) (sort_desc q) results in
  run! results := slice (limit q) results in
  run! returned_count := len results in
  ret {| total_matches := total_matches;
         returned_count := returned_count;
         companies := results |}.

Definition query_sp500_portfolio (q : query_args) : prog query_response :=
  run! data := load_portfolio_data in
  query_on q data.

(** ** get_company_details *)

(** The response refers to the record found. *)
Inductive details_response : Type :=
| details_error (error : string)
| details_not_found (message : string)
| details_success (company : ref) (calculated_metrics : metrics).

(** [not company], for [None] or a reference to a dict. *)
Definition not_company (company : option ref) : prog bool :=
  reading (fun m => Ok (match company with
                        | None => true
                        | Some c => bool_decide (dict_at m c = ∅)
                        end)).

Definition details_on (ticker company_name : string) (data : ref) : prog details_response :=
  let company := None in
  run! company :=
    if nonempty ticker then first_where (upper_is "ticker" ticker) data
    else ret company in
  run! missing := not_company company in
  run! company :=
    if missing && nonempty company_name then
      run! found := first_where (name_contains company_name) data in
      ret (match found with Some c => Some c | None => company end)
    else ret company in
  run! missing := not_company company in
  match company with
  | Some c =>
      if missing then ret (details_not_found (not_found_message ticker company_name))
      else
        run! m := reading (fun m => calculate_metrics float_of_string (dict_at m c)) in
        ret (details_success c m)
  | None => ret (details_not_found (not_found_message ticker company_name))
  end.

Definition get_company_details (ticker company_name : string) : prog details_response :=
  if negb (nonempty ticker) && negb (nonempty company_name) then
    ret (details_error "Must provide either ticker or company_name")
  else
    run! data := load_portfolio_data in
    details_on ticker company_name data.

(** ** get_sector_analysis *)

(** The accumulator of a sector: [companies] is a list object. *)
Record sector_data : Type := {
  sd_companies : ref;
  sd_total_investment : float;
  sd_total_revenue : float;
  sd_total_cogs : float;
  sd_total_affected_cogs : float;
  sd_importers_count : nat
}.

Record sector_summary : Type := {
  ss_sector : value;
  company_count : nat;
  total_investment_usd : float;
  total_revenue_usd : float;
  total_cogs_usd : float;
  total_affected_cogs_usd : float;
  average_exposure_pct : float;
  importers_count : nat;
  top_exposed_companies : ref
}.

Inductive sector_response : Type :=
| sector_not_found (message : string)
| sector_success (sector_count : nat) (sectors : list sector_summary).

(** [d[k] = f(d[k])] when [k] is a key of [d], and [d[k] = f(init)] as a
    new entry otherwise, where [init] and [f] are programs. *)
Fixpoint upsert {V} (k : value) (init : prog V) (f : V -> prog V) (d : list (value * V))
    : prog (list (value * V)) :=
  match d with
  | [] =>
      run! v0 := init in
      run! v := f v0 in
      ret [(k, v)]
  | (k', v) :: d' =>
      if key_eqb k' k then
        run! v' := f v in
        ret ((k', v') :: d')
      else
        run! d'' := upsert k init f d' in
        ret ((k', v) :: d'')
  end.

Definition empty_sector_data : prog sector_data :=
  run! companies := new_list [] in
  ret {| sd_companies := companies;
         sd_total_investment := zero;
         sd_total_revenue := zero;
         sd_total_cogs := zero;
         sd_total_affected_cogs := zero;
         sd_importers_count := 0%nat |}.

(** One turn of the grouping loop. *)
Definition add_company (sectors_data : list (value * sector_data)) (company : ref)
    : prog (list (value * sector_data)) :=
  run! c := reading (fun m => Ok (dict_at m company)) in
  let sec := sector_key c in
  upsert sec empty_sector_data
    (fun d =>
       run! _ := append (sd_companies d) company in
       run! investment := reading (fun _ => get_float float_of_string "investment_usd" c) in
       run! revenue := reading (fun _ => get_float float_of_string "revenue_usd" c) in
       run! cogs := reading (fun _ => get_float float_of_string "cogs_usd" c) in
       run! affected_pct :=
         reading (fun _ => get_float float_of_string "affected_cogs_pct" c) in
       ret {| sd_companies := sd_companies d;
              sd_total_investment := PrimFloat.add (sd_total_investment d) investment;
              sd_total_revenue := PrimFloat.add (sd_total_revenue d) revenue;
              sd_total_cogs := PrimFloat.add (sd_total_cogs d) cogs;
              sd_total_affected_cogs :=
                PrimFloat.add (sd_total_affected_cogs d) (PrimFloat.mul cogs affected_pct);
              sd_importers_count :=
                if get_truthy "imports_into_us" c
                then S (sd_importers_count d) else sd_importers_count d |})
    sectors_data.

Fixpoint group_by_sector (sectors_data : list (value * sector_data)) (data : list ref)
    : prog (list (value * sector_data)) :=
  match data with
  | [] => ret sectors_data
  | company :: data' =>
      run! sectors_data' := add_company sectors_data company in
      group_by_sector sectors_data' data'
  end.

Definition summarize (entry : value * sector_data) : prog sector_summary :=
  let (sec_name, sec_data) := entry in
  let total_cogs := sd_total_cogs sec_data in
  run! avg_exposure :=
    reading (fun _ => guarded_ratio (sd_total_affected_cogs sec_data) total_cogs) in
  run! count := len (sd_companies sec_data) in
  run! top := sorted_list (get_float float_of_string "affected_cogs_pct") true
                (sd_companies sec_data) in
  run! top := slice 5 top in
  ret {| ss_sector := sec_name;
         company_count := count;
         total_investment_usd := sd_total_investment sec_data;
         total_revenue_usd := sd_total_revenue sec_data;
         total_cogs_usd := total_cogs;
         total_affected_cogs_usd := sd_total_affected_cogs sec_data;
         average_exposure_pct := avg_exposure;
         importers_count := sd_importers_count sec_data;
         top_exposed_companies := top |}.

Fixpoint summarize_all (sectors_data : list (value * sector_data))
    : prog (list sector_summary) :=
  match sectors_data with
  | [] => ret []
  | entry :: rest =>
      run! summary := summarize entry in
      run! summaries := summarize_all rest in
      ret (summary :: summaries)
  end.

Definition by_sector (data : ref) : prog (list sector_summary) :=
  run! companies := reading (fun m => Ok (list_at m data)) in
  run! sectors_data := group_by_sector [] companies in
  run! sector_summaries := summarize_all sectors_data in
  reading (fun _ => sorted (fun x => Ok (total_investment_usd x)) true sector_summaries).

Definition sector_on (sector : string) (data : ref) : prog sector_response :=
  run! data := filter_step (nonempty sector) (lower_is "sector" sector) data in
  run! n := len data in
  if nonempty sector && bool_decide (n = 0%nat) then
    ret (sector_not_found ("No companies found in sector '" +:+ sector +:+ "'"))
  else
    run! sector_summaries := by_sector data in
    ret (sector_success (length sector_summaries) sector_summaries).

Definition get_sector_analysis (sector : string) : prog sector_response :=
  run! data := load_portfolio_data in
  sector_on sector data.

(** ** get_exposure_summary

    The response holds numbers and new dicts of copied fields, and refers
    to no record: it is the [exposure_summary] of the embedding above. *)

Definition count_level (level : string) (data : ref) : prog nat :=
  run! l := comprehension (fun c => try! x := get_lower "exposure_level" c in
                                    Ok (String.eqb x level)) data in
  len l.

Definition summary_on (data : ref) : prog exposure_summary :=
  run! total_companies := len data in
  run! investments :=
    reading (fun m => mapM_result (get_float float_of_string "investment_usd")
                        (records_at m data)) in
  let total_investment := py_sum investments in
  run! revenues :=
    reading (fun m => mapM_result (get_float float_of_string "revenue_usd")
                        (records_at m data)) in
  let total_revenue := py_sum revenues in
  run! cogs :=
    reading (fun m => mapM_result (get_float float_of_string "cogs_usd")
                        (records_at m data)) in
  let total_cogs := py_sum cogs in
  run! importers := comprehension (fun c => Ok (get_truthy "imports_into_us" c)) data in
  run! importers_count := len importers in
  run! affected :=
    reading (fun m => mapM_result (affected_cogs_of float_of_string) (records_at m data)) in
  let total_affected_cogs := py_sum affected in
  run! high := count_level "high" data in
  run! medium := count_level "medium" data in
  run! low := count_level "low" data in
  run! none := count_level "none" data in
  run! sectors := reading (fun m => group_exposure float_of_string [] (records_at m data)) in
  run! sector_exposure :=
    reading (fun _ =>
               mapM_result (fun e : value * (float * float) =>
                              try! exposure_pct := guarded_ratio (snd (snd e)) (fst (snd e)) in
                              Ok (fst e, exposure_pct)) sectors) in
  run! sector_exposure_sorted :=
    reading (fun _ => sorted (fun x => Ok (snd x)) true sector_exposure) in
  run! top := sorted_list (get_float float_of_string "affected_cogs_pct") true data in
  run! top_exposed := slice 10 top in
  run! overall := reading (fun _ => guarded_ratio total_affected_cogs total_cogs) in
  run! top_entries :=
    reading (fun m => Ok (map top_exposed_entry (records_at m top_exposed))) in
  ret {| overview :=
           {| total_companies := total_companies;
              po_total_investment_usd := total_investment;
              po_total_revenue_usd := total_revenue;
              po_total_cogs_usd := total_cogs;
              po_total_affected_cogs_usd := total_affected_cogs;
              overall_exposure_pct := overall;
              companies_importing_from_china := importers_count |};
         exposure_level_breakdown :=
           {| eb_high := high; eb_medium := medium; eb_low := low; eb_none := none |};
         es_top_exposed_companies := top_entries;
         sector_exposure_ranking := sector_exposure_sorted |}.

Definition get_exposure_summary : prog exposure_summary :=
  run! data := load_portfolio_data in
  summary_on data.

(** ** What a program leaves unchanged

    [frame n s s']: from [s] to [s'] the cache and the file are the same,
    every dict object is as it was, the list objects below [n] are as they
    were, and objects were only added. *)

Definition frame (n : ref) (s s' : process) : Prop :=
  cache s' = cache s /\ disk s' = disk s
  /\ dicts (memory s') = dicts (memory s)
  /\ (next_ref (memory s) <= next_ref (memory s'))%nat
  /\ forall r, (r < n)%nat -> lists (memory s') !! r = lists (memory s) !! r.

(** [keeps n m Q]: run where every object below [n] exists, [m] changes no
    dict and no list object below [n], and what it returns satisfies [Q]. *)
Definition keeps {A} (n : ref) (m : prog A) (Q : A -> Prop) : Prop :=
  forall s, (n <= next_ref (memory s))%nat ->
    frame n s (snd (m s)) /\ forall x, fst (m s) = Ok x -> Q x.

(** The cache is populated, and what a tool called then must leave as it
    is: the cache refers to the same list object, which holds the same
    references in the same order, and every dict object, so every field of
    every record, is what it was. *)
Definition populated (s : process) : Prop := list_at (memory s) (cache s) <> [].

Definition unchanged (s s' : process) : Prop :=
  cache s' = cache s /\ disk s' = disk s
  /\ list_at (memory s') (cache s') = list_at (memory s) (cache s)
  /\ (forall c, dict_at (memory s') c = dict_at (memory s) c)
  /\ cached_records s' = cached_records s
  /\ forall r, (r < next_ref (memory s))%nat ->
       list_at (memory s') r = list_at (memory s) r.

Lemma frame_refl (n : ref) (s : process) : frame n s s.
Proof. unfold frame. auto. Qed.

Lemma frame_trans (n : ref) (s s' s'' : process) :
  frame n s s' -> frame n s' s'' -> frame n s s''.
Proof.
  intros (C1 & D1 & E1 & N1 & L1) (C2 & D2 & E2 & N2 & L2). unfold frame.
  split; [congruence|]. split; [congruence|]. split; [congruence|].
  split; [lia|]. intros r Hr. rewrite (L2 r Hr). exact (L1 r Hr).
Qed.

Lemma keeps_ret {A} (n : ref) (x : A) (Q : A -> Prop) : Q x -> keeps n (ret x) Q.
Proof.
  intros H s _. cbn. split; [apply frame_refl|]. intros y [= <-]. exact H.
Qed.

Lemma keeps_bind {A B} (n : ref) (m : prog A) (k : A -> prog B) (Q : A -> Prop)
    (R : B -> Prop) :
  keeps n m Q -> (forall x, Q x -> keeps n (k x) R) -> keeps n (and_then m k) R.
Proof.
  intros Hm Hk s Hs. unfold and_then.
  destruct (Hm s Hs) as [F HQ]. destruct (m s) as [[x|e] s'] eqn:E; cbn [fst snd] in *.
  - assert (Hs' : (n <= next_ref (memory s'))%nat) by (destruct F as (_ & _ & _ & N & _); lia).
    destruct (Hk x (HQ x eq_refl) s' Hs') as [F' HR].
    split; [exact (frame_trans _ _ _ _ F F')|exact HR].
  - split; [exact F|]. intros y [=].
Qed.

Lemma keeps_weaken {A} (n : ref) (m : prog A) (Q Q' : A -> Prop) :
  keeps n m Q -> (forall x, Q x -> Q' x) -> keeps n m Q'.
Proof.
  intros H HQ s Hs. destruct (H s Hs) as [F HQs]. split; [exact F|].
  intros x Hx. apply HQ, HQs, Hx.
Qed.

Lemma keeps_reading {A} (n : ref) (f : store -> result A) :
  keeps n (reading f) (fun _ => True).
Proof. intros s _. cbn. split; [apply frame_refl|auto]. Qed.

Lemma keeps_new_list (n : ref) (l : list ref) :
  keeps n (new_list l) (fun r => (n <= r)%nat).
Proof.
  intros s Hs. cbn. split.
  - unfold frame. cbn. repeat (split; [reflexivity || lia|]).
    intros r Hr. apply lookup_insert_ne. lia.
  - intros x [= <-]. exact Hs.
Qed.

Lemma keeps_append (n : ref) (l x : ref) :
  (n <= l)%nat -> keeps n (append l x) (fun _ => True).
Proof.
  intros Hl s Hs. cbn. split; [|auto].
  unfold frame. cbn. repeat (split; [reflexivity || lia|]).
  intros r Hr. apply lookup_insert_ne. lia.
Qed.

Lemma keeps_len (n : ref) (l : ref) : keeps n (len l) (fun _ => True).
Proof. apply keeps_reading. Qed.

Lemma keeps_list_copy (n : ref) (l : ref) : keeps n (list_copy l) (fun r => (n <= r)%nat).
Proof. intros s Hs. exact (keeps_new_list n _ s Hs). Qed.

Lemma keeps_slice (n : ref) (limit : Z) (l : ref) :
  keeps n (slice limit l) (fun r => (n <= r)%nat).
Proof. intros s Hs. exact (keeps_new_list n _ s Hs). Qed.

Lemma keeps_comprehension (n : ref) (p : row -> result bool) (l : ref) :
  keeps n (comprehension p l) (fun r => (n <= r)%nat).
Proof.
  unfold comprehension. eapply keeps_bind; [apply keeps_reading|].
  intros kept _. apply keeps_new_list.
Qed.

Lemma keeps_sorted_list (n : ref) (key : row -> result float) (reverse : bool) (l : ref) :
  keeps n (sorted_list key reverse l) (fun r => (n <= r)%nat).
Proof.
  unfold sorted_list. eapply keeps_bind; [apply keeps_reading|].
  intros ranked _. apply keeps_new_list.
Qed.

Lemma keeps_any {A} (n : ref) (m : prog A) (Q : A -> Prop) :
  keeps n m Q -> keeps n m (fun _ => True).
Proof. intros H. apply (keeps_weaken _ _ _ _ H). auto. Qed.

Lemma keeps_filter_step (n : ref) (supplied : bool) (p : row -> result bool) (l : ref) :
  keeps n (filter_step supplied p l) (fun _ => True).
Proof.
  unfold filter_step. destruct supplied.
  - apply (keeps_any _ _ _ (keeps_comprehension n p l)).
  - apply keeps_ret. exact I.
Qed.

Lemma keeps_imports_step (n : ref) (x : string) (l : ref) :
  keeps n (imports_step x l) (fun _ => True).
Proof.
  unfold imports_step.
  repeat match goal with
         | |- context [if ?b then _ else _] => destruct b
         end;
    first [apply keeps_ret; exact I
          |eapply keeps_any; apply keeps_comprehension].
Qed.

(** A chain of steps none of which needs what the one before returned. *)
Ltac keeps_chain :=
  repeat first
    [ apply keeps_ret; exact I
    | eapply keeps_bind;
      [ first [ apply keeps_filter_step | apply keeps_imports_step | apply keeps_reading
              | apply keeps_len | apply keeps_list_copy | apply keeps_slice
              | apply keeps_comprehension | apply keeps_sorted_list ]
      | intros ? _ ] ].

Lemma keeps_apply_filters (n : ref) (q : query_args) (l : ref) :
  keeps n (apply_filters q l) (fun _ => True).
Proof. unfold apply_filters. keeps_chain. apply keeps_filter_step. Qed.

Lemma keeps_sort_results (n : ref) (sort_by : string) (sort_desc : bool) (l : ref) :
  keeps n (sort_results sort_by sort_desc l) (fun _ => True).
Proof.
  unfold sort_results. destruct (_ && _).
  - eapply keeps_any. apply keeps_sorted_list.
  - apply keeps_ret. exact I.
Qed.

Lemma keeps_query_on (n : ref) (q : query_args) (data : ref) :
  keeps n (query_on q data) (fun _ => True).
Proof.
  unfold query_on.
  eapply keeps_bind; [apply keeps_list_copy|intros ? _].
  eapply keeps_bind; [apply keeps_apply_filters|intros ? _].
  eapply keeps_bind; [apply keeps_len|intros ? _].
  eapply keeps_bind; [apply keeps_sort_results|intros ? _].
  keeps_chain.
Qed.

Lemma keeps_details_on (n : ref) (ticker company_name : string) (data : ref) :
  keeps n (details_on ticker company_name data) (fun _ => True).
Proof.
  unfold details_on, first_where, not_company.
  eapply (keeps_bind n _ _ (fun _ => True)).
  { destruct (nonempty ticker); [apply keeps_reading|apply keeps_ret; exact I]. }
  intros company _.
  eapply keeps_bind; [apply keeps_reading|intros missing _].
  eapply (keeps_bind n _ _ (fun _ => True)).
  { destruct (missing && nonempty company_name).
    - eapply keeps_bind; [apply keeps_reading|intros ? _]. apply keeps_ret. exact I.
    - apply keeps_ret. exact I. }
  intros company' _.
  eapply keeps_bind; [apply keeps_reading|intros missing' _].
  destruct company' as [c|]; [|apply keeps_ret; exact I].
  destruct missing'; [apply keeps_ret; exact I|].
  eapply keeps_bind; [apply keeps_reading|intros ? _]. apply keeps_ret. exact I.
Qed.

Lemma keeps_count_level (n : ref) (level : string) (data : ref) :
  keeps n (count_level level data) (fun _ => True).
Proof. unfold count_level. keeps_chain. apply keeps_len. Qed.

Lemma keeps_summary_on (n : ref) (data : ref) :
  keeps n (summary_on data) (fun _ => True).
Proof.
  unfold summary_on.
  repeat first
    [ apply keeps_ret; exact I
    | eapply keeps_bind;
      [ first [ apply keeps_count_level | apply keeps_reading | apply keeps_len
              | apply keeps_slice | apply keeps_comprehension | apply keeps_sorted_list ]
      | intros ? _ ] ].
Qed.

(** The grouping loop appends to the list objects of its accumulators
    only, and each of them was created by the loop. *)
Definition created_since (n : ref) (d : sector_data) : Prop := (n <= sd_companies d)%nat.

Lemma keeps_upsert {V} (n : ref) (P : V -> Prop) (k : value) (init : prog V)
    (f : V -> prog V) (d : list (value * V)) :
  Forall (fun e => P (snd e)) d ->
  keeps n init P -> (forall v, P v -> keeps n (f v) P) ->
  keeps n (upsert k init f d) (Forall (fun e => P (snd e))).
Proof.
  intros Hd Hinit Hf. induction d as [|[k' v] d IH]; cbn [upsert].
  - eapply keeps_bind; [exact Hinit|intros v0 H0].
    eapply keeps_bind; [exact (Hf v0 H0)|intros v Hv].
    apply keeps_ret. constructor; [exact Hv|constructor].
  - inversion Hd as [|? ? Hv Hd']; subst. cbn [snd] in Hv.
    destruct (key_eqb k' k).
    + eapply keeps_bind; [exact (Hf v Hv)|intros v' Hv'].
      apply keeps_ret. constructor; assumption.
    + eapply keeps_bind; [exact (IH Hd')|intros d'' Hd''].
      apply keeps_ret. constructor; assumption.
Qed.

Lemma keeps_add_company (n : ref) (sectors_data : list (value * sector_data))
    (company : ref) :
  Forall (fun e => created_since n (snd e)) sectors_data ->
  keeps n (add_company sectors_data company)
    (Forall (fun e => created_since n (snd e))).
Proof.
  intros Hd. unfold add_company.
  eapply keeps_bind; [apply keeps_reading|intros c _].
  apply keeps_upsert; [exact Hd| |].
  - unfold empty_sector_data. eapply keeps_bind; [apply keeps_new_list|intros l Hl].
    apply keeps_ret. exact Hl.
  - intros d Hv.
    eapply keeps_bind; [apply keeps_append; exact Hv|intros ? _].
    eapply keeps_bind; [apply keeps_reading|intros ? _].
    eapply keeps_bind; [apply keeps_reading|intros ? _].
    eapply keeps_bind; [apply keeps_reading|intros ? _].
    eapply keeps_bind; [apply keeps_reading|intros ? _].
    apply keeps_ret. exact Hv.
Qed.

Lemma keeps_group_by_sector (n : ref) (data : list ref) :
  forall sectors_data,
    Forall (fun e => created_since n (snd e)) sectors_data ->
    keeps n (group_by_sector sectors_data data)
      (Forall (fun e => created_since n (snd e))).
Proof.
  induction data as [|company data IH]; intros acc Hacc; cbn [group_by_sector].
  - apply keeps_ret. exact Hacc.
  - eapply keeps_bind; [apply keeps_add_company; exact Hacc|].
    intros acc' Hacc'. apply IH. exact Hacc'.
Qed.

Lemma keeps_summarize (n : ref) (entry : value * sector_data) :
  keeps n (summarize entry) (fun _ => True).
Proof. destruct entry as [sec_name sec_data]. unfold summarize. keeps_chain. Qed.

Lemma keeps_summarize_all (n : ref) (sectors_data : list (value * sector_data)) :
  keeps n (summarize_all sectors_data) (fun _ => True).
Proof.
  induction sectors_data as [|entry rest IH]; cbn [summarize_all].
  - apply keeps_ret. exact I.
  - eapply keeps_bind; [apply keeps_summarize|intros ? _].
    eapply keeps_bind; [exact IH|intros ? _]. apply keeps_ret. exact I.
Qed.

Lemma keeps_by_sector (n : ref) (data : ref) : keeps n (by_sector data) (fun _ => True).
Proof.
  unfold by_sector.
  eapply keeps_bind; [apply keeps_reading|intros companies _].
  eapply keeps_bind; [apply keeps_group_by_sector; constructor|intros ? _].
  eapply keeps_bind; [apply keeps_summarize_all|intros ? _].
  apply keeps_reading.
Qed.

Lemma keeps_sector_on (n : ref) (sector : string) (data : ref) :
  keeps n (sector_on sector data) (fun _ => True).
Proof.
  unfold sector_on.
  eapply keeps_bind; [apply keeps_filter_step|intros filtered _].
  eapply keeps_bind; [apply keeps_len|intros count _].
  destruct (nonempty sector && bool_decide (count = 0%nat)).
  - apply keeps_ret. exact I.
  - eapply keeps_bind; [apply keeps_by_sector|intros ? _]. apply keeps_ret. exact I.
Qed.

(** With a populated cache the loader returns the cache itself. *)
Lemma load_populated (s : process) :
  populated s -> load_portfolio_data s = (Ok (cache s), s).
Proof.
  unfold populated, load_portfolio_data.
  destruct (list_at (memory s) (cache s)); [contradiction|reflexivity].
Qed.

Lemma frame_unchanged (s s' : process) :
  (cache s < next_ref (memory s))%nat ->
  frame (next_ref (memory s)) s s' -> unchanged s s'.
Proof.
  intros Hc (C & D & E & N & L).
  assert (Hl : forall r, (r < next_ref (memory s))%nat ->
                 list_at (memory s') r = list_at (memory s) r).
  { intros r Hr. unfold list_at. f_equal. exact (L r Hr). }
  assert (Hd : forall c, dict_at (memory s') c = dict_at (memory s) c).
  { intros c. unfold dict_at. rewrite E. reflexivity. }
  unfold unchanged. split; [exact C|]. split; [exact D|].
  split; [rewrite C; apply Hl, Hc|]. split; [exact Hd|]. split; [|exact Hl].
  unfold cached_records, records_at. rewrite C, (Hl _ Hc).
  apply map_ext. exact Hd.
Qed.

Lemma tool_unchanged {A} (body : ref -> prog A) (s : process) :
  populated s -> (cache s < next_ref (memory s))%nat ->
  (forall n data, keeps n (body data) (fun _ => True)) ->
  unchanged s (snd ((run! data := load_portfolio_data in body data) s)).
Proof.
  intros Hp Hc Hb. unfold and_then. rewrite (load_populated s Hp).
  apply (frame_unchanged s _ Hc).
  exact (proj1 (Hb (next_ref (memory s)) (cache s) s (Nat.le_refl _))).
Qed.

(** C10, as the code has it.  No tool changes a populated cache.  After a
    call made when the cached list, an object of the store, is not empty,
    [_portfolio_cache] is the same list object, with the same references in the same order, and every
    dict object of the process holds what it held, so the cached sequence,
    its length, its order and every field of every record, is what it was:
    the search copies the list before it filters, comprehensions, [sorted]
    and slices create list objects, and the only [append] of a tool is to a
    list the sector analysis created itself.  (Called with an empty cache,
    a tool runs the loader, which replaces the cache.) *)
Theorem populated_cache_unchanged (s : process) (q : query_args)
    (ticker company_name sector : string) :
  populated s -> (cache s < next_ref (memory s))%nat ->
  unchanged s (snd (query_sp500_portfolio q s))
  /\ unchanged s (snd (get_company_details ticker company_name s))
  /\ unchanged s (snd (get_sector_analysis sector s))
  /\ unchanged s (snd (get_exposure_summary s)).
Proof.
  intros Hp Hc. split; [|split; [|split]].
  - apply (tool_unchanged (query_on q) s Hp Hc). intros n data. apply keeps_query_on.
  - unfold get_company_details.
    destruct (negb (nonempty ticker) && negb (nonempty company_name)).
    + apply (frame_unchanged s _ Hc). apply frame_refl.
    + apply (tool_unchanged (details_on ticker company_name) s Hp Hc).
      intros n data. apply keeps_details_on.
  - apply (tool_unchanged (sector_on sector) s Hp Hc). intros n data. apply keeps_sector_on.
  - apply (tool_unchanged summary_on s Hp Hc). intros n data. apply keeps_summary_on.
Qed.

End Builtins.

End Shared.

(** * The two embeddings agree

    Read back through the store, the loader and the tools over shared
    objects return what the loader and the tools over values return, and
    leave the cache and the file those leave. *)

Definition rmap {A B} (f : A -> B) (m : result A) : result B :=
  match m with
  | Ok x => Ok (f x)
  | Raise e => Raise e
  end.

(** The process as the embedding over values sees it. *)
Definition world_of (s : Shared.process) : world :=
  {| portfolio_cache := Shared.cached_records s; csv_rows := Shared.disk s |}.

(** Only new list objects: nothing that exists changes. *)
Definition extends (s s' : Shared.process) : Prop :=
  Shared.frame (Shared.next_ref (Shared.memory s)) s s'.

(** The list object [r] of [s] holds the records [l]. *)
Definition holds_records (s : Shared.process) (r : Shared.ref) (l : list row) : Prop :=
  Shared.records_at (Shared.memory s) r = l
  /\ (r < Shared.next_ref (Shared.memory s))%nat.

(** The program [m], run in [s], does what the computation [p] on values
    does: it raises the same exception, or returns a result that [R]
    relates to the result of [p], in a process that extends [s]. *)
Definition agrees {A B} (R : Shared.process -> A -> B -> Prop) (s : Shared.process)
    (m : Shared.prog A) (p : result B) : Prop :=
  match p with
  | Ok y => exists x s', m s = (Ok x, s') /\ extends s s' /\ R s' x y
  | Raise e => exists s', m s = (Raise e, s') /\ extends s s'
  end.

Definition same {A} (_ : Shared.process) (x y : A) : Prop := x = y.

Lemma extends_refl (s : Shared.process) : extends s s.
Proof. apply Shared.frame_refl. Qed.

Lemma extends_trans (s s' s'' : Shared.process) :
  extends s s' -> extends s' s'' -> extends s s''.
Proof.
  intros H1 H2. unfold extends in *. apply (Shared.frame_trans _ _ _ _ H1).
  destruct H1 as (_ & _ & _ & N & _).
  destruct H2 as (C & D & E & N' & L). unfold Shared.frame.
  repeat (split; [assumption|]). intros r Hr. apply L. lia.
Qed.

Lemma extends_next (s s' : Shared.process) :
  extends s s' ->
  (Shared.next_ref (Shared.memory s) <= Shared.next_ref (Shared.memory s'))%nat.
Proof. intros (_ & _ & _ & N & _). exact N. Qed.

Lemma extends_dict_at (s s' : Shared.process) (c : Shared.ref) :
  extends s s' ->
  Shared.dict_at (Shared.memory s') c = Shared.dict_at (Shared.memory s) c.
Proof. intros (_ & _ & E & _). unfold Shared.dict_at. rewrite E. reflexivity. Qed.

Lemma extends_list_at (s s' : Shared.process) (r : Shared.ref) :
  extends s s' -> (r < Shared.next_ref (Shared.memory s))%nat ->
  Shared.list_at (Shared.memory s') r = Shared.list_at (Shared.memory s) r.
Proof.
  intros (_ & _ & _ & _ & L) Hr. unfold Shared.list_at. f_equal. exact (L r Hr).
Qed.

Lemma extends_records_at (s s' : Shared.process) (r : Shared.ref) :
  extends s s' -> (r < Shared.next_ref (Shared.memory s))%nat ->
  Shared.records_at (Shared.memory s') r = Shared.records_at (Shared.memory s) r.
Proof.
  intros H Hr. unfold Shared.records_at. rewrite (extends_list_at _ _ _ H Hr).
  apply map_ext. intros c. apply extends_dict_at, H.
Qed.

Lemma extends_holds_records (s s' : Shared.process) (r : Shared.ref) (l : list row) :
  extends s s' -> holds_records s r l -> holds_records s' r l.
Proof.
  intros H [E Hr]. split.
  - rewrite (extends_records_at _ _ _ H Hr). exact E.
  - pose proof (extends_next _ _ H). lia.
Qed.

Lemma extends_world (s s' : Shared.process) :
  (Shared.cache s < Shared.next_ref (Shared.memory s))%nat ->
  extends s s' ->
  world_of s' = world_of s
  /\ (Shared.cache s' < Shared.next_ref (Shared.memory s'))%nat.
Proof.
  intros Hc H. pose proof H as (C & D & _ & N & _). split.
  - unfold world_of, Shared.cached_records. rewrite C, D.
    rewrite (extends_records_at _ _ _ H Hc). reflexivity.
  - rewrite C. lia.
Qed.

(** A new list object. *)
Lemma new_list_extends (l : list Shared.ref) (s : Shared.process) :
  exists s',
    Shared.new_list l s = (Ok (Shared.next_ref (Shared.memory s)), s')
    /\ extends s s'
    /\ Shared.list_at (Shared.memory s') (Shared.next_ref (Shared.memory s)) = l
    /\ Shared.next_ref (Shared.memory s') = S (Shared.next_ref (Shared.memory s)).
Proof.
  eexists. split; [reflexivity|]. split; [|split].
  - exact (proj1 (Shared.keeps_new_list _ l s (Nat.le_refl _))).
  - unfold Shared.list_at. cbn. rewrite lookup_insert_eq. reflexivity.
  - reflexivity.
Qed.

Lemma new_list_holds (l : list Shared.ref) (s : Shared.process) :
  exists r s',
    Shared.new_list l s = (Ok r, s')
    /\ extends s s'
    /\ holds_records s' r (map (Shared.dict_at (Shared.memory s)) l).
Proof.
  destruct (new_list_extends l s) as (s' & E & H & Hl & Hn).
  exists (Shared.next_ref (Shared.memory s)), s'.
  split; [exact E|]. split; [exact H|]. split; [|lia].
  unfold Shared.records_at. rewrite Hl. apply map_ext. intros c.
  apply extends_dict_at, H.
Qed.

(** ** Sequencing *)

Lemma agrees_bind {A B A' B'} (R : Shared.process -> A -> B -> Prop)
    (R' : Shared.process -> A' -> B' -> Prop) (s : Shared.process)
    (m : Shared.prog A) (k : A -> Shared.prog A') (p : result B) (k' : B -> result B') :
  agrees R s m p ->
  (forall x y s', extends s s' -> R s' x y -> agrees R' s' (k x) (k' y)) ->
  agrees R' s (Shared.and_then m k) (bind p k').
Proof.
  intros Hm Hk. destruct p as [y|e]; cbn [bind agrees] in *.
  - destruct Hm as (x & s' & E & H & HR).
    specialize (Hk x y s' H HR). unfold agrees in *.
    destruct (k' y) as [y'|e'].
    + destruct Hk as (x' & s'' & E' & H' & HR'). exists x', s''.
      split; [unfold Shared.and_then; rewrite E; exact E'|].
      split; [exact (extends_trans _ _ _ H H')|exact HR'].
    + destruct Hk as (s'' & E' & H'). exists s''.
      split; [unfold Shared.and_then; rewrite E; exact E'|].
      exact (extends_trans _ _ _ H H').
  - destruct Hm as (s' & E & H). exists s'.
    split; [unfold Shared.and_then; rewrite E; reflexivity|exact H].
Qed.

(** A step of the program that the computation on values does not have. *)
Lemma agrees_after {A A' B'} (R' : Shared.process -> A' -> B' -> Prop) (s s1 : Shared.process)
    (m : Shared.prog A) (x : A) (k : A -> Shared.prog A') (p : result B') :
  m s = (Ok x, s1) -> extends s s1 ->
  agrees R' s1 (k x) p ->
  agrees R' s (Shared.and_then m k) p.
Proof.
  intros E H Hk. unfold agrees in *.
  destruct p as [y|e].
  - destruct Hk as (x' & s' & E' & H' & HR). exists x', s'.
    split; [unfold Shared.and_then; rewrite E; exact E'|].
    split; [exact (extends_trans _ _ _ H H')|exact HR].
  - destruct Hk as (s' & E' & H'). exists s'.
    split; [unfold Shared.and_then; rewrite E; exact E'|].
    exact (extends_trans _ _ _ H H').
Qed.

Lemma agrees_ret {A B} (R : Shared.process -> A -> B -> Prop) (s : Shared.process)
    (x : A) (y : B) :
  R s x y -> agrees R s (Shared.ret x) (Ok y).
Proof. intros H. exists x, s. split; [reflexivity|]. split; [apply extends_refl|exact H]. Qed.

(** ** Lists of records through a function *)

Lemma filterM_map {A B} (f : A -> B) (p : B -> result bool) (l : list A) :
  filterM p (map f l) = rmap (map f) (filterM (fun x => p (f x)) l).
Proof.
  induction l as [|x l IH]; [reflexivity|].
  cbn [map filterM]. rewrite IH.
  destruct (p (f x)) as [b|e]; [|reflexivity]. cbn [bind].
  destruct (filterM (fun x => p (f x)) l) as [r|e]; [|reflexivity].
  cbn [bind rmap]. destruct b; reflexivity.
Qed.

Lemma mapM_result_map {A B C} (f : A -> B) (g : B -> result C) (l : list A) :
  mapM_result g (map f l) = mapM_result (fun x => g (f x)) l.
Proof.
  induction l as [|x l IH]; [reflexivity|].
  cbn [map mapM_result]. rewrite IH. reflexivity.
Qed.

Lemma insert_sorted_map {A B} (f : A -> B) (reverse : bool) (x : float * A)
    (l : list (float * A)) :
  insert_sorted reverse (fst x, f (snd x)) (map (fun e => (fst e, f (snd e))) l)
  = map (fun e => (fst e, f (snd e))) (insert_sorted reverse x l).
Proof.
  induction l as [|y l IH]; [reflexivity|].
  cbn [map insert_sorted].
  change (goes_before reverse (fst x, f (snd x)) (fst y, f (snd y)))
    with (goes_before reverse x y).
  destruct (goes_before reverse x y); [reflexivity|].
  cbn [map]. f_equal. exact IH.
Qed.

Lemma sort_keyed_map {A B} (f : A -> B) (reverse : bool) (l : list (float * A)) :
  sort_keyed reverse (map (fun e => (fst e, f (snd e))) l)
  = map (fun e => (fst e, f (snd e))) (sort_keyed reverse l).
Proof.
  induction l as [|x l IH]; [reflexivity|].
  cbn [map sort_keyed foldr]. fold (sort_keyed reverse l).
  fold (sort_keyed reverse (map (fun e => (fst e, f (snd e))) l)).
  rewrite IH. apply insert_sorted_map.
Qed.

Lemma sorted_map {A B} (f : A -> B) (key : B -> result float) (reverse : bool)
    (l : list A) :
  sorted key reverse (map f l) = rmap (map f) (sorted (fun x => key (f x)) reverse l).
Proof.
  unfold sorted.
  assert (E : mapM_result (fun c => try! k := key c in Ok (k, c)) (map f l)
              = rmap (map (fun e => (fst e, f (snd e))))
                  (mapM_result (fun x => try! k := key (f x) in Ok (k, x)) l)).
  { induction l as [|x l IH]; [reflexivity|].
    cbn [map mapM_result]. rewrite IH.
    destruct (key (f x)) as [k|e]; [|reflexivity]. cbn [bind].
    destruct (mapM_result _ l) as [r|e]; reflexivity. }
  rewrite E. destruct (mapM_result _ l) as [keyed|e]; [|reflexivity].
  cbn [rmap bind]. rewrite sort_keyed_map, !map_map. reflexivity.
Qed.

Lemma slice_to_map {A B} (f : A -> B) (limit : Z) (l : list A) :
  slice_to limit (map f l) = map f (slice_to limit l).
Proof.
  unfold slice_to. rewrite length_map.
  destruct (0 <=? limit); symmetry; apply fmap_take.
Qed.

Lemma find_first_map (f : Shared.ref -> row) (p : row -> result bool)
    (l : list Shared.ref) :
  find_first p (map f l) = rmap (option_map f) (Shared.first_of (fun x => p (f x)) l).
Proof.
  induction l as [|x l IH]; [reflexivity|].
  cbn [map find_first Shared.first_of].
  destruct (p (f x)) as [[]|e]; cbn [bind]; [reflexivity|exact IH|reflexivity].
Qed.

(** ** The list operations *)

Lemma comprehension_agrees (p : row -> result bool) (s : Shared.process)
    (r : Shared.ref) (l : list row) :
  holds_records s r l ->
  agrees holds_records s (Shared.comprehension p r) (filterM p l).
Proof.
  intros [<- Hr].
  pose (kept := filterM (fun c => p (Shared.dict_at (Shared.memory s) c))
                  (Shared.list_at (Shared.memory s) r)).
  assert (E1 : filterM p (Shared.records_at (Shared.memory s) r)
               = rmap (map (Shared.dict_at (Shared.memory s))) kept)
    by apply filterM_map.
  assert (E2 : Shared.comprehension p r s
               = match kept with
                 | Ok kept => Shared.new_list kept s
                 | Raise e => (Raise e, s)
                 end) by reflexivity.
  rewrite E1. unfold agrees. rewrite E2. clearbody kept.
  destruct kept as [kept|e]; cbn [rmap].
  - destruct (new_list_holds kept s) as (r' & s' & E & H & Hh). exists r', s'. auto.
  - exists s. split; [reflexivity|apply extends_refl].
Qed.

Lemma sorted_list_agrees (key : row -> result float) (reverse : bool)
    (s : Shared.process) (r : Shared.ref) (l : list row) :
  holds_records s r l ->
  agrees holds_records s (Shared.sorted_list key reverse r) (sorted key reverse l).
Proof.
  intros [<- Hr].
  pose (ranked := sorted (fun c => key (Shared.dict_at (Shared.memory s) c)) reverse
                    (Shared.list_at (Shared.memory s) r)).
  assert (E1 : sorted key reverse (Shared.records_at (Shared.memory s) r)
               = rmap (map (Shared.dict_at (Shared.memory s))) ranked)
    by apply sorted_map.
  assert (E2 : Shared.sorted_list key reverse r s
               = match ranked with
                 | Ok ranked => Shared.new_list ranked s
                 | Raise e => (Raise e, s)
                 end) by reflexivity.
  rewrite E1. unfold agrees. rewrite E2. clearbody ranked.
  destruct ranked as [ranked|e]; cbn [rmap].
  - destruct (new_list_holds ranked s) as (r' & s' & E & H & Hh). exists r', s'. auto.
  - exists s. split; [reflexivity|apply extends_refl].
Qed.

Lemma slice_holds (limit : Z) (s : Shared.process) (r : Shared.ref) (l : list row) :
  holds_records s r l ->
  exists r' s', Shared.slice limit r s = (Ok r', s') /\ extends s s'
                /\ holds_records s' r' (slice_to limit l).
Proof.
  intros [<- Hr]. unfold Shared.slice.
  destruct (new_list_holds (slice_to limit (Shared.list_at (Shared.memory s) r)) s)
    as (r' & s' & E & H & Hh).
  exists r', s'. split; [exact E|]. split; [exact H|].
  unfold Shared.records_at. rewrite slice_to_map. exact Hh.
Qed.

Lemma list_copy_holds (s : Shared.process) (r : Shared.ref) (l : list row) :
  holds_records s r l ->
  exists r' s', Shared.list_copy r s = (Ok r', s') /\ extends s s' /\ holds_records s' r' l.
Proof.
  intros [<- Hr]. unfold Shared.list_copy.
  destruct (new_list_holds (Shared.list_at (Shared.memory s) r) s) as (r' & s' & E & H & Hh).
  exists r', s'. auto.
Qed.

Lemma len_holds (s : Shared.process) (r : Shared.ref) (l : list row) :
  holds_records s r l -> Shared.len r s = (Ok (length l), s).
Proof.
  intros [<- _]. unfold Shared.len, Shared.reading, Shared.records_at.
  rewrite length_map. reflexivity.
Qed.

Lemma and_then_returns {A B} (m : Shared.prog A) (k : A -> Shared.prog B)
    (s s' : Shared.process) (x : A) :
  m s = (Ok x, s') -> Shared.and_then m k s = k x s'.
Proof. intros E. unfold Shared.and_then. rewrite E. reflexivity. Qed.

Lemma and_then_raises {A B} (m : Shared.prog A) (k : A -> Shared.prog B)
    (s s' : Shared.process) (e : exn) :
  m s = (Raise e, s') -> Shared.and_then m k s = (Raise e, s').
Proof. intros E. unfold Shared.and_then. rewrite E. reflexivity. Qed.

(** ** The loader *)

Section Agreement.

Variable float_of_string : string -> option float.
Variable py_sum : list float -> float.

(** What the loop of the loader leaves unchanged: the cache, the file, every
    list object but [portfolio_data], and every dict object that existed. *)
Definition loading (portfolio_data : Shared.ref) (s s' : Shared.process) : Prop :=
  Shared.cache s' = Shared.cache s /\ Shared.disk s' = Shared.disk s
  /\ (Shared.next_ref (Shared.memory s) <= Shared.next_ref (Shared.memory s'))%nat
  /\ (forall r, r <> portfolio_data ->
        Shared.lists (Shared.memory s') !! r = Shared.lists (Shared.memory s) !! r)
  /\ (forall c, (c < Shared.next_ref (Shared.memory s))%nat ->
        Shared.dicts (Shared.memory s') !! c = Shared.dicts (Shared.memory s) !! c).

Lemma loading_refl (r0 : Shared.ref) (s : Shared.process) : loading r0 s s.
Proof. unfold loading. auto. Qed.

Lemma loading_trans (r0 : Shared.ref) (s s' s'' : Shared.process) :
  loading r0 s s' -> loading r0 s' s'' -> loading r0 s s''.
Proof.
  intros (C1 & D1 & N1 & L1 & E1) (C2 & D2 & N2 & L2 & E2). unfold loading.
  split; [congruence|]. split; [congruence|]. split; [lia|]. split.
  - intros r Hr. rewrite (L2 r Hr). exact (L1 r Hr).
  - intros c Hc. rewrite E2 by lia. exact (E1 c Hc).
Qed.

(** The item assignments of one row change the dict of that row only. *)
Definition assigning (d : Shared.ref) (s s' : Shared.process) : Prop :=
  Shared.cache s' = Shared.cache s /\ Shared.disk s' = Shared.disk s
  /\ Shared.next_ref (Shared.memory s') = Shared.next_ref (Shared.memory s)
  /\ Shared.lists (Shared.memory s') = Shared.lists (Shared.memory s)
  /\ (forall c, c <> d ->
        Shared.dicts (Shared.memory s') !! c = Shared.dicts (Shared.memory s) !! c).

Lemma assigning_refl (d : Shared.ref) (s : Shared.process) : assigning d s s.
Proof. unfold assigning. auto. Qed.

Lemma assigning_trans (d : Shared.ref) (s s' s'' : Shared.process) :
  assigning d s s' -> assigning d s' s'' -> assigning d s s''.
Proof.
  intros (C1 & D1 & N1 & L1 & E1) (C2 & D2 & N2 & L2 & E2). unfold assigning.
  split; [congruence|]. split; [congruence|]. split; [congruence|].
  split; [congruence|]. intros c Hc. rewrite (E2 c Hc). exact (E1 c Hc).
Qed.

Lemma modify_dict_runs (d : Shared.ref) (f : row -> result row) (s : Shared.process) :
  match f (Shared.dict_at (Shared.memory s) d) with
  | Ok r =>
      exists s', Shared.modify_dict d f s = (Ok tt, s')
                 /\ Shared.dict_at (Shared.memory s') d = r /\ assigning d s s'
  | Raise e => Shared.modify_dict d f s = (Raise e, s)
  end.
Proof.
  unfold Shared.modify_dict. cbn zeta.
  destruct (f (Shared.dict_at (Shared.memory s) d)) as [r|e]; [|reflexivity].
  eexists. split; [reflexivity|]. split.
  - unfold Shared.dict_at. cbn. rewrite lookup_insert_eq. reflexivity.
  - unfold assigning. cbn. repeat (split; [reflexivity|]).
    intros c Hc. apply lookup_insert_ne. congruence.
Qed.

Lemma convert_fields_runs (d : Shared.ref) (fields : list string) :
  forall s,
    match convert_numerics float_of_string fields (Shared.dict_at (Shared.memory s) d) with
    | Ok r =>
        exists s',
          Shared.for_each fields
            (fun field => Shared.modify_dict d
                            (fun x => convert_numeric float_of_string x field)) s
          = (Ok tt, s')
          /\ Shared.dict_at (Shared.memory s') d = r /\ assigning d s s'
    | Raise e =>
        exists s',
          Shared.for_each fields
            (fun field => Shared.modify_dict d
                            (fun x => convert_numeric float_of_string x field)) s
          = (Raise e, s')
          /\ assigning d s s'
    end.
Proof.
  induction fields as [|field fields IH]; intros s; cbn [convert_numerics Shared.for_each].
  - exists s. split; [reflexivity|]. split; [reflexivity|apply assigning_refl].
  - unfold Shared.and_then.
    pose proof (modify_dict_runs d (fun x => convert_numeric float_of_string x field) s) as H.
    cbn beta in H.
    destruct (convert_numeric float_of_string (Shared.dict_at (Shared.memory s) d) field)
      as [r1|e]; cbn [bind].
    + destruct H as (s1 & -> & E1 & A1). specialize (IH s1). rewrite E1 in IH.
      destruct (convert_numerics float_of_string fields r1) as [r|e].
      * destruct IH as (s' & -> & E & A). exists s'.
        split; [reflexivity|]. split; [exact E|exact (assigning_trans _ _ _ _ A1 A)].
      * destruct IH as (s' & -> & A). exists s'.
        split; [reflexivity|exact (assigning_trans _ _ _ _ A1 A)].
    + rewrite H. exists s. split; [reflexivity|apply assigning_refl].
Qed.

Lemma convert_row_runs (d : Shared.ref) (s : Shared.process) :
  match load_row float_of_string (Shared.dict_at (Shared.memory s) d) with
  | Ok r =>
      exists s', Shared.convert_row float_of_string d s = (Ok tt, s')
                 /\ Shared.dict_at (Shared.memory s') d = r /\ assigning d s s'
  | Raise e =>
      exists s', Shared.convert_row float_of_string d s = (Raise e, s') /\ assigning d s s'
  end.
Proof.
  unfold load_row, Shared.convert_row, Shared.and_then.
  pose proof (convert_fields_runs d numeric_fields s) as H.
  destruct (convert_numerics float_of_string numeric_fields
              (Shared.dict_at (Shared.memory s) d)) as [r1|e]; cbn [bind].
  - destruct H as (s1 & -> & E1 & A1).
    pose proof (modify_dict_runs d convert_boolean s1) as H. rewrite E1 in H.
    destruct (convert_boolean r1) as [r|e].
    + destruct H as (s' & -> & E & A). exists s'.
      split; [reflexivity|]. split; [exact E|exact (assigning_trans _ _ _ _ A1 A)].
    + rewrite H. exists s1. split; [reflexivity|exact A1].
  - destruct H as (s' & -> & A). exists s'. split; [reflexivity|exact A].
Qed.

(** One turn of the loop of the loader. *)
Definition load_one (portfolio_data : Shared.ref) (cells : row) : Shared.prog unit :=
  Shared.and_then (Shared.new_dict cells)
    (fun row => Shared.and_then (Shared.convert_row float_of_string row)
                  (fun _ => Shared.append portfolio_data row)).

Lemma load_one_runs (r0 : Shared.ref) (cells : row) (s : Shared.process) :
  (r0 < Shared.next_ref (Shared.memory s))%nat ->
  match load_row float_of_string cells with
  | Ok c =>
      exists s',
        load_one r0 cells s = (Ok tt, s')
        /\ Shared.list_at (Shared.memory s') r0
           = (Shared.list_at (Shared.memory s) r0 ++ [Shared.next_ref (Shared.memory s)])%list
        /\ Shared.dict_at (Shared.memory s') (Shared.next_ref (Shared.memory s)) = c
        /\ Shared.next_ref (Shared.memory s') = S (Shared.next_ref (Shared.memory s))
        /\ loading r0 s s'
  | Raise e =>
      exists s',
        load_one r0 cells s = (Raise e, s')
        /\ Shared.list_at (Shared.memory s') r0 = Shared.list_at (Shared.memory s) r0
        /\ loading r0 s s'
  end.
Proof.
  intros Hr. unfold load_one, Shared.and_then.
  set (d := Shared.next_ref (Shared.memory s)).
  destruct (Shared.new_dict cells s) as [res s1] eqn:E1.
  assert (H1 : res = Ok d /\ Shared.dict_at (Shared.memory s1) d = cells
               /\ Shared.next_ref (Shared.memory s1) = S d
               /\ Shared.lists (Shared.memory s1) = Shared.lists (Shared.memory s)
               /\ Shared.cache s1 = Shared.cache s /\ Shared.disk s1 = Shared.disk s
               /\ forall c, c <> d ->
                    Shared.dicts (Shared.memory s1) !! c = Shared.dicts (Shared.memory s) !! c).
  { unfold Shared.new_dict in E1. injection E1 as <- <-. cbn.
    split; [reflexivity|]. split.
    - unfold Shared.dict_at. cbn. rewrite lookup_insert_eq. reflexivity.
    - repeat (split; [reflexivity|]). intros c Hc. apply lookup_insert_ne.
      intros E. apply Hc. symmetry. exact E. }
  destruct H1 as (-> & Hd & Hn & Hl & Hc & Hf & Hother).
  pose proof (convert_row_runs d s1) as H. rewrite Hd in H.
  destruct (load_row float_of_string cells) as [c|e].
  - destruct H as (s2 & -> & E2 & (C2 & D2 & N2 & L2 & O2)).
    eexists. split; [reflexivity|]. cbn.
    split; [|split; [|split]].
    + unfold Shared.list_at. cbn. rewrite lookup_insert_eq.
      unfold Shared.list_at. rewrite L2, Hl. reflexivity.
    + exact E2.
    + rewrite N2, Hn. reflexivity.
    + unfold loading. cbn. split; [congruence|]. split; [congruence|].
      split; [fold d; lia|]. split.
      * intros r Hne. rewrite lookup_insert_ne by congruence. rewrite L2, Hl. reflexivity.
      * intros c0 Hc0. fold d in Hc0. rewrite O2 by lia. apply Hother. lia.
  - destruct H as (s2 & -> & (C2 & D2 & N2 & L2 & O2)).
    exists s2. split; [reflexivity|]. split.
    + unfold Shared.list_at. rewrite L2, Hl. reflexivity.
    + unfold loading. split; [congruence|]. split; [congruence|].
      split; [fold d; lia|]. split.
      * intros r _. rewrite L2, Hl. reflexivity.
      * intros c0 Hc0. fold d in Hc0. rewrite O2 by lia. apply Hother. lia.
Qed.

Lemma loading_dict_at (r0 : Shared.ref) (s s' : Shared.process) (c : Shared.ref) :
  loading r0 s s' -> (c < Shared.next_ref (Shared.memory s))%nat ->
  Shared.dict_at (Shared.memory s') c = Shared.dict_at (Shared.memory s) c.
Proof. intros (_ & _ & _ & _ & E) Hc. unfold Shared.dict_at. f_equal. exact (E c Hc). Qed.

Lemma load_loop_runs (r0 : Shared.ref) (rows : list row) :
  forall s,
    (r0 < Shared.next_ref (Shared.memory s))%nat ->
    (forall x, In x (Shared.list_at (Shared.memory s) r0) ->
               (x < Shared.next_ref (Shared.memory s))%nat) ->
    match mapM_result (load_row float_of_string) rows with
    | Ok data =>
        exists s',
          Shared.for_each rows (load_one r0) s = (Ok tt, s')
          /\ Shared.records_at (Shared.memory s') r0
             = (Shared.records_at (Shared.memory s) r0 ++ data)%list
          /\ loading r0 s s'
    | Raise e =>
        exists s', Shared.for_each rows (load_one r0) s = (Raise e, s') /\ loading r0 s s'
    end.
Proof.
  induction rows as [|cells rows IH]; intros s Hr Hacc; cbn [mapM_result Shared.for_each].
  - exists s. split; [reflexivity|]. split; [|apply loading_refl].
    rewrite app_nil_r. reflexivity.
  - unfold Shared.and_then.
    pose proof (load_one_runs r0 cells s Hr) as H1.
    destruct (load_row float_of_string cells) as [c|e]; cbn [bind].
    + destruct H1 as (s1 & -> & Hl & Hd & Hn & L1).
      assert (Hr1 : (r0 < Shared.next_ref (Shared.memory s1))%nat) by lia.
      assert (Hacc1 : forall x, In x (Shared.list_at (Shared.memory s1) r0) ->
                                (x < Shared.next_ref (Shared.memory s1))%nat).
      { intros x Hx. rewrite Hl in Hx. apply in_app_iff in Hx as [Hx|[<-|[]]]; [|lia].
        specialize (Hacc x Hx). lia. }
      assert (Hrec : Shared.records_at (Shared.memory s1) r0
                     = (Shared.records_at (Shared.memory s) r0 ++ [c])%list).
      { unfold Shared.records_at. rewrite Hl, map_app. cbn [map]. rewrite Hd. f_equal.
        apply map_ext_in. intros x Hx. apply (loading_dict_at r0 _ _ _ L1), Hacc, Hx. }
      specialize (IH s1 Hr1 Hacc1).
      destruct (mapM_result (load_row float_of_string) rows) as [data|e]; cbn [bind].
      * destruct IH as (s' & -> & Hrec' & L'). exists s'.
        split; [reflexivity|]. split; [|exact (loading_trans _ _ _ _ L1 L')].
        rewrite Hrec', Hrec, <- app_assoc. reflexivity.
      * destruct IH as (s' & -> & L'). exists s'.
        split; [reflexivity|exact (loading_trans _ _ _ _ L1 L')].
    + destruct H1 as (s1 & -> & _ & L1). exists s1. split; [reflexivity|exact L1].
Qed.

(** The loader over shared objects against the loader over values: the
    same exception, or a list object that holds the records returned, and
    the same cache and file afterwards. *)
Lemma load_agrees (s : Shared.process) :
  (Shared.cache s < Shared.next_ref (Shared.memory s))%nat ->
  match fst (load_portfolio_data float_of_string (world_of s)) with
  | Ok data =>
      exists d s',
        Shared.load_portfolio_data float_of_string s = (Ok d, s')
        /\ holds_records s' d data
        /\ world_of s' = snd (load_portfolio_data float_of_string (world_of s))
        /\ (Shared.cache s' < Shared.next_ref (Shared.memory s'))%nat
  | Raise e =>
      exists s',
        Shared.load_portfolio_data float_of_string s = (Raise e, s')
        /\ world_of s' = snd (load_portfolio_data float_of_string (world_of s))
        /\ (Shared.cache s' < Shared.next_ref (Shared.memory s'))%nat
  end.
Proof.
  intros Hc. unfold load_portfolio_data, Shared.load_portfolio_data.
  cbn [world_of portfolio_cache csv_rows].
  destruct (Shared.list_at (Shared.memory s) (Shared.cache s)) as [|c l] eqn:El.
  - assert (Hcr : Shared.cached_records s = []).
    { unfold Shared.cached_records, Shared.records_at. rewrite El. reflexivity. }
    rewrite Hcr. destruct (Shared.disk s) as [rows|] eqn:Ed.
    + destruct (new_list_extends [] s) as (s1 & E1 & X1 & Hl1 & Hn1).
      rewrite (and_then_returns _ _ _ _ _ E1).
      set (r0 := Shared.next_ref (Shared.memory s)) in *.
      assert (Hr0 : (r0 < Shared.next_ref (Shared.memory s1))%nat) by lia.
      pose proof (load_loop_runs r0 rows s1 Hr0) as H.
      rewrite Hl1 in H. specialize (H (fun x (Hx : In x []) => match Hx with end)).
      fold (load_one r0).
      destruct (mapM_result (load_row float_of_string) rows) as [data|e].
      * destruct H as (s2 & E2 & Hrec & (C2 & D2 & N2 & L2 & F2)).
        rewrite (and_then_returns _ _ _ _ _ E2).
        cbn [fst snd]. eexists. eexists. split; [reflexivity|].
        cbn [Shared.set_cache Shared.ret fst snd].
        assert (Hdata : Shared.records_at (Shared.memory s2) r0 = data).
        { rewrite Hrec. unfold Shared.records_at. rewrite Hl1. reflexivity. }
        split; [split; [exact Hdata|cbn; lia]|]. split; [|cbn; lia].
        unfold world_of, Shared.cached_records. cbn [Shared.cache Shared.memory Shared.disk].
        rewrite Hdata, D2. destruct X1 as (_ & D1 & _). rewrite D1, Ed. reflexivity.
      * destruct H as (s2 & E2 & (C2 & D2 & N2 & L2 & F2)).
        rewrite (and_then_raises _ _ _ _ _ E2).
        cbn [fst snd]. exists s2. split; [reflexivity|].
        destruct X1 as (C1 & D1 & _ & N1 & L1).
        assert (Hne : Shared.cache s <> r0) by (unfold r0; lia).
        split; [|rewrite C2, C1; lia].
        assert (Hl : Shared.list_at (Shared.memory s2) (Shared.cache s) = []).
        { rewrite <- El. unfold Shared.list_at. f_equal.
          etransitivity; [exact (L2 _ Hne)|exact (L1 _ Hc)]. }
        unfold world_of, Shared.cached_records, Shared.records_at.
        rewrite C2, C1, D2, D1, Ed, Hl, El. reflexivity.
    + destruct (new_list_holds [] s) as (r & s' & -> & X & Hh).
      cbn [fst snd]. exists r, s'. split; [reflexivity|]. split; [exact Hh|].
      destruct (extends_world s s' Hc X) as [W Hc']. split; [|exact Hc'].
      rewrite W. unfold world_of. rewrite Hcr, Ed. reflexivity.
  - assert (Hcr : Shared.cached_records s
                  = Shared.dict_at (Shared.memory s) c :: map (Shared.dict_at (Shared.memory s)) l).
    { unfold Shared.cached_records, Shared.records_at. rewrite El. reflexivity. }
    rewrite Hcr. cbn [fst snd]. exists (Shared.cache s), s. split; [reflexivity|].
    split; [split; [|exact Hc]|].
    + unfold Shared.records_at. rewrite El. reflexivity.
    + split; [|exact Hc]. reflexivity.
Qed.

(** ** The tools *)

Lemma agrees_let {A B A' B'} (R : Shared.process -> A -> B -> Prop)
    (R' : Shared.process -> A' -> B' -> Prop) (s : Shared.process)
    (m : Shared.prog A) (k : A -> Shared.prog A') (y : B) (p : result B') :
  agrees R s m (Ok y) ->
  (forall x s', extends s s' -> R s' x y -> agrees R' s' (k x) p) ->
  agrees R' s (Shared.and_then m k) p.
Proof.
  intros (x & s1 & E & X & Hx) Hk.
  exact (agrees_after R' s s1 m x k p E X (Hk x s1 X Hx)).
Qed.

Lemma reading_agrees {A} (f : Shared.store -> result A) (s : Shared.process) (p : result A) :
  f (Shared.memory s) = p -> agrees same s (Shared.reading f) p.
Proof.
  intros <-. unfold agrees, Shared.reading.
  destruct (f (Shared.memory s)) as [x|e].
  - exists x, s. split; [reflexivity|]. split; [apply extends_refl|reflexivity].
  - exists s. split; [reflexivity|apply extends_refl].
Qed.

(** A tool loads the data and runs its body: when the bodies agree, the
    response read back through the final store is the response over
    values, and the cache and the file are the same. *)
Lemma tool_agrees {A B} (read : Shared.process -> A -> B) (body : Shared.ref -> Shared.prog A)
    (pure_body : list row -> result B) (s : Shared.process) :
  (Shared.cache s < Shared.next_ref (Shared.memory s))%nat ->
  (forall s1 d data,
      holds_records s1 d data ->
      agrees (fun s' x y => read s' x = y) s1 (body d) (pure_body data)) ->
  let out := Shared.and_then (Shared.load_portfolio_data float_of_string) body s in
  let loaded := load_portfolio_data float_of_string (world_of s) in
  rmap (read (snd out)) (fst out) = bind (fst loaded) pure_body
  /\ world_of (snd out) = snd loaded.
Proof.
  intros Hc Hbody. cbv zeta. pose proof (load_agrees s Hc) as H.
  destruct (fst (load_portfolio_data float_of_string (world_of s))) as [data|e].
  - destruct H as (d & s1 & E & Hd & W & Hc1).
    rewrite (and_then_returns _ _ _ _ _ E). cbn [bind]. rewrite <- W.
    specialize (Hbody s1 d data Hd). unfold agrees in Hbody.
    destruct (pure_body data) as [y|e].
    + destruct Hbody as (x & s' & -> & X & <-). cbn [fst snd rmap].
      split; [reflexivity|]. exact (proj1 (extends_world s1 s' Hc1 X)).
    + destruct Hbody as (s' & -> & X). cbn [fst snd rmap].
      split; [reflexivity|]. exact (proj1 (extends_world s1 s' Hc1 X)).
  - destruct H as (s1 & E & W & _).
    rewrite (and_then_raises _ _ _ _ _ E). cbn [fst snd rmap bind].
    split; [reflexivity|exact W].
Qed.

(** *** query_sp500_portfolio *)

Lemma filter_step_agrees (supplied : bool) (p : row -> result bool) (s : Shared.process)
    (r : Shared.ref) (l : list row) :
  holds_records s r l ->
  agrees holds_records s (Shared.filter_step supplied p r) (filter_step supplied p l).
Proof.
  intros H. unfold Shared.filter_step, filter_step. destruct supplied.
  - apply comprehension_agrees, H.
  - apply agrees_ret, H.
Qed.

Lemma keep_agrees (b : row -> bool) (s : Shared.process) (r : Shared.ref) (l : list row) :
  holds_records s r l ->
  agrees holds_records s (Shared.comprehension (fun c => Ok (b c)) r) (Ok (List.filter b l)).
Proof.
  intros H. rewrite <- (filterM_ok (fun c => Ok (b c)) b l (fun c _ => eq_refl)).
  apply comprehension_agrees, H.
Qed.

Lemma imports_step_agrees (x : string) (s : Shared.process) (r : Shared.ref) (l : list row) :
  holds_records s r l ->
  agrees holds_records s (Shared.imports_step x r) (Ok (imports_step x l)).
Proof.
  intros H. unfold Shared.imports_step, imports_step.
  destruct (nonempty x); [|apply agrees_ret, H].
  destruct (String.eqb (lower x) "yes"); [apply keep_agrees, H|].
  destruct (String.eqb (lower x) "no"); [apply keep_agrees, H|apply agrees_ret, H].
Qed.

Lemma apply_filters_agrees (q : query_args) (s : Shared.process) (r : Shared.ref)
    (l : list row) :
  holds_records s r l ->
  agrees holds_records s (Shared.apply_filters float_of_string q r)
    (apply_filters float_of_string q l).
Proof.
  intros H. unfold Shared.apply_filters, apply_filters. cbv zeta.
  eapply agrees_bind; [apply filter_step_agrees, H|]. intros r1 l1 s1 _ H1. cbv beta.
  eapply agrees_bind; [apply filter_step_agrees, H1|]. intros r2 l2 s2 _ H2. cbv beta.
  eapply agrees_bind; [apply filter_step_agrees, H2|]. intros r3 l3 s3 _ H3. cbv beta.
  eapply agrees_let; [apply imports_step_agrees, H3|]. intros r4 s4 _ H4. cbv beta.
  eapply agrees_bind; [apply filter_step_agrees, H4|]. intros r5 l5 s5 _ H5. cbv beta.
  eapply agrees_bind; [apply filter_step_agrees, H5|]. intros r6 l6 s6 _ H6. cbv beta.
  eapply agrees_bind; [apply filter_step_agrees, H6|]. intros r7 l7 s7 _ H7. cbv beta.
  eapply agrees_bind; [apply filter_step_agrees, H7|]. intros r8 l8 s8 _ H8. cbv beta.
  apply filter_step_agrees, H8.
Qed.

Lemma sort_results_agrees (field : string) (descending : bool) (s : Shared.process)
    (r : Shared.ref) (l : list row) :
  holds_records s r l ->
  agrees holds_records s (Shared.sort_results float_of_string field descending r)
    (sort_results float_of_string field descending l).
Proof.
  intros H. unfold Shared.sort_results, sort_results.
  destruct (nonempty field && bool_decide (field ∈ sort_fields)).
  - apply sorted_list_agrees, H.
  - apply agrees_ret, H.
Qed.

(** The response over values that a response over shared objects stands
    for. *)
Definition read_query (s : Shared.process) (r : Shared.query_response) : query_response :=
  {| total_matches := Shared.total_matches r;
     returned_count := Shared.returned_count r;
     companies := Shared.records_at (Shared.memory s) (Shared.companies r) |}.

Lemma query_on_agrees (q : query_args) (s : Shared.process) (d : Shared.ref)
    (data : list row) :
  holds_records s d data ->
  agrees (fun s' x y => read_query s' x = y) s
    (Shared.query_on float_of_string q d) (query_on float_of_string q data).
Proof.
  intros H. unfold Shared.query_on, query_on.
  destruct (list_copy_holds s d data H) as (r0 & s0 & E0 & X0 & H0).
  eapply agrees_after; [exact E0|exact X0|].
  eapply agrees_bind; [apply apply_filters_agrees, H0|].
  intros r1 l1 s1 _ H1. cbv beta zeta.
  eapply agrees_after; [apply (len_holds _ _ _ H1)|apply extends_refl|].
  eapply agrees_bind; [apply sort_results_agrees, H1|].
  intros r2 l2 s2 _ H2. cbv beta.
  destruct (slice_holds (limit q) s2 r2 l2 H2) as (r3 & s3 & E3 & X3 & H3).
  eapply agrees_after; [exact E3|exact X3|].
  eapply agrees_after; [apply (len_holds _ _ _ H3)|apply extends_refl|].
  apply agrees_ret. unfold read_query. cbn. rewrite (proj1 H3). reflexivity.
Qed.

(** The query tool over shared objects returns, read back through the
    store it leaves, what the query tool over values returns. *)
Lemma query_agrees (q : query_args) (s : Shared.process) :
  (Shared.cache s < Shared.next_ref (Shared.memory s))%nat ->
  let out := Shared.query_sp500_portfolio float_of_string q s in
  rmap (read_query (snd out)) (fst out)
  = fst (query_sp500_portfolio float_of_string q (world_of s))
  /\ world_of (snd out) = snd (query_sp500_portfolio float_of_string q (world_of s)).
Proof.
  intros Hc.
  pose proof (tool_agrees read_query (Shared.query_on float_of_string q)
                (query_on float_of_string q) s Hc (query_on_agrees q)) as H.
  unfold query_sp500_portfolio, Shared.query_sp500_portfolio. cbv zeta in *.
  destruct (load_portfolio_data float_of_string (world_of s)) as [data w']. exact H.
Qed.

(** *** get_company_details *)

Definition found_is (s : Shared.process) (x : option Shared.ref) (y : option row) : Prop :=
  y = option_map (Shared.dict_at (Shared.memory s)) x.

Lemma first_where_agrees (p : row -> result bool) (s : Shared.process) (d : Shared.ref)
    (data : list row) :
  holds_records s d data ->
  agrees found_is s (Shared.first_where p d) (find_first p data).
Proof.
  intros [<- _]. unfold Shared.records_at. rewrite find_first_map.
  unfold agrees, Shared.first_where, Shared.reading.
  destruct (Shared.first_of _ _) as [x|e]; cbn [rmap].
  - exists x, s. split; [reflexivity|]. split; [apply extends_refl|reflexivity].
  - exists s. split; [reflexivity|apply extends_refl].
Qed.

Lemma not_company_reads (s : Shared.process) (x : option Shared.ref) :
  Shared.not_company x s
  = (Ok (not_company (option_map (Shared.dict_at (Shared.memory s)) x)), s).
Proof. destruct x; reflexivity. Qed.

Definition read_details (s : Shared.process) (r : Shared.details_response)
    : details_response :=
  match r with
  | Shared.details_error e => details_error e
  | Shared.details_not_found m => details_not_found m
  | Shared.details_success c m => details_success (Shared.dict_at (Shared.memory s) c) m
  end.

Lemma details_on_agrees (symbol name : string) (s : Shared.process) (d : Shared.ref)
    (data : list row) :
  holds_records s d data ->
  agrees (fun s' x y => read_details s' x = y) s
    (Shared.details_on float_of_string symbol name d)
    (details_on float_of_string symbol name data).
Proof.
  intros H. unfold Shared.details_on, details_on. cbv zeta.
  eapply (agrees_bind found_is).
  { destruct (nonempty symbol); [apply first_where_agrees, H|apply agrees_ret; reflexivity]. }
  intros x1 y1 s1 X1 E1. unfold found_is in E1. subst y1. cbv beta.
  eapply agrees_after; [apply not_company_reads|apply extends_refl|].
  pose proof (extends_holds_records _ _ _ _ X1 H) as H1.
  eapply (agrees_bind found_is).
  { destruct (not_company _ && nonempty name).
    - eapply (agrees_bind found_is); [apply first_where_agrees, H1|].
      intros f g s2 X2 E2. unfold found_is in E2. subst g. apply agrees_ret. unfold found_is.
      destruct f as [c|]; cbn [option_map]; [reflexivity|].
      destruct x1 as [c|]; cbn [option_map]; [|reflexivity].
      rewrite (extends_dict_at _ _ c X2). reflexivity.
    - apply agrees_ret. reflexivity. }
  intros x2 y2 s2 X2 E2. unfold found_is in E2. subst y2. cbv beta.
  eapply agrees_after; [apply not_company_reads|apply extends_refl|].
  destruct x2 as [c|]; cbn [option_map]; [|apply agrees_ret; reflexivity].
  destruct (not_company _); [apply agrees_ret; reflexivity|].
  eapply (agrees_bind same); [apply reading_agrees; reflexivity|].
  intros m m' s3 X3 E3. unfold same in E3. subst m'. apply agrees_ret. cbn [read_details].
  rewrite (extends_dict_at _ _ c X3). reflexivity.
Qed.

(** The lookup tool over shared objects returns, read back through the
    store it leaves, what the lookup tool over values returns. *)
Lemma details_agrees (symbol name : string) (s : Shared.process) :
  (Shared.cache s < Shared.next_ref (Shared.memory s))%nat ->
  let out := Shared.get_company_details float_of_string symbol name s in
  rmap (read_details (snd out)) (fst out)
  = fst (get_company_details float_of_string symbol name (world_of s))
  /\ world_of (snd out) = snd (get_company_details float_of_string symbol name (world_of s)).
Proof.
  intros Hc.
  pose proof (tool_agrees read_details (Shared.details_on float_of_string symbol name)
                (details_on float_of_string symbol name) s Hc
                (details_on_agrees symbol name)) as H.
  unfold get_company_details, Shared.get_company_details. cbv zeta in *.
  destruct (negb (nonempty symbol) && negb (nonempty name)).
  - cbn. split; reflexivity.
  - destruct (load_portfolio_data float_of_string (world_of s)) as [data w']. exact H.
Qed.

(** *** get_exposure_summary *)

Lemma count_level_agrees (level : string) (s : Shared.process) (d : Shared.ref)
    (data : list row) :
  holds_records s d data ->
  agrees same s (Shared.count_level level d) (count_level level data).
Proof.
  intros H. unfold Shared.count_level, count_level.
  eapply agrees_bind; [apply comprehension_agrees, H|].
  intros r l s1 _ H1. cbv beta.
  exists (length l), s1. split; [apply (len_holds _ _ _ H1)|].
  split; [apply extends_refl|reflexivity].
Qed.

(** A step that reads the store and creates nothing. *)
Ltac read_step H :=
  eapply (agrees_bind same);
  [apply reading_agrees; try rewrite (proj1 H); reflexivity|];
  let x := fresh "x" in
  let y := fresh "y" in
  let s := fresh "s" in
  let X := fresh "X" in
  let E := fresh "E" in
  intros x y s X E; unfold same in E; subst y;
  apply (extends_holds_records _ _ _ _ X) in H; cbv beta.

Ltac count_step H :=
  eapply (agrees_bind same); [apply count_level_agrees, H|];
  let x := fresh "x" in
  let y := fresh "y" in
  let s := fresh "s" in
  let X := fresh "X" in
  let E := fresh "E" in
  intros x y s X E; unfold same in E; subst y;
  apply (extends_holds_records _ _ _ _ X) in H; cbv beta.

Lemma summary_on_agrees (s : Shared.process) (d : Shared.ref) (data : list row) :
  holds_records s d data ->
  agrees same s (Shared.summary_on float_of_string py_sum d)
    (summary_on float_of_string py_sum data).
Proof.
  intros H. unfold Shared.summary_on, summary_on. cbv zeta.
  eapply agrees_after; [apply (len_holds _ _ _ H)|apply extends_refl|].
  read_step H. read_step H. read_step H.
  eapply agrees_let; [apply (keep_agrees (get_truthy "imports_into_us")), H|].
  intros importers sa Xa Hi. apply (extends_holds_records _ _ _ _ Xa) in H. cbv beta.
  eapply agrees_after; [apply (len_holds _ _ _ Hi)|apply extends_refl|].
  read_step H.
  count_step H. count_step H. count_step H. count_step H.
  read_step H. read_step H. read_step H.
  eapply agrees_bind; [apply sorted_list_agrees, H|].
  intros top top' sb _ Ht. cbv beta.
  destruct (slice_holds 10 sb top top' Ht) as (r3 & sc & Ec & Xc & H3).
  eapply agrees_after; [exact Ec|exact Xc|].
  eapply (agrees_bind same); [apply reading_agrees; reflexivity|].
  intros overall y sd Xd Ed. unfold same in Ed. subst y. cbv beta.
  apply (extends_holds_records _ _ _ _ Xd) in H3.
  eapply agrees_after; [reflexivity|apply extends_refl|].
  apply agrees_ret. unfold same. rewrite (proj1 H3). reflexivity.
Qed.

(** The summary tool over shared objects returns what the summary tool
    over values returns. *)
Lemma summary_agrees (s : Shared.process) :
  (Shared.cache s < Shared.next_ref (Shared.memory s))%nat ->
  let out := Shared.get_exposure_summary float_of_string py_sum s in
  fst out = fst (get_exposure_summary float_of_string py_sum (world_of s))
  /\ world_of (snd out) = snd (get_exposure_summary float_of_string py_sum (world_of s)).
Proof.
  intros Hc.
  pose proof (tool_agrees (fun _ x => x) (Shared.summary_on float_of_string py_sum)
                (summary_on float_of_string py_sum) s Hc summary_on_agrees) as H.
  unfold get_exposure_summary, Shared.get_exposure_summary. cbv zeta in *.
  destruct (load_portfolio_data float_of_string (world_of s)) as [data w'].
  destruct H as [H W]. split; [|exact W].
  etransitivity; [|exact H]. destruct (fst _); reflexivity.
Qed.

(** *** get_sector_analysis *)

(** The accumulator of a sector over values that an accumulator over
    shared objects stands for. *)
Definition read_data (s : Shared.process) (d : Shared.sector_data) : sector_data :=
  {| sd_companies := Shared.records_at (Shared.memory s) (Shared.sd_companies d);
     sd_total_investment := Shared.sd_total_investment d;
     sd_total_revenue := Shared.sd_total_revenue d;
     sd_total_cogs := Shared.sd_total_cogs d;
     sd_total_affected_cogs := Shared.sd_total_affected_cogs d;
     sd_importers_count := Shared.sd_importers_count d |}.

Definition read_entries (s : Shared.process) (l : list (value * Shared.sector_data))
    : list (value * sector_data) :=
  map (fun e => (fst e, read_data s (snd e))) l.

Definition lists_of (l : list (value * Shared.sector_data)) : list Shared.ref :=
  map (fun e => Shared.sd_companies (snd e)) l.

(** The accumulators have a list object each. *)
Definition accumulators (s : Shared.process) (l : list (value * Shared.sector_data)) : Prop :=
  List.NoDup (lists_of l)
  /\ Forall (fun r => (r < Shared.next_ref (Shared.memory s))%nat) (lists_of l).

(** The four numbers a turn of the grouping loop reads of a company. *)
Definition floats_of (c : row) : result (float * float * float * float) :=
  try! investment := get_float float_of_string "investment_usd" c in
  try! revenue := get_float float_of_string "revenue_usd" c in
  try! cogs := get_float float_of_string "cogs_usd" c in
  try! affected_pct := get_float float_of_string "affected_cogs_pct" c in
  Ok (investment, revenue, cogs, affected_pct).

Definition add_floats (c : row) (t : float * float * float * float) (d : sector_data)
    : sector_data :=
  let '(investment, revenue, cogs, affected_pct) := t in
  {| sd_companies := sd_companies d ++ [c];
     sd_total_investment := PrimFloat.add (sd_total_investment d) investment;
     sd_total_revenue := PrimFloat.add (sd_total_revenue d) revenue;
     sd_total_cogs := PrimFloat.add (sd_total_cogs d) cogs;
     sd_total_affected_cogs :=
       PrimFloat.add (sd_total_affected_cogs d) (PrimFloat.mul cogs affected_pct);
     sd_importers_count :=
       if get_truthy "imports_into_us" c
       then S (sd_importers_count d) else sd_importers_count d |}.

Definition add_floats_to (c : row) (t : float * float * float * float)
    (d : Shared.sector_data) : Shared.sector_data :=
  let '(investment, revenue, cogs, affected_pct) := t in
  {| Shared.sd_companies := Shared.sd_companies d;
     Shared.sd_total_investment := PrimFloat.add (Shared.sd_total_investment d) investment;
     Shared.sd_total_revenue := PrimFloat.add (Shared.sd_total_revenue d) revenue;
     Shared.sd_total_cogs := PrimFloat.add (Shared.sd_total_cogs d) cogs;
     Shared.sd_total_affected_cogs :=
       PrimFloat.add (Shared.sd_total_affected_cogs d) (PrimFloat.mul cogs affected_pct);
     Shared.sd_importers_count :=
       if get_truthy "imports_into_us" c
       then S (Shared.sd_importers_count d) else Shared.sd_importers_count d |}.

(** What a turn of the loop does to the accumulator of the sector. *)
Definition step_of (company : Shared.ref) (c : row) (d : Shared.sector_data)
    : Shared.prog Shared.sector_data :=
  Shared.and_then (Shared.append (Shared.sd_companies d) company) (fun _ =>
  Shared.and_then
    (Shared.reading (fun _ => get_float float_of_string "investment_usd" c))
    (fun investment =>
  Shared.and_then
    (Shared.reading (fun _ => get_float float_of_string "revenue_usd" c))
    (fun revenue =>
  Shared.and_then
    (Shared.reading (fun _ => get_float float_of_string "cogs_usd" c))
    (fun cogs =>
  Shared.and_then
    (Shared.reading (fun _ => get_float float_of_string "affected_cogs_pct" c))
    (fun affected_pct =>
  Shared.ret (add_floats_to c (investment, revenue, cogs, affected_pct) d)))))).

Definition appended (l x : Shared.ref) (s : Shared.process) : Shared.process :=
  snd (Shared.append l x s).

Lemma add_company_floats (sectors_data : list (value * sector_data)) (c : row) :
  add_company float_of_string sectors_data c
  = try! t := floats_of c in
    Ok (upsert (sector_key c) empty_sector_data (add_floats c t) sectors_data).
Proof.
  unfold add_company, floats_of.
  destruct (get_float float_of_string "investment_usd" c); [|reflexivity].
  destruct (get_float float_of_string "revenue_usd" c); [|reflexivity].
  destruct (get_float float_of_string "cogs_usd" c); [|reflexivity].
  destruct (get_float float_of_string "affected_cogs_pct" c); reflexivity.
Qed.

Lemma add_company_step (sectors_data : list (value * Shared.sector_data))
    (company : Shared.ref) (s : Shared.process) :
  Shared.add_company float_of_string sectors_data company s
  = Shared.upsert (sector_key (Shared.dict_at (Shared.memory s) company))
      Shared.empty_sector_data
      (step_of company (Shared.dict_at (Shared.memory s) company)) sectors_data s.
Proof. reflexivity. Qed.

Lemma step_of_runs (company : Shared.ref) (c : row) (d : Shared.sector_data)
    (s : Shared.process) :
  step_of company c d s
  = (rmap (fun t => add_floats_to c t d) (floats_of c),
     appended (Shared.sd_companies d) company s).
Proof.
  unfold step_of, floats_of.
  destruct (get_float float_of_string "investment_usd" c); [|reflexivity].
  destruct (get_float float_of_string "revenue_usd" c); [|reflexivity].
  destruct (get_float float_of_string "cogs_usd" c); [|reflexivity].
  destruct (get_float float_of_string "affected_cogs_pct" c); reflexivity.
Qed.

Lemma appended_records (l x : Shared.ref) (s : Shared.process) :
  Shared.records_at (Shared.memory (appended l x s)) l
  = (Shared.records_at (Shared.memory s) l ++ [Shared.dict_at (Shared.memory s) x])%list.
Proof.
  unfold Shared.records_at, appended, Shared.list_at. cbn.
  rewrite lookup_insert_eq. cbn. rewrite map_app. reflexivity.
Qed.

Lemma appended_other (l x r : Shared.ref) (s : Shared.process) :
  r <> l ->
  Shared.records_at (Shared.memory (appended l x s)) r
  = Shared.records_at (Shared.memory s) r.
Proof.
  intros Hne. unfold Shared.records_at, appended, Shared.list_at. cbn.
  rewrite lookup_insert_ne by congruence. reflexivity.
Qed.

Lemma read_data_ext (s s' : Shared.process) (d : Shared.sector_data) :
  Shared.records_at (Shared.memory s') (Shared.sd_companies d)
  = Shared.records_at (Shared.memory s) (Shared.sd_companies d) ->
  read_data s' d = read_data s d.
Proof. intros E. unfold read_data. rewrite E. reflexivity. Qed.

Lemma read_data_added (s s' : Shared.process) (c : row) (t : float * float * float * float)
    (d : Shared.sector_data) :
  Shared.records_at (Shared.memory s') (Shared.sd_companies d)
  = (Shared.records_at (Shared.memory s) (Shared.sd_companies d) ++ [c])%list ->
  read_data s' (add_floats_to c t d) = add_floats c t (read_data s d).
Proof.
  intros E. destruct t as [[[investment revenue] cogs] affected_pct].
  unfold read_data, add_floats, add_floats_to.
  cbn [Shared.sd_companies Shared.sd_total_investment Shared.sd_total_revenue
       Shared.sd_total_cogs Shared.sd_total_affected_cogs Shared.sd_importers_count
       sd_companies sd_total_investment sd_total_revenue sd_total_cogs
       sd_total_affected_cogs sd_importers_count].
  rewrite E. reflexivity.
Qed.

Lemma read_entries_ext (s s' : Shared.process) (l : list (value * Shared.sector_data)) :
  (forall r, In r (lists_of l) ->
     Shared.records_at (Shared.memory s') r = Shared.records_at (Shared.memory s) r) ->
  read_entries s' l = read_entries s l.
Proof.
  intros H. unfold read_entries. apply map_ext_in. intros e He.
  rewrite (read_data_ext s s'); [reflexivity|].
  apply H. unfold lists_of. apply in_map_iff. exists e. split; [reflexivity|exact He].
Qed.

(** The turn on a company whose four numbers are read. *)
Lemma upsert_runs (k : value) (company : Shared.ref) (c : row)
    (t : float * float * float * float) (s : Shared.process) :
  Shared.dict_at (Shared.memory s) company = c ->
  floats_of c = Ok t ->
  forall sectors_data,
    accumulators s sectors_data ->
    exists sectors_data' s',
      Shared.upsert k Shared.empty_sector_data (step_of company c) sectors_data s
      = (Ok sectors_data', s')
      /\ accumulators s' sectors_data'
      /\ read_entries s' sectors_data'
         = upsert k empty_sector_data (add_floats c t) (read_entries s sectors_data)
      /\ Shared.dicts (Shared.memory s') = Shared.dicts (Shared.memory s)
      /\ (lists_of sectors_data' = lists_of sectors_data
          \/ lists_of sectors_data'
             = (lists_of sectors_data ++ [Shared.next_ref (Shared.memory s)])%list)
      /\ (Shared.next_ref (Shared.memory s) <= Shared.next_ref (Shared.memory s'))%nat
      /\ forall r, (r < Shared.next_ref (Shared.memory s))%nat ->
           ~ In r (lists_of sectors_data) ->
           Shared.records_at (Shared.memory s') r = Shared.records_at (Shared.memory s) r.
Proof.
  intros Hc Hf. destruct t as [[[investment revenue] cogs] affected_pct].
  induction sectors_data as [|[k' v] l IH]; intros [Hnd Hlt].
  - cbn [Shared.upsert].
    destruct (new_list_extends [] s) as (s1 & E1 & X1 & Hl1 & Hn1).
    set (n0 := Shared.next_ref (Shared.memory s)) in *.
    set (d0 := {| Shared.sd_companies := n0;
                  Shared.sd_total_investment := zero;
                  Shared.sd_total_revenue := zero;
                  Shared.sd_total_cogs := zero;
                  Shared.sd_total_affected_cogs := zero;
                  Shared.sd_importers_count := 0%nat |}).
    assert (E0 : Shared.empty_sector_data s = (Ok d0, s1)).
    { unfold Shared.empty_sector_data. rewrite (and_then_returns _ _ _ _ _ E1). reflexivity. }
    rewrite (and_then_returns _ _ _ _ _ E0).
    pose proof (step_of_runs company c d0 s1) as E2. rewrite Hf in E2. cbn [rmap] in E2.
    rewrite (and_then_returns _ _ _ _ _ E2).
    eexists. eexists. split; [reflexivity|].
    assert (Hrec : Shared.records_at (Shared.memory (appended n0 company s1)) n0 = [c]).
    { rewrite appended_records. unfold Shared.records_at. rewrite Hl1. cbn [map app].
      rewrite (extends_dict_at _ _ company X1), Hc. reflexivity. }
    split; [|split; [|split; [|split; [|split]]]].
    + split.
      * cbn. constructor; [intros []|constructor].
      * cbn. constructor; [|constructor]. fold n0. lia.
    + cbn [read_entries map fst snd upsert]. do 2 f_equal.
      assert (Hd0 : read_data s1 d0 = empty_sector_data).
      { unfold read_data, d0, empty_sector_data, Shared.records_at.
        cbn [Shared.sd_companies]. rewrite Hl1. reflexivity. }
      rewrite <- Hd0. apply (read_data_added s1). unfold d0. cbn [Shared.sd_companies].
      rewrite Hrec. unfold Shared.records_at. rewrite Hl1. reflexivity.
    + destruct X1 as (_ & _ & D & _). exact D.
    + right. reflexivity.
    + cbn. cbn in Hn1. lia.
    + intros r Hr _. assert (Hne : r <> n0) by lia.
      etransitivity; [exact (appended_other n0 company r s1 Hne)|].
      apply (extends_records_at _ _ _ X1 Hr).
  - cbn [Shared.upsert read_entries map fst snd upsert].
    fold (read_entries s l).
    cbn [lists_of map snd] in Hnd, Hlt. fold (lists_of l) in Hnd, Hlt.
    apply List.NoDup_cons_iff in Hnd as [Hv Hnd].
    apply Forall_cons_iff in Hlt as [Hvlt Hlt].
    destruct (key_eqb k' k).
    + pose proof (step_of_runs company c v s) as E2. rewrite Hf in E2. cbn [rmap] in E2.
      rewrite (and_then_returns _ _ _ _ _ E2).
      eexists. eexists. split; [reflexivity|].
      split; [|split; [|split; [|split; [|split]]]].
      * split.
        -- cbn [lists_of map snd]. fold (lists_of l).
           cbn. apply List.NoDup_cons; assumption.
        -- cbn [lists_of map snd]. fold (lists_of l).
           cbn. constructor; assumption.
      * cbn [read_entries map fst snd]. fold (read_entries (appended (Shared.sd_companies v) company s) l).
        f_equal.
        -- f_equal. apply (read_data_added s). rewrite appended_records, Hc. reflexivity.
        -- apply read_entries_ext. intros r Hr. apply appended_other.
           intros ->. exact (Hv Hr).
      * reflexivity.
      * left. reflexivity.
      * cbn. lia.
      * intros r Hr Hnot. apply appended_other. intros ->. apply Hnot. left. reflexivity.
    + destruct (IH (conj Hnd Hlt)) as (l' & s' & E & [Hnd' Hlt'] & R & D & Hl' & Hn & Hfr).
      rewrite (and_then_returns _ _ _ _ _ E).
      eexists. eexists. split; [reflexivity|].
      split; [|split; [|split; [|split; [|split]]]].
      * split.
        -- cbn [lists_of map snd]. fold (lists_of l'). apply List.NoDup_cons; [|exact Hnd'].
           destruct Hl' as [->| ->]; [exact Hv|].
           intros Hin. apply in_app_iff in Hin as [Hin|[Hin|[]]]; [exact (Hv Hin)|lia].
        -- cbn [lists_of map snd]. fold (lists_of l'). constructor; [lia|exact Hlt'].
      * cbn [read_entries map fst snd]. fold (read_entries s' l'). f_equal; [|exact R].
        f_equal. apply read_data_ext. apply (Hfr _ Hvlt Hv).
      * exact D.
      * cbn [lists_of map snd]. fold (lists_of l') (lists_of l).
        destruct Hl' as [->| ->]; [left|right]; reflexivity.
      * exact Hn.
      * intros r Hr Hnot. apply (Hfr r Hr). intros Hin. apply Hnot. right. exact Hin.
Qed.

(** The turn on a company with a number that cannot be read: the company
    is appended, and the exception is raised. *)
Lemma upsert_raises (k : value) (company : Shared.ref) (c : row) (e : exn) :
  floats_of c = Raise e ->
  forall sectors_data s,
    exists s',
      Shared.upsert k Shared.empty_sector_data (step_of company c) sectors_data s
      = (Raise e, s').
Proof.
  intros Hf. induction sectors_data as [|[k' v] l IH]; intros s; cbn [Shared.upsert].
  - destruct (new_list_extends [] s) as (s1 & E1 & _).
    assert (E0 : exists d0, Shared.empty_sector_data s = (Ok d0, s1)).
    { eexists. unfold Shared.empty_sector_data.
      rewrite (and_then_returns _ _ _ _ _ E1). reflexivity. }
    destruct E0 as [d0 E0]. rewrite (and_then_returns _ _ _ _ _ E0).
    pose proof (step_of_runs company c d0 s1) as E2. rewrite Hf in E2. cbn [rmap] in E2.
    rewrite (and_then_raises _ _ _ _ _ E2). eexists. reflexivity.
  - destruct (key_eqb k' k).
    + pose proof (step_of_runs company c v s) as E2. rewrite Hf in E2. cbn [rmap] in E2.
      rewrite (and_then_raises _ _ _ _ _ E2). eexists. reflexivity.
    + destruct (IH s) as [s' E]. rewrite (and_then_raises _ _ _ _ _ E). eexists. reflexivity.
Qed.

Lemma add_company_runs (sectors_data : list (value * Shared.sector_data))
    (company : Shared.ref) (s : Shared.process) :
  accumulators s sectors_data ->
  match add_company float_of_string (read_entries s sectors_data)
          (Shared.dict_at (Shared.memory s) company) with
  | Ok grouped =>
      exists sectors_data' s',
        Shared.add_company float_of_string sectors_data company s = (Ok sectors_data', s')
        /\ accumulators s' sectors_data'
        /\ read_entries s' sectors_data' = grouped
        /\ Shared.dicts (Shared.memory s') = Shared.dicts (Shared.memory s)
  | Raise e =>
      exists s', Shared.add_company float_of_string sectors_data company s = (Raise e, s')
  end.
Proof.
  intros Ha. rewrite add_company_floats, add_company_step.
  destruct (floats_of (Shared.dict_at (Shared.memory s) company)) as [t|e] eqn:Hf; cbn [bind].
  - destruct (upsert_runs (sector_key (Shared.dict_at (Shared.memory s) company)) company _ t s
                eq_refl Hf sectors_data Ha) as (l' & s' & E & A & R & D & _).
    exists l', s'. split; [exact E|]. split; [exact A|]. split; [exact R|exact D].
  - apply (upsert_raises _ company _ e Hf).
Qed.

Lemma group_by_sector_runs (companies : list Shared.ref) :
  forall sectors_data s,
    accumulators s sectors_data ->
    match group_by_sector float_of_string (read_entries s sectors_data)
            (map (Shared.dict_at (Shared.memory s)) companies) with
    | Ok grouped =>
        exists sectors_data' s',
          Shared.group_by_sector float_of_string sectors_data companies s
          = (Ok sectors_data', s')
          /\ accumulators s' sectors_data'
          /\ read_entries s' sectors_data' = grouped
    | Raise e =>
        exists s',
          Shared.group_by_sector float_of_string sectors_data companies s = (Raise e, s')
    end.
Proof.
  induction companies as [|company companies IH]; intros l s Ha;
    cbn [map group_by_sector Shared.group_by_sector].
  - exists l, s. split; [reflexivity|]. split; [exact Ha|reflexivity].
  - pose proof (add_company_runs l company s Ha) as H1.
    destruct (add_company float_of_string (read_entries s l)
                (Shared.dict_at (Shared.memory s) company)) as [grouped|e]; cbn [bind].
    + destruct H1 as (l1 & s1 & E1 & A1 & R1 & D1).
      rewrite (and_then_returns _ _ _ _ _ E1).
      specialize (IH l1 s1 A1). rewrite R1 in IH.
      assert (Hd : map (Shared.dict_at (Shared.memory s1)) companies
                   = map (Shared.dict_at (Shared.memory s)) companies).
      { apply map_ext. intros c. unfold Shared.dict_at. rewrite D1. reflexivity. }
      rewrite Hd in IH. exact IH.
    + destruct H1 as (s1 & E1). rewrite (and_then_raises _ _ _ _ _ E1).
      exists s1. reflexivity.
Qed.

(** The summary of a sector over values that a summary over shared
    objects stands for. *)
Definition read_summary (s : Shared.process) (x : Shared.sector_summary) : sector_summary :=
  {| ss_sector := Shared.ss_sector x;
     company_count := Shared.company_count x;
     total_investment_usd := Shared.total_investment_usd x;
     total_revenue_usd := Shared.total_revenue_usd x;
     total_cogs_usd := Shared.total_cogs_usd x;
     total_affected_cogs_usd := Shared.total_affected_cogs_usd x;
     average_exposure_pct := Shared.average_exposure_pct x;
     importers_count := Shared.importers_count x;
     top_exposed_companies :=
       Shared.records_at (Shared.memory s) (Shared.top_exposed_companies x) |}.

Definition summary_is (s : Shared.process) (x : Shared.sector_summary) (y : sector_summary)
    : Prop :=
  read_summary s x = y
  /\ (Shared.top_exposed_companies x < Shared.next_ref (Shared.memory s))%nat.

Definition summaries_are (s : Shared.process) (xs : list Shared.sector_summary)
    (ys : list sector_summary) : Prop :=
  map (read_summary s) xs = ys
  /\ Forall (fun x => (Shared.top_exposed_companies x
                       < Shared.next_ref (Shared.memory s))%nat) xs.

Lemma summary_is_extends (s s' : Shared.process) (x : Shared.sector_summary)
    (y : sector_summary) :
  extends s s' -> summary_is s x y -> summary_is s' x y.
Proof.
  intros X [<- Hlt]. split.
  - unfold read_summary. rewrite (extends_records_at _ _ _ X Hlt). reflexivity.
  - pose proof (extends_next _ _ X). lia.
Qed.

Lemma summarize_agrees (s : Shared.process) (entry : value * Shared.sector_data) :
  (Shared.sd_companies (snd entry) < Shared.next_ref (Shared.memory s))%nat ->
  agrees summary_is s (Shared.summarize float_of_string entry)
    (summarize float_of_string (fst entry, read_data s (snd entry))).
Proof.
  destruct entry as [k d]. cbn [fst snd]. intros Hd.
  assert (H : holds_records s (Shared.sd_companies d)
                (Shared.records_at (Shared.memory s) (Shared.sd_companies d)))
    by (split; [reflexivity|exact Hd]).
  unfold Shared.summarize, summarize. cbv zeta.
  cbn [read_data sd_companies sd_total_investment sd_total_revenue sd_total_cogs
       sd_total_affected_cogs sd_importers_count].
  eapply (agrees_bind same); [apply reading_agrees; reflexivity|].
  intros avg y sa Xa Ea. unfold same in Ea. subst y. cbv beta.
  apply (extends_holds_records _ _ _ _ Xa) in H.
  eapply agrees_after; [apply (len_holds _ _ _ H)|apply extends_refl|].
  eapply agrees_bind; [apply sorted_list_agrees, H|].
  intros top top' sb _ Ht. cbv beta.
  destruct (slice_holds 5 sb top top' Ht) as (r & sc & Ec & Xc & [Hr Hlt]).
  eapply agrees_after; [exact Ec|exact Xc|].
  apply agrees_ret. split; [|exact Hlt].
  unfold read_summary. cbn. rewrite Hr. reflexivity.
Qed.

Lemma summarize_all_agrees (sectors_data : list (value * Shared.sector_data)) :
  forall s,
    Forall (fun r => (r < Shared.next_ref (Shared.memory s))%nat) (lists_of sectors_data) ->
    agrees summaries_are s (Shared.summarize_all float_of_string sectors_data)
      (mapM_result (summarize float_of_string) (read_entries s sectors_data)).
Proof.
  induction sectors_data as [|entry l IH]; intros s Hlt.
  - apply agrees_ret. split; constructor.
  - change (read_entries s (entry :: l))
      with ((fst entry, read_data s (snd entry)) :: read_entries s l).
    cbn [mapM_result Shared.summarize_all].
    change (lists_of (entry :: l)) with (Shared.sd_companies (snd entry) :: lists_of l) in Hlt.
    apply Forall_cons_iff in Hlt as [He Hlt].
    eapply agrees_bind; [apply summarize_agrees, He|].
    intros x y sa Xa Hx. cbv beta.
    assert (Hlt' : Forall (fun r => (r < Shared.next_ref (Shared.memory sa))%nat)
                     (lists_of l)).
    { eapply List.Forall_impl; [|exact Hlt]. cbv beta. intros r Hr.
      pose proof (extends_next _ _ Xa). lia. }
    assert (Hre : read_entries sa l = read_entries s l).
    { apply read_entries_ext. intros r Hr. apply (extends_records_at _ _ _ Xa).
      rewrite List.Forall_forall in Hlt. exact (Hlt r Hr). }
    rewrite <- Hre.
    eapply agrees_bind; [apply IH, Hlt'|].
    intros xs ys sb Xb [Hxs Hall]. cbv beta.
    apply agrees_ret. destruct (summary_is_extends _ _ _ _ Xb Hx) as [Hy Hy'].
    split.
    + cbn [map]. rewrite Hy, Hxs. reflexivity.
    + constructor; [exact Hy'|exact Hall].
Qed.

Lemma accumulators_nil (s : Shared.process) : accumulators s [].
Proof. split; constructor. Qed.

Lemma by_sector_runs (s : Shared.process) (d : Shared.ref) (data : list row) :
  holds_records s d data ->
  match by_sector float_of_string data with
  | Ok ys =>
      exists xs s',
        Shared.by_sector float_of_string d s = (Ok xs, s')
        /\ map (read_summary s') xs = ys
  | Raise e => exists s', Shared.by_sector float_of_string d s = (Raise e, s')
  end.
Proof.
  intros [Hd _]. unfold by_sector, Shared.by_sector.
  assert (E0 : Shared.reading (fun m => Ok (Shared.list_at m d)) s
               = (Ok (Shared.list_at (Shared.memory s) d), s)) by reflexivity.
  rewrite (and_then_returns _ _ _ _ _ E0).
  pose proof (group_by_sector_runs (Shared.list_at (Shared.memory s) d) [] s
                (accumulators_nil s)) as H1.
  change (read_entries s []) with (@nil (value * sector_data)) in H1.
  change (map (Shared.dict_at (Shared.memory s)) (Shared.list_at (Shared.memory s) d))
    with (Shared.records_at (Shared.memory s) d) in H1.
  rewrite Hd in H1.
  destruct (group_by_sector float_of_string [] data) as [grouped|e]; cbn [bind].
  - destruct H1 as (l1 & s1 & E1 & [_ A1] & R1).
    rewrite (and_then_returns _ _ _ _ _ E1).
    pose proof (summarize_all_agrees l1 s1 A1) as H2. rewrite R1 in H2.
    unfold agrees in H2.
    destruct (mapM_result (summarize float_of_string) grouped) as [ys|e]; cbn [bind].
    + destruct H2 as (xs & s2 & E2 & _ & [Hxs _]).
      rewrite (and_then_returns _ _ _ _ _ E2). subst ys.
      rewrite (sorted_map (read_summary s2) (fun x => Ok (total_investment_usd x)) true xs).
      unfold Shared.reading. cbn [Shared.memory].
      change (fun x => Ok (total_investment_usd (read_summary s2 x)))
        with (fun x => @Ok float (Shared.total_investment_usd x)).
      destruct (sorted _ true xs) as [zs|e]; cbn [rmap].
      * exists zs, s2. split; reflexivity.
      * exists s2. reflexivity.
    + destruct H2 as (s2 & E2 & _).
      rewrite (and_then_raises _ _ _ _ _ E2). exists s2. reflexivity.
  - destruct H1 as (s1 & E1). rewrite (and_then_raises _ _ _ _ _ E1).
    exists s1. reflexivity.
Qed.

Lemma by_sector_agrees (s : Shared.process) (d : Shared.ref) (data : list row) :
  holds_records s d data ->
  agrees (fun s' xs ys => map (read_summary s') xs = ys) s
    (Shared.by_sector float_of_string d) (by_sector float_of_string data).
Proof.
  intros H. pose proof (by_sector_runs s d data H) as Hrun.
  pose proof (proj1 (Shared.keeps_by_sector float_of_string
                       (Shared.next_ref (Shared.memory s)) d s (Nat.le_refl _))) as X.
  unfold agrees. destruct (by_sector float_of_string data) as [ys|e].
  - destruct Hrun as (xs & s' & E & Hxs). rewrite E in X.
    exists xs, s'. split; [exact E|]. split; [exact X|exact Hxs].
  - destruct Hrun as (s' & E). rewrite E in X. exists s'. split; [exact E|exact X].
Qed.

Definition read_sector (s : Shared.process) (r : Shared.sector_response) : sector_response :=
  match r with
  | Shared.sector_not_found m => sector_not_found m
  | Shared.sector_success n sums => sector_success n (map (read_summary s) sums)
  end.

Lemma sector_on_agrees (name : string) (s : Shared.process) (d : Shared.ref)
    (data : list row) :
  holds_records s d data ->
  agrees (fun s' x y => read_sector s' x = y) s
    (Shared.sector_on float_of_string name d) (sector_on float_of_string name data).
Proof.
  intros H. unfold Shared.sector_on, sector_on.
  eapply agrees_bind; [apply filter_step_agrees, H|].
  intros r l sa _ Hl. cbv beta.
  eapply agrees_after; [apply (len_holds _ _ _ Hl)|apply extends_refl|].
  assert (Hb : bool_decide (length l = 0%nat) = bool_decide (l = [])).
  { apply bool_decide_ext. destruct l; cbn; split; intros E; try discriminate E; reflexivity. }
  rewrite Hb.
  destruct (nonempty name && bool_decide (l = [])).
  - apply agrees_ret. reflexivity.
  - eapply agrees_bind; [apply by_sector_agrees, Hl|].
    intros xs ys sb _ Hxs. cbv beta. apply agrees_ret.
    cbn [read_sector]. rewrite <- Hxs, length_map. reflexivity.
Qed.

(** The sector analysis over shared objects returns, read back through
    the store it leaves, what the sector analysis over values returns. *)
Lemma sector_agrees (name : string) (s : Shared.process) :
  (Shared.cache s < Shared.next_ref (Shared.memory s))%nat ->
  let out := Shared.get_sector_analysis float_of_string name s in
  rmap (read_sector (snd out)) (fst out)
  = fst (get_sector_analysis float_of_string name (world_of s))
  /\ world_of (snd out) = snd (get_sector_analysis float_of_string name (world_of s)).
Proof.
  intros Hc.
  pose proof (tool_agrees read_sector (Shared.sector_on float_of_string name)
                (sector_on float_of_string name) s Hc (sector_on_agrees name)) as H.
  unfold get_sector_analysis, Shared.get_sector_analysis. cbv zeta in *.
  destruct (load_portfolio_data float_of_string (world_of s)) as [data w']. exact H.
Qed.

End Agreement.

(** * A sample dataset

    The two built-ins are instantiated to run the tools.  [float_of_digits]
    reads a fragment of what [float] reads: the words [inf] and [nan], and a
    plain decimal numeral of at most 15 digits, for which the quotient below
    is the correctly rounded value [float] returns.  It answers [None] on
    every other text; of those, the examples only use texts that [float]
    rejects as well (the empty text, [n/a]).  [sum_left] adds from left to
    right, starting from zero. *)

Definition digit (c : ascii) : option Z :=
  let n := N_of_ascii c in
  if ((48 <=? n) && (n <=? 57))%N then Some (Z.of_N (n - 48)) else None.

Fixpoint digits (acc : Z) (s : string) : option Z :=
  match s with
  | EmptyString => Some acc
  | String c s' =>
      match digit c with
      | Some d => digits (10 * acc + d) s'
      | None => None
      end
  end.

Fixpoint split_point (s : string) : string * option string :=
  match s with
  | EmptyString => (EmptyString, None)
  | String c s' =>
      if Ascii.eqb c "." then (EmptyString, Some s')
      else let (a, b) := split_point s' in (String c a, b)
  end.

Definition float_of_Z (n : Z) : float := PrimFloat.of_uint63 (Uint63.of_Z n).

Definition float_of_digits (s : string) : option float :=
  if String.eqb (lower s) "inf" then Some infinity
  else if String.eqb (lower s) "nan" then Some nan
  else
    let (int_part, frac) := split_point s in
    let frac_part := default "" frac in
    let n := (String.length int_part + String.length frac_part)%nat in
    if (n =? 0)%nat then None
    else if (15 <? n)%nat then None
    else
      match digits 0 (int_part +:+ frac_part) with
      | Some m =>
          Some (PrimFloat.div (float_of_Z m)
                  (float_of_Z (10 ^ Z.of_nat (String.length frac_part))))
      | None => None
      end.

Definition sum_left (l : list float) : float := fold_left PrimFloat.add l zero.

(** A row as [csv.DictReader] yields it, and the record the loader makes of
    it. *)
Definition csv_row (ticker name sector industry level imports
                    investment revenue cogs pct : string) : row :=
  list_to_map
    [("ticker", VStr ticker); ("company_name", VStr name); ("sector", VStr sector);
     ("industry", VStr industry); ("exposure_level", VStr level);
     ("imports_into_us", VStr imports); ("investment_usd", VStr investment);
     ("revenue_usd", VStr revenue); ("cogs_usd", VStr cogs);
     ("gross_margin_pct", VStr "0.5"); ("fiscal_year", VStr "2024");
     ("affected_cogs_pct", VStr pct); ("confidence", VStr "0.75")].

Definition record (ticker name sector industry level : string) (imports : bool)
    (investment revenue cogs pct : float) : row :=
  list_to_map
    [("ticker", VStr ticker); ("company_name", VStr name); ("sector", VStr sector);
     ("industry", VStr industry); ("exposure_level", VStr level);
     ("imports_into_us", VBool imports); ("investment_usd", VFloat investment);
     ("revenue_usd", VFloat revenue); ("cogs_usd", VFloat cogs);
     ("gross_margin_pct", VFloat 0.5); ("fiscal_year", VFloat 2024);
     ("affected_cogs_pct", VFloat pct); ("confidence", VFloat 0.75)].

Definition csv : list row :=
  [csv_row "APEX0" "ApexTech" "Information Technology" "Software" "High" "TRUE"
     "1000" "5000" "2000" "0.25";
   csv_row "BORE1" "Borealis Foods" "Consumer Staples" "Food" "low" "false"
     "500" "3000" "0" "0.5";
   csv_row "CIND2" "Cinder Tech" "information technology" "Hardware" "Severe" "True"
     "250" "800" "400" "0.75"].

Definition apex : row :=
  record "APEX0" "ApexTech" "Information Technology" "Software" "High" true
    1000 5000 2000 0.25.

Definition borealis : row :=
  record "BORE1" "Borealis Foods" "Consumer Staples" "Food" "low" false
    500 3000 0 0.5.

Definition cinder : row :=
  record "CIND2" "Cinder Tech" "information technology" "Hardware" "Severe" true
    250 800 400 0.75.

Definition portfolio : list row := [apex; borealis; cinder].

(** The process before the first load and after it. *)
Definition cold_world : world := {| portfolio_cache := []; csv_rows := Some csv |}.
Definition warm_world : world := {| portfolio_cache := portfolio; csv_rows := Some csv |}.

(** The same two processes with their objects: before the first load the
    module-level list is empty; after it the cache is a list of three dict
    objects. *)
Definition cold_process : Shared.process :=
  {| Shared.memory := {| Shared.lists := {[ 0%nat := [] ]}; Shared.dicts := ∅;
                         Shared.next_ref := 1%nat |};
     Shared.cache := 0%nat;
     Shared.disk := Some csv |}.

Definition warm_process : Shared.process :=
  {| Shared.memory :=
       {| Shared.lists := {[ 0%nat := []; 1%nat := [2%nat; 3%nat; 4%nat] ]};
          Shared.dicts := {[ 2%nat := apex; 3%nat := borealis; 4%nat := cinder ]};
          Shared.next_ref := 5%nat |};
     Shared.cache := 1%nat;
     Shared.disk := Some csv |}.

(** A query with every criterion unset. *)
Definition any_company (limit : Z) : query_args :=
  {| sector := ""; industry := ""; exposure_level := ""; imports_filter := "";
     min_revenue := 0; max_revenue := 0; min_affected_cogs_pct := 0;
     company_name := ""; ticker := ""; limit := limit; sort_by := ""; sort_desc := true |}.

(** The importers of the information technology sector with a revenue of at
    least 500, by revenue. *)
Definition it_importers : query_args :=
  {| sector := "information TECHNOLOGY"; industry := ""; exposure_level := "";
     imports_filter := "Yes";
     min_revenue := 500; max_revenue := 0; min_affected_cogs_pct := 0;
     company_name := ""; ticker := ""; limit := 20;
     sort_by := "revenue_usd"; sort_desc := true |}.

(** A row whose revenue cell is empty and whose other numeric cells read as
    an infinity, NaN and no number. *)
Definition blank_row : row :=
  csv_row "BLNK3" "Blank Corp" "Energy" "Oil" "low" "FALSE" "n/a" "" "inf" "nan".



(** A line shorter than the header: the reader fills the missing cells with
    [None], and the loader raises on [None.upper()]. *)
Definition short_row : row :=
  list_to_map [("ticker", VStr "SHRT4"); ("company_name", VStr "Short Ltd");
               ("imports_into_us", VNone)].

Definition broken_world : world :=
  {| portfolio_cache := []; csv_rows := Some [short_row] |}.

(** * The tools on the sample dataset *)

(** An equation between closed terms, checked by evaluating both sides. *)
Ltac evaluate :=
  match goal with
  | |- ?lhs = ?rhs => vm_cast_no_check (@eq_refl _ rhs)
  end.

Example lower_upper_examples :
  lower "Information Technology" = "information technology"
  /\ upper "apex0" = "APEX0"
  /\ py_in "tech" "apextech" = true /\ py_in "x" "" = false.
Proof. repeat split; reflexivity. Qed.

(** The first load turns the rows of the file into the cached records. *)
Example first_load :
  load_portfolio_data float_of_digits cold_world = (Ok portfolio, warm_world).
Proof. evaluate. Qed.

Example csv_loadable : forallb (loadable_row float_of_digits) csv = true.
Proof. evaluate. Qed.

Lemma portfolio_records : forallb company_record portfolio = true.
Proof. evaluate. Qed.

Lemma warm_world_loaded :
  fst (load_portfolio_data float_of_digits warm_world) = Ok portfolio.
Proof. reflexivity. Qed.

(** Outside the data model: the record made of [blank_row] keeps the empty
    text as its revenue, and a revenue bound then raises. *)
Example empty_cell_raises_in_query :
  (try! c := load_row float_of_digits blank_row in
   try! r := query_on float_of_digits
               {| sector := ""; industry := ""; exposure_level := ""; imports_filter := "";
                  min_revenue := 1; max_revenue := 0; min_affected_cogs_pct := 0;
                  company_name := ""; ticker := ""; limit := 20; sort_by := "";
                  sort_desc := true |} [c] in
   Ok (total_matches r))
  = Raise ValueError.
Proof. evaluate. Qed.

(** Where the load raises, a lookup raises with it, but the validation of
    the identifiers answers before any load. *)
Example validation_precedes_load :
  fst (load_portfolio_data float_of_digits broken_world) = Raise AttributeError
  /\ fst (get_company_details float_of_digits "SHRT4" "" broken_world)
     = Raise AttributeError
  /\ get_company_details float_of_digits "" "" broken_world
     = (Ok (details_error "Must provide either ticker or company_name"), broken_world).
Proof. split; [evaluate|]. split; [evaluate|reflexivity]. Qed.

(** ** Witnesses and counterexamples *)



(** C2 fails on [blank_row]: after the load its revenue is still the empty
    text, and its cogs, read from [inf], is not finite. *)
Lemma empty_numeric_cell_stays_text :
  In "revenue_usd" numeric_fields /\ In "cogs_usd" numeric_fields
  /\ (try! c := load_row float_of_digits blank_row in
      Ok (c !! "revenue_usd", c !! "cogs_usd"))
     = Ok (Some (VStr ""), Some (VFloat infinity))
  /\ is_finite infinity = false.
Proof.
  split; [cbn; auto 10|]. split; [cbn; auto 10|]. split; [evaluate|reflexivity].
Qed.

(** The metrics of APEX0: cogs 2000, a quarter of it affected, an importer. *)
Lemma calculated_metrics_witness :
  fst (get_company_details float_of_digits "apex0" "" warm_world)
  = Ok (details_success apex (metrics_of apex))
  /\ potential_tariff_impact_usd (metrics_of apex) = 125%float
  /\ exposure_risk_score (metrics_of apex) = 0.25%float.
Proof.
  assert (H : fst (get_company_details float_of_digits "apex0" "" warm_world)
              = Ok (details_success apex (metrics_of apex))) by evaluate.
  destruct (calculated_metrics_exact float_of_digits "apex0" "" warm_world
              apex (metrics_of apex) H)
    as (revenue & cogs & pct & _ & Ec & Ep & _ & _ & Hp & _ & _ & _ & Hs & _).
  assert (E1 : get_float float_of_digits "cogs_usd" apex = Ok 2000%float) by evaluate.
  assert (E2 : get_float float_of_digits "affected_cogs_pct" apex = Ok 0.25%float)
    by evaluate.
  rewrite E1 in Ec. injection Ec as <-. rewrite E2 in Ep. injection Ep as <-.
  split; [exact H|]. split.
  - rewrite Hp. evaluate.
  - apply Hs. evaluate.
Defined.

(** A row whose affected share reads as an infinity, of a company that
    does not import. *)
Definition unbounded_row : row :=
  csv_row "INFX9" "Infinite Corp" "Energy" "Oil" "low" "FALSE" "1" "1" "1" "inf".

Definition unbounded_world : world :=
  {| portfolio_cache := []; csv_rows := Some [unbounded_row] |}.

(** C3 fails on [unbounded_row]: the company is found, it does not import,
    and its risk score is NaN, not zero. *)
Lemma non_importer_score_is_nan :
  (try! r := fst (get_company_details float_of_digits "INFX9" "" unbounded_world) in
   Ok (match r with
       | details_success c m =>
           Some (c !! "ticker", imports c, c !! "affected_cogs_pct",
                 exposure_risk_score m, PrimFloat.eqb (exposure_risk_score m) zero)
       | _ => None
       end))
  = Ok (Some (Some (VStr "INFX9"), false, Some (VFloat infinity), nan, false)).
Proof. evaluate. Qed.

(** The filter on the sample portfolio keeps APEX0 and CIND2, in this order. *)
Lemma apply_filters_conjunction_witness :
  forallb company_record portfolio = true
  /\ apply_filters float_of_digits it_importers portfolio
     = Ok (List.filter (satisfies it_importers) portfolio)
  /\ List.filter (satisfies it_importers) portfolio = [apex; cinder].
Proof.
  split; [exact portfolio_records|]. split.
  - exact (proj1 (apply_filters_conjunction float_of_digits it_importers portfolio)
             portfolio_records).
  - evaluate.
Defined.



(** A ticker match wins over a name match; the name is used when the ticker
    matches nothing; and nothing found is [not_found]. *)
Lemma lookup_order_witness :
  forallb company_record portfolio = true
  /\ fst (get_company_details float_of_digits "bore1" "tech" warm_world)
     = Ok (details_success borealis (metrics_of borealis))
  /\ fst (get_company_details float_of_digits "none" "tech" warm_world)
     = Ok (details_success apex (metrics_of apex))
  /\ fst (get_company_details float_of_digits "none" "nowhere" warm_world)
     = Ok (details_not_found "No company found matching ticker='none' or name='nowhere'").
Proof.
  split; [exact portfolio_records|]. split; [|split].
  - destruct (lookup_order float_of_digits "bore1" "tech" warm_world portfolio
                warm_world_loaded eq_refl) as (_ & _ & Hrec).
    destruct (Hrec portfolio_records) as (A & _ & _).
    apply A. evaluate.
  - destruct (lookup_order float_of_digits "none" "tech" warm_world portfolio
                warm_world_loaded eq_refl) as (_ & _ & Hrec).
    destruct (Hrec portfolio_records) as (_ & B & _).
    apply B; evaluate.
  - destruct (lookup_order float_of_digits "none" "nowhere" warm_world portfolio
                warm_world_loaded eq_refl) as (_ & _ & Hrec).
    destruct (Hrec portfolio_records) as (_ & _ & C).
    apply C; evaluate.
Defined.

(** The sample file followed by the row with the empty revenue cell. *)
Definition blank_world : world :=
  {| portfolio_cache := []; csv_rows := Some (csv ++ [blank_row])%list |}.

(** C7 fails on [blank_world]: the row of BLNK3 is loaded, its ticker
    matches, and the lookup raises instead of returning it; companies
    before it are still found. *)
Lemma matching_record_raises :
  (try! data := fst (load_portfolio_data float_of_digits blank_world) in
   Ok (length data,
       option_map (fun c => (c !! "ticker", c !! "revenue_usd"))
         (List.find (ticker_matches "blnk3") data)))
  = Ok (4%nat, Some (Some (VStr "BLNK3"), Some (VStr "")))
  /\ fst (get_company_details float_of_digits "blnk3" "" blank_world) = Raise ValueError
  /\ fst (get_company_details float_of_digits "apex0" "" blank_world)
     = Ok (details_success apex (metrics_of apex)).
Proof. split; [evaluate|]. split; evaluate. Qed.

(** CIND2 has the level Severe: it is in no bucket and in the totals. *)
Lemma exposure_breakdown_witness :
  forallb company_record portfolio = true
  /\ exists e,
       fst (get_exposure_summary float_of_digits sum_left warm_world) = Ok e
       /\ (eb_high (exposure_level_breakdown e), eb_medium (exposure_level_breakdown e),
           eb_low (exposure_level_breakdown e), eb_none (exposure_level_breakdown e))
          = (1%nat, 0%nat, 1%nat, 0%nat)
       /\ total_companies (overview e) = 3%nat
       /\ po_total_investment_usd (overview e) = 1750%float.
Proof.
  split; [exact portfolio_records|].
  destruct (exposure_breakdown_bounded float_of_digits sum_left warm_world portfolio
              warm_world_loaded) as [Hany Hrec].
  destruct (Hrec portfolio_records) as (e & He & Hi & _).
  destruct (Hany e He) as (H1 & H2 & H3 & H4 & _ & _ & Hn & _).
  exists e. split; [exact He|]. split; [|split].
  - rewrite H1, H2, H3, H4. evaluate.
  - rewrite Hn. reflexivity.
  - rewrite Hi. evaluate.
Defined.

(** [maybe] as [imports_filter] is the empty filter. *)
Lemma unrecognized_imports_filter_witness :
  nonempty "maybe" = true /\ lower "maybe" <> "yes" /\ lower "maybe" <> "no"
  /\ query_sp500_portfolio float_of_digits (with_imports_filter "maybe" it_importers)
       warm_world
     = query_sp500_portfolio float_of_digits (with_imports_filter "" it_importers)
         warm_world.
Proof.
  split; [reflexivity|]. split; [discriminate|]. split; [discriminate|].
  apply (unrecognized_imports_filter_ignored float_of_digits it_importers "maybe"
           warm_world); [reflexivity|discriminate|discriminate].
Defined.

(** C10 on the sample portfolio: the four tools leave the populated cache
    of three records as it was. *)
Lemma populated_cache_witness :
  Shared.cached_records warm_process = portfolio
  /\ Shared.unchanged warm_process
       (snd (Shared.query_sp500_portfolio float_of_digits it_importers warm_process))
  /\ Shared.unchanged warm_process
       (snd (Shared.get_company_details float_of_digits "cind2" "" warm_process))
  /\ Shared.unchanged warm_process
       (snd (Shared.get_sector_analysis float_of_digits "" warm_process))
  /\ Shared.unchanged warm_process
       (snd (Shared.get_exposure_summary float_of_digits sum_left warm_process)).
Proof.
  split; [evaluate|].
  apply (Shared.populated_cache_unchanged float_of_digits sum_left warm_process
           it_importers "cind2" "" "").
  - unfold Shared.populated. vm_compute. discriminate.
  - vm_compute. lia.
Defined.

(** C10 as stated fails for the first call of a process: the loader it
    runs makes [_portfolio_cache] another list object, and the cached
    sequence goes from empty to the three records of the file. *)
Lemma first_call_populates_cache :
  Shared.cached_records cold_process = []
  /\ Shared.cached_records
       (snd (Shared.get_exposure_summary float_of_digits sum_left cold_process))
     = portfolio
  /\ ~ Shared.unchanged cold_process
         (snd (Shared.get_exposure_summary float_of_digits sum_left cold_process)).
Proof.
  split; [evaluate|]. split; [evaluate|].
  intros (_ & _ & _ & _ & H & _).
  assert (E : Shared.cached_records
                (snd (Shared.get_exposure_summary float_of_digits sum_left cold_process))
              = portfolio) by evaluate.
  rewrite E in H. vm_compute in H. discriminate H.
Qed.

(** ** The further properties on the sample dataset *)

(** The sector analysis of the sample portfolio: the two spellings of the
    information technology sector are two sectors. *)
Definition it_summary : sector_summary :=
  {| ss_sector := VStr "Information Technology"; company_count := 1;
     total_investment_usd := 1000; total_revenue_usd := 5000; total_cogs_usd := 2000;
     total_affected_cogs_usd := 500; average_exposure_pct := 0.25;
     importers_count := 1; top_exposed_companies := [apex] |}.

Definition staples_summary : sector_summary :=
  {| ss_sector := VStr "Consumer Staples"; company_count := 1;
     total_investment_usd := 500; total_revenue_usd := 3000; total_cogs_usd := 0;
     total_affected_cogs_usd := 0; average_exposure_pct := 0;
     importers_count := 0; top_exposed_companies := [borealis] |}.

Definition it_lowercase_summary : sector_summary :=
  {| ss_sector := VStr "information technology"; company_count := 1;
     total_investment_usd := 250; total_revenue_usd := 800; total_cogs_usd := 400;
     total_affected_cogs_usd := 300; average_exposure_pct := 0.75;
     importers_count := 1; top_exposed_companies := [cinder] |}.

Definition portfolio_sectors : list sector_summary :=
  [it_summary; staples_summary; it_lowercase_summary].

Definition portfolio_summary : exposure_summary :=
  {| overview :=
       {| total_companies := 3;
          po_total_investment_usd := 1750; po_total_revenue_usd := 8800;
          po_total_cogs_usd := 2400; po_total_affected_cogs_usd := 800;
          overall_exposure_pct := PrimFloat.div 800 2400;
          companies_importing_from_china := 2 |};
     exposure_level_breakdown :=
       {| eb_high := 1; eb_medium := 0; eb_low := 1; eb_none := 0 |};
     es_top_exposed_companies := map top_exposed_entry [cinder; borealis; apex];
     sector_exposure_ranking :=
       [(VStr "information technology", 0.75%float);
        (VStr "Information Technology", 0.25%float);
        (VStr "Consumer Staples", 0%float)] |}.

(** A process whose data file is missing. *)
Definition empty_world : world := {| portfolio_cache := []; csv_rows := None |}.

Example sector_analysis_sample :
  fst (get_sector_analysis float_of_digits "" warm_world)
  = Ok (sector_success 3 portfolio_sectors).
Proof. evaluate. Qed.

Example exposure_summary_sample :
  fst (get_exposure_summary float_of_digits sum_left warm_world) = Ok portfolio_summary.
Proof. evaluate. Qed.

Example it_importers_sample :
  fst (query_sp500_portfolio float_of_digits it_importers warm_world)
  = Ok {| total_matches := 2; returned_count := 2; companies := [apex; cinder] |}.
Proof. evaluate. Qed.

(** With nothing asked for and a limit of two, the first two records. *)
Lemma unfiltered_query_witness :
  unfiltered (any_company 2) = true /\ sorts (sort_by (any_company 2)) = false
  /\ fst (query_sp500_portfolio float_of_digits (any_company 2) warm_world)
     = Ok {| total_matches := 3; returned_count := 2; companies := [apex; borealis] |}.
Proof.
  split; [reflexivity|]. split; [reflexivity|].
  exact (unfiltered_query_returns_cache float_of_digits (any_company 2) warm_world
           portfolio warm_world_loaded eq_refl eq_refl).
Defined.

(** [ticker] is not a sort field: sorting by it is not sorting. *)
Lemma unknown_sort_field_witness :
  sorts "ticker" = false
  /\ query_sp500_portfolio float_of_digits (with_limit_and_sort 20 "ticker" false it_importers)
       warm_world
     = query_sp500_portfolio float_of_digits (with_limit_and_sort 20 "" true it_importers)
         warm_world.
Proof.
  split; [reflexivity|].
  exact (unknown_sort_field_ignored float_of_digits it_importers "ticker" false true
           warm_world eq_refl).
Defined.

(** The two importers returned are records of the portfolio that the
    criteria accept. *)
Lemma returned_companies_witness :
  (forall c, In c [apex; cinder] ->
     In c portfolio /\ accepts float_of_digits it_importers c = true)
  /\ (2 <= 2)%nat /\ (2 <= length portfolio)%nat.
Proof.
  exact (returned_companies_match float_of_digits it_importers warm_world portfolio
           {| total_matches := 2; returned_count := 2; companies := [apex; cinder] |}
           warm_world_loaded it_importers_sample).
Defined.

(** The importers by revenue, highest first. *)
Lemma sorted_query_witness :
  forallb company_record portfolio = true
  /\ sorts (sort_by it_importers) = true
  /\ exists results,
       Permutation results (List.filter (satisfies it_importers) portfolio)
       /\ adjacent (ordered_by "revenue_usd" true) results
       /\ fst (query_sp500_portfolio float_of_digits it_importers warm_world)
          = Ok {| total_matches := length (List.filter (satisfies it_importers) portfolio);
                  returned_count := length (slice_to 20 results);
                  companies := slice_to 20 results |}
       /\ adjacent (ordered_by "revenue_usd" true) (slice_to 20 results).
Proof.
  split; [exact portfolio_records|]. split; [reflexivity|].
  exact (sorted_query_in_order float_of_digits it_importers warm_world portfolio
           warm_world_loaded portfolio_records eq_refl).
Defined.

(** APEX0 by its ticker, and the first company named tech. *)
Lemma lookup_first_match_witness :
  forallb company_record portfolio = true
  /\ (exists r,
        fst (query_sp500_portfolio float_of_digits (by_ticker "apex0") warm_world) = Ok r
        /\ fst (get_company_details float_of_digits "apex0" "" warm_world)
           = Ok (details_of_first "apex0" "" (companies r)))
  /\ (exists r,
        fst (query_sp500_portfolio float_of_digits (by_company_name "tech") warm_world)
        = Ok r
        /\ fst (get_company_details float_of_digits "" "tech" warm_world)
           = Ok (details_of_first "" "tech" (companies r))).
Proof.
  split; [exact portfolio_records|].
  destruct (lookup_is_first_match float_of_digits "apex0" "tech" warm_world portfolio
              warm_world_loaded portfolio_records) as [Hticker Hname].
  split; [exact (Hticker eq_refl)|exact (Hname eq_refl)].
Defined.

(** Three sectors of one company each. *)
Lemma sector_groups_witness :
  forallb company_record portfolio = true
  /\ List.NoDup (map ss_sector portfolio_sectors)
  /\ total company_count portfolio_sectors = 3%nat.
Proof.
  split; [exact portfolio_records|].
  destruct (sector_analysis_groups float_of_digits "" warm_world portfolio 3
              portfolio_sectors warm_world_loaded portfolio_records sector_analysis_sample)
    as (_ & Hnd & _ & _ & Ht).
  split; [exact Hnd|exact Ht].
Defined.

(** The totals of the sector of CIND2. *)
Lemma sector_totals_witness :
  In it_lowercase_summary portfolio_sectors
  /\ total_cogs_usd it_lowercase_summary
     = running_total (num_field "cogs_usd")
         (List.filter (in_sector (VStr "information technology")) (selected "" portfolio))
  /\ running_total (num_field "cogs_usd")
       (List.filter (in_sector (VStr "information technology")) (selected "" portfolio))
     = 400%float.
Proof.
  assert (Hin : In it_lowercase_summary portfolio_sectors) by (right; right; left; reflexivity).
  split; [exact Hin|].
  destruct (sector_totals_in_dataset_order float_of_digits "" warm_world portfolio 3
              portfolio_sectors it_lowercase_summary warm_world_loaded portfolio_records
              sector_analysis_sample Hin) as (_ & _ & Hc & _).
  split; [exact Hc|evaluate].
Defined.

(** The top exposed company of the sector of APEX0. *)
Lemma sector_top_exposed_witness :
  In it_summary portfolio_sectors
  /\ exists ranked,
       Permutation ranked
         (List.filter (in_sector (VStr "Information Technology")) (selected "" portfolio))
       /\ adjacent (ordered_by "affected_cogs_pct" true) ranked
       /\ [apex] = take 5 ranked
       /\ 1%nat = Nat.min 5 1.
Proof.
  assert (Hin : In it_summary portfolio_sectors) by (left; reflexivity).
  split; [exact Hin|].
  exact (sector_top_exposed_ranked float_of_digits "" warm_world portfolio 3
           portfolio_sectors it_summary warm_world_loaded portfolio_records
           sector_analysis_sample Hin).
Defined.

(** 1000, 500, 250. *)
Lemma sectors_ranked_witness :
  (forall s, In s portfolio_sectors -> is_nan (total_investment_usd s) = false)
  /\ adjacent
       (fun a b => PrimFloat.leb (total_investment_usd b) (total_investment_usd a) = true)
       portfolio_sectors.
Proof.
  assert (Hnan : forall s, In s portfolio_sectors -> is_nan (total_investment_usd s) = false).
  { intros s [<-|[<-|[<-|[]]]]; reflexivity. }
  split; [exact Hnan|].
  exact (sectors_ranked_by_investment float_of_digits "" warm_world 3 portfolio_sectors
           sector_analysis_sample Hnan).
Defined.

(** No record of the sample portfolio is in the utilities sector. *)
Lemma sector_not_found_witness :
  forallb company_record portfolio = true
  /\ exists message,
       fst (get_sector_analysis float_of_digits "utilities" warm_world)
       = Ok (sector_not_found message).
Proof.
  split; [exact portfolio_records|].
  destruct (sector_not_found_iff float_of_digits "utilities" warm_world portfolio
              warm_world_loaded portfolio_records) as (r & Hr & _ & Hiff).
  destruct (proj2 Hiff) as [message ->].
  - split; [discriminate|].
    intros c [<-|[<-|[<-|[]]]] E; vm_compute in E; discriminate E.
  - exists message. exact Hr.
Defined.

(** The ranking of the summary against the analysis of all sectors. *)
Lemma summary_ranking_witness :
  forallb company_record portfolio = true
  /\ exists sums e,
       fst (get_sector_analysis float_of_digits "" warm_world)
       = Ok (sector_success (length sums) sums)
       /\ fst (get_exposure_summary float_of_digits sum_left warm_world) = Ok e
       /\ Permutation (sector_exposure_ranking e)
            (map (fun s => (ss_sector s, average_exposure_pct s)) sums)
       /\ length (sector_exposure_ranking e) = length sums.
Proof.
  split; [exact portfolio_records|].
  exact (summary_ranking_agrees float_of_digits sum_left warm_world portfolio
           warm_world_loaded portfolio_records).
Defined.

(** The three companies of the sample portfolio by exposure. *)
Lemma summary_top_exposed_witness :
  forallb company_record portfolio = true
  /\ exists e ranked,
       fst (get_exposure_summary float_of_digits sum_left warm_world) = Ok e
       /\ Permutation ranked portfolio
       /\ adjacent (ordered_by "affected_cogs_pct" true) ranked
       /\ es_top_exposed_companies e = map top_exposed_entry (take 10 ranked)
       /\ length (es_top_exposed_companies e) = Nat.min 10 (length portfolio)
       /\ companies_importing_from_china (overview e) = count_where imports portfolio
       /\ (companies_importing_from_china (overview e) <= total_companies (overview e))%nat.
Proof.
  split; [exact portfolio_records|].
  exact (summary_top_exposed_ranked float_of_digits sum_left warm_world portfolio
           warm_world_loaded portfolio_records).
Defined.

(** 0.75, 0.25, 0. *)
Lemma summary_ranked_witness :
  (forall x, In x (sector_exposure_ranking portfolio_summary) -> is_nan (snd x) = false)
  /\ adjacent (fun a b => PrimFloat.leb (snd b) (snd a) = true)
       (sector_exposure_ranking portfolio_summary).
Proof.
  assert (Hnan : forall x, In x (sector_exposure_ranking portfolio_summary) ->
                   is_nan (snd x) = false).
  { intros x [<-|[<-|[<-|[]]]]; reflexivity. }
  split; [exact Hnan|].
  exact (summary_ranked_by_exposure float_of_digits sum_left warm_world portfolio_summary
           exposure_summary_sample Hnan).
Defined.

(** Without a data file the search is empty and a lookup finds nothing. *)
Lemma empty_dataset_witness :
  fst (load_portfolio_data float_of_digits empty_world) = Ok []
  /\ fst (query_sp500_portfolio float_of_digits it_importers empty_world)
     = Ok {| total_matches := 0; returned_count := 0; companies := [] |}
  /\ fst (get_company_details float_of_digits "apex0" "" empty_world)
     = Ok (details_not_found (not_found_message "apex0" ""))
  /\ fst (get_sector_analysis float_of_digits "" empty_world) = Ok (sector_success 0 []).
Proof.
  destruct (empty_dataset_answers float_of_digits sum_left empty_world it_importers
              "apex0" "" "" eq_refl) as (_ & Hq & Hd & Hs & _).
  split; [reflexivity|]. split; [exact Hq|]. split; [exact (Hd eq_refl)|exact Hs].
Defined.

(** The three rows of the sample file become the three records; the load of
    the short row raises and caches nothing. *)
Lemma load_all_or_nothing_witness :
  Forall2 (fun r c => load_row float_of_digits r = Ok c) csv portfolio
  /\ snd (load_portfolio_data float_of_digits cold_world) = warm_world
  /\ snd (load_portfolio_data float_of_digits broken_world) = broken_world.
Proof.
  destruct (load_all_or_nothing float_of_digits cold_world csv eq_refl eq_refl)
    as [Hok _].
  destruct (Hok portfolio) as [Hrows Hstate]; [evaluate|].
  destruct (load_all_or_nothing float_of_digits broken_world [short_row] eq_refl eq_refl)
    as [_ Hraise].
  destruct (Hraise AttributeError) as (_ & Hbroken & _); [evaluate|].
  split; [exact Hrows|]. split; [exact Hstate|exact Hbroken].
Defined.

(** The sample file is loadable. *)
Lemma load_establishes_records_witness :
  forallb (loadable_row float_of_digits) csv = true
  /\ exists data,
       load_portfolio_data float_of_digits {| portfolio_cache := []; csv_rows := Some csv |}
       = (Ok data, {| portfolio_cache := data; csv_rows := Some csv |})
       /\ length data = length csv
       /\ forallb company_record data = true.
Proof.
  split; [exact csv_loadable|].
  exact (load_establishes_records float_of_digits csv csv_loadable).
Defined.

(** The query [it_importers] in capitals. *)
Definition it_importers_capitals : query_args :=
  {| sector := "INFORMATION TECHNOLOGY"; industry := ""; exposure_level := "";
     imports_filter := "YES";
     min_revenue := 500; max_revenue := 0; min_affected_cogs_pct := 0;
     company_name := ""; ticker := ""; limit := 20;
     sort_by := "revenue_usd"; sort_desc := true |}.

(** The capitals change nothing. *)
Lemma criteria_ignore_case_witness :
  same_up_to_case it_importers it_importers_capitals
  /\ query_sp500_portfolio float_of_digits it_importers warm_world
     = query_sp500_portfolio float_of_digits it_importers_capitals warm_world.
Proof.
  assert (H : same_up_to_case it_importers it_importers_capitals)
    by (repeat split; reflexivity).
  split; [exact H|].
  exact (criteria_ignore_case float_of_digits it_importers it_importers_capitals
           warm_world H).
Defined.

(** The first company of the first two. *)
Lemma raising_limit_witness :
  0 <= 1 <= 2
  /\ fst (query_sp500_portfolio float_of_digits (with_limit 2 (any_company 20)) warm_world)
     = Ok {| total_matches := 3; returned_count := 2; companies := [apex; borealis] |}
  /\ fst (query_sp500_portfolio float_of_digits (with_limit 1 (any_company 20)) warm_world)
     = Ok {| total_matches := 3; returned_count := 1; companies := [apex] |}.
Proof.
  assert (Hl : 0 <= 1 <= 2) by lia.
  assert (H2 : fst (query_sp500_portfolio float_of_digits (with_limit 2 (any_company 20))
                      warm_world)
               = Ok {| total_matches := 3; returned_count := 2;
                       companies := [apex; borealis] |}) by evaluate.
  split; [exact Hl|]. split; [exact H2|].
  exact (raising_limit_extends float_of_digits (any_company 20) warm_world 1 2 _ Hl H2).
Defined.

(** Two importers and one company that does not import. *)
Lemma importers_split_witness :
  forallb company_record portfolio = true
  /\ exists yes no all,
       fst (query_sp500_portfolio float_of_digits
              (with_imports_filter "yes" (any_company 20)) warm_world) = Ok yes
       /\ fst (query_sp500_portfolio float_of_digits
                 (with_imports_filter "no" (any_company 20)) warm_world) = Ok no
       /\ fst (query_sp500_portfolio float_of_digits
                 (with_imports_filter "" (any_company 20)) warm_world) = Ok all
       /\ (total_matches yes + total_matches no)%nat = total_matches all.
Proof.
  split; [exact portfolio_records|].
  exact (importers_split_matches float_of_digits (any_company 20) warm_world portfolio
           warm_world_loaded portfolio_records).
Defined.

(** The bucket of the low exposure level. *)
Lemma summary_counts_witness :
  forallb company_record portfolio = true
  /\ In "low" ["high"; "medium"; "low"; "none"]
  /\ exists e by_level importers everyone,
       fst (get_exposure_summary float_of_digits sum_left warm_world) = Ok e
       /\ fst (query_sp500_portfolio float_of_digits (by_exposure_level "low") warm_world)
          = Ok by_level
       /\ fst (query_sp500_portfolio float_of_digits
                 (with_imports_filter "yes" no_criteria) warm_world) = Ok importers
       /\ fst (query_sp500_portfolio float_of_digits no_criteria warm_world) = Ok everyone
       /\ bucket "low" (exposure_level_breakdown e) = Some (total_matches by_level)
       /\ companies_importing_from_china (overview e) = total_matches importers
       /\ total_companies (overview e) = total_matches everyone.
Proof.
  assert (Hin : In "low" ["high"; "medium"; "low"; "none"])
    by (right; right; left; reflexivity).
  split; [exact portfolio_records|]. split; [exact Hin|].
  exact (summary_counts_are_search_counts float_of_digits sum_left warm_world portfolio
           "low" warm_world_loaded portfolio_records Hin).
Defined.

(** The analysis of the information technology sector has two summaries,
    one per spelling, for the two matches of the search. *)
Lemma sector_counts_witness :
  forallb company_record portfolio = true
  /\ nonempty "information technology" = true
  /\ exists r a,
       fst (query_sp500_portfolio float_of_digits
              (by_sector_name "information technology") warm_world) = Ok r
       /\ fst (get_sector_analysis float_of_digits "information technology" warm_world)
          = Ok a
       /\ match a with
          | sector_not_found _ => total_matches r = 0%nat
          | sector_success _ sums =>
              total company_count sums = total_matches r /\ total_matches r <> 0%nat
          end.
Proof.
  split; [exact portfolio_records|]. split; [reflexivity|].
  exact (sector_counts_are_search_counts float_of_digits "information technology"
           warm_world portfolio warm_world_loaded portfolio_records eq_refl).
Defined.
